(** * AgentCal: the Google Meet tool gateway

    A shallow embedding of [GoogleMeetAPI.js] (the client over the Google
    Calendar API), of [index.js] (the MCP server: its construction, its
    tool table and [handleCallTool]) and of the setup script that obtains
    the first token.

    JavaScript objects whose properties the code reads by fixed names are
    records; a property that may be missing is an [option] ([None] reads
    as [undefined]).  Tool arguments are typed as the tools' input schemas
    declare them.  Awaited calls to the file system, the OAuth2 client, the
    clock and the calendar provider are commands of a small free monad;
    exceptions and the mutable [this.calendar] are layered on top of it. *)

From Stdlib Require Import String Ascii List ZArith Bool Lia DecimalString.
Import ListNotations.
Open Scope string_scope.

Set Implicit Arguments.

(** ** JavaScript truthiness and [||] on the values the code tests *)

(** [!!s] for a string-or-undefined: [undefined] and the empty string are
    falsy. *)
Definition truthy (s : option string) : bool :=
  match s with
  | Some s => negb (s =? "")
  | None => false
  end.

(** [!!n] for a number-or-undefined: [undefined] and [0] are falsy. *)
Definition truthy_num (n : option Z) : bool :=
  match n with
  | Some n => negb (n =? 0)%Z
  | None => false
  end.

(** [a || b] on string-or-undefined operands. *)
Definition or_str (a b : option string) : option string :=
  if truthy a then a else b.

(** [s || ""], a string in every case. *)
Definition or_empty (s : option string) : string :=
  match or_str s (Some "") with
  | Some r => r
  | None => ""
  end.

(** [xs || []]: an array is truthy, [undefined] is not. *)
Definition or_nil {A : Type} (xs : option (list A)) : list A :=
  match xs with
  | Some l => l
  | None => []
  end.

(** [a || b] on object-or-undefined operands: an object is truthy. *)
Definition or_obj {A : Type} (a b : option A) : option A :=
  match a with
  | Some _ => a
  | None => b
  end.

(** ** The provider's event resource *)

Record EntryPoint := {
  ep_entryPointType : option string;
  ep_uri : option string
}.

Record ConferenceData := {
  cd_entryPoints : option (list EntryPoint);
  cd_createRequest : option string   (* createRequest.requestId *)
}.

Record EventDateTime := {
  dt_dateTime : option string;
  dt_date : option string;
  dt_timeZone : option string
}.

Record EventAttendee := {
  at_email : option string;
  at_responseStatus : option string
}.

Record Person := { p_email : option string }.

Record Event := {
  ev_id : option string;
  ev_summary : option string;
  ev_description : option string;
  ev_start : option EventDateTime;
  ev_end : option EventDateTime;
  ev_attendees : option (list EventAttendee);
  ev_conferenceData : option ConferenceData;
  ev_creator : option Person;
  ev_organizer : option Person;
  ev_created : option string;
  ev_updated : option string;
  ev_rest : list (string * string)   (* every other property of the resource *)
}.

(** ** The tool-facing meeting *)

Record Attendee := {
  email : option string;
  response_status : option string
}.

Record Meeting := {
  id : option string;
  summary : string;
  description : string;
  meet_link : option string;
  start_time : option string;
  end_time : option string;
  attendees : list Attendee;
  creator : option string;
  organizer : option string;
  created : option string;
  updated : option string
}.

(** ** [_formatMeetingData] *)

(** [entryPoint.entryPointType === "video"] *)
Definition is_video (entryPoint : EntryPoint) : bool :=
  match ep_entryPointType entryPoint with
  | Some t => t =? "video"
  | None => false
  end.

(** The loop over the entry points: [meetLink] after it.  [None] stands for
    a [meetLink] that is still [null] or that was assigned an [undefined]
    uri; the code only tests it with [!meetLink]. *)
Fixpoint meetLink_loop (entryPoints : list EntryPoint) : option string :=
  match entryPoints with
  | [] => None
  | entryPoint :: rest =>
      if is_video entryPoint then ep_uri entryPoint
      else meetLink_loop rest
  end.

Definition format_attendee (attendee : EventAttendee) : Attendee :=
  {| email := at_email attendee;
     response_status := at_responseStatus attendee |}.

(** [x?.p] *)
Definition opt_chain {A B : Type} (x : option A) (p : A -> option B) : option B :=
  match x with
  | Some a => p a
  | None => None
  end.

Definition _formatMeetingData (event : Event) : option Meeting :=
  match ev_conferenceData event with
  | None => None
  | Some conferenceData =>
      let meetLink := meetLink_loop (or_nil (cd_entryPoints conferenceData)) in
      if negb (truthy meetLink) then None
      else
        Some {| id := ev_id event;
                summary := or_empty (ev_summary event);
                description := or_empty (ev_description event);
                meet_link := meetLink;
                start_time := or_str (opt_chain (ev_start event) dt_dateTime)
                                     (opt_chain (ev_start event) dt_date);
                end_time := or_str (opt_chain (ev_end event) dt_dateTime)
                                   (opt_chain (ev_end event) dt_date);
                attendees := map format_attendee (or_nil (ev_attendees event));
                creator := opt_chain (ev_creator event) p_email;
                organizer := opt_chain (ev_organizer event) p_email;
                created := ev_created event;
                updated := ev_updated event |}
  end.

(** ** Credentials, token and the authenticated context *)

Record CredData := {
  cred_client_id : option string;
  cred_client_secret : option string;
  cred_redirect_uris : option (list string)
}.

(** The parsed credentials file. *)
Record CredentialsFile := {
  web : option CredData;
  installed : option CredData
}.

(** The parsed token file, and what a refresh returns. *)
Record Token := {
  access_token : option string;
  refresh_token : option string;
  expiry_date : option Z
}.

(** The object [oAuth2Client.refreshToken] resolves to, by its properties:
    [initialize] reads [credentials] off it; the client hands tokens out
    under [tokens] (the setup script reads them there off [getToken]). *)
Record RefreshAnswer := {
  ans_credentials : option Token;
  ans_tokens : option Token
}.

Record OAuth2Client := {
  client_id : option string;
  client_secret : option string;
  redirect_uri : option string;
  credentials : option Token
}.

(** [oAuth2Client.setCredentials(token)] *)
Definition setCredentials (client : OAuth2Client) (token : Token) : OAuth2Client :=
  {| client_id := client_id client;
     client_secret := client_secret client;
     redirect_uri := redirect_uri client;
     credentials := Some token |}.

(** [google.calendar({ version, auth })] *)
Record Calendar := {
  version : string;
  auth : OAuth2Client
}.

(** The [GoogleMeetAPI] object. *)
Record GoogleMeetAPI := {
  credentialsPath : string;
  tokenPath : string;
  calendar : option Calendar
}.

(** [new GoogleMeetAPI(credentialsPath, tokenPath)] *)
Definition constructor (credentialsPath tokenPath : string) : GoogleMeetAPI :=
  {| credentialsPath := credentialsPath;
     tokenPath := tokenPath;
     calendar := None |}.

(** ** Exceptions *)

Inductive ErrorCode := InvalidParams | MethodNotFound.

Inductive Exn :=
| McpError (code : ErrorCode) (message : string)
| Error (message : string).

(** [error.message] *)
Definition message (error : Exn) : string :=
  match error with
  | McpError _ m => m
  | Error m => m
  end.

(** [error instanceof McpError] *)
Definition instanceof_McpError (error : Exn) : bool :=
  match error with
  | McpError _ _ => true
  | Error _ => false
  end.

(** ** Awaited calls to the outside *)

(** The parameters of [calendar.events.list]. *)
Record ListParams := {
  lp_calendarId : string;
  lp_maxResults : Z;
  lp_timeMin : string;
  lp_orderBy : string;
  lp_singleEvents : bool;
  lp_conferenceDataVersion : Z;
  lp_timeMax : option string
}.

Inductive Cmd :=
| DateNow                                         (* Date.now() *)
| DateToISOString                                 (* new Date().toISOString() *)
| ReadCredentials (path : string)                 (* JSON.parse(await fs.readFile(path)) *)
| ReadToken (path : string)                       (* JSON.parse(await fs.readFile(path)) *)
| RefreshToken (client : OAuth2Client) (refresh : option string)
| WriteToken (path : string) (credentials : Token)
| EventsList (cal : Calendar) (params : ListParams)
| EventsGet (cal : Calendar) (eventId : string) (conferenceDataVersion : option Z)
| EventsInsert (cal : Calendar) (resource : Event)
| EventsUpdate (cal : Calendar) (eventId : string) (resource : Event)
| EventsDelete (cal : Calendar) (eventId : string).

(** An awaited call either rejects with an error (its message) or yields a
    value. *)
Definition Fallible (A : Type) : Type := (string + A)%type.

(** What the environment answers to each command.  [response.data.items] of
    a listing may be missing. *)
Definition Reply (c : Cmd) : Type :=
  match c with
  | DateNow => Z
  | DateToISOString => string
  | ReadCredentials _ => Fallible CredentialsFile
  | ReadToken _ => Fallible Token
  | RefreshToken _ _ => Fallible RefreshAnswer
  | WriteToken _ _ => Fallible unit
  | EventsList _ _ => Fallible (option (list Event))
  | EventsGet _ _ _ => Fallible Event
  | EventsInsert _ _ => Fallible Event
  | EventsUpdate _ _ _ => Fallible Event
  | EventsDelete _ _ => Fallible unit
  end.

(** A record of one call: the command and the reply it got. *)
Inductive Entry :=
| E_DateNow (now : Z)
| E_DateToISOString (iso : string)
| E_ReadCredentials (path : string) (r : Fallible CredentialsFile)
| E_ReadToken (path : string) (r : Fallible Token)
| E_RefreshToken (client : OAuth2Client) (refresh : option string)
                 (r : Fallible RefreshAnswer)
| E_WriteToken (path : string) (credentials : Token) (r : Fallible unit)
| E_EventsList (cal : Calendar) (params : ListParams) (r : Fallible (option (list Event)))
| E_EventsGet (cal : Calendar) (eventId : string) (v : option Z) (r : Fallible Event)
| E_EventsInsert (cal : Calendar) (resource : Event) (r : Fallible Event)
| E_EventsUpdate (cal : Calendar) (eventId : string) (resource : Event) (r : Fallible Event)
| E_EventsDelete (cal : Calendar) (eventId : string) (r : Fallible unit).

Definition entry (c : Cmd) : Reply c -> Entry :=
  match c with
  | DateNow => E_DateNow
  | DateToISOString => E_DateToISOString
  | ReadCredentials p => E_ReadCredentials p
  | ReadToken p => E_ReadToken p
  | RefreshToken cl r => E_RefreshToken cl r
  | WriteToken p t => E_WriteToken p t
  | EventsList cal ps => E_EventsList cal ps
  | EventsGet cal i v => E_EventsGet cal i v
  | EventsInsert cal e => E_EventsInsert cal e
  | EventsUpdate cal i e => E_EventsUpdate cal i e
  | EventsDelete cal i => E_EventsDelete cal i
  end.

(** Programs over the commands: finite trees, a node per awaited call. *)
Inductive IO (A : Type) : Type :=
| Ret (a : A)
| Do (c : Cmd) (k : Reply c -> IO A).

Arguments Ret {A} a.
Arguments Do {A} c k.

Fixpoint io_bind {A B : Type} (p : IO A) (f : A -> IO B) : IO B :=
  match p with
  | Ret a => f a
  | Do c k => Do c (fun r => io_bind (k r) f)
  end.

(** How a JavaScript body ends. *)
Inductive Completion (A : Type) : Type :=
| Normal (a : A)
| Throw (e : Exn).

Arguments Normal {A} a.
Arguments Throw {A} e.

(** A method of the gateway: it reads and writes [this] (the GoogleMeetAPI
    object), awaits calls and returns or throws.  The state survives a
    throw, as object mutation does. *)
Definition M (A : Type) : Type := GoogleMeetAPI -> IO (Completion A * GoogleMeetAPI).

Definition ret {A : Type} (a : A) : M A :=
  fun this => Ret (Normal a, this).

Definition throw {A : Type} (e : Exn) : M A :=
  fun this => Ret (Throw e, this).

Definition bind {A B : Type} (m : M A) (f : A -> M B) : M B :=
  fun this =>
    io_bind (m this) (fun r =>
      match r with
      | (Normal a, this') => f a this'
      | (Throw e, this') => Ret (Throw e, this')
      end).

(** [try { body } catch (error) { handler }] *)
Definition try_catch {A : Type} (body : M A) (handler : Exn -> M A) : M A :=
  fun this =>
    io_bind (body this) (fun r =>
      match r with
      | (Normal a, this') => Ret (Normal a, this')
      | (Throw e, this') => handler e this'
      end).

Definition get_this : M GoogleMeetAPI :=
  fun this => Ret (Normal this, this).

(** [this.calendar = cal] *)
Definition set_calendar (cal : Calendar) : M unit :=
  fun this =>
    Ret (Normal tt, {| credentialsPath := credentialsPath this;
                       tokenPath := tokenPath this;
                       calendar := Some cal |}).

(** A call that cannot reject. *)
Definition ask (c : Cmd) : M (Reply c) :=
  fun this => Do c (fun r => Ret (Normal r, this)).

(** [await] of a call that may reject: a rejection is thrown as an [Error]
    carrying the message. *)
Definition await {A : Type} (c : Cmd) (cast : Reply c -> Fallible A) : M A :=
  fun this =>
    Do c (fun r =>
      match cast r with
      | inl msg => Ret (Throw (Error msg), this)
      | inr a => Ret (Normal a, this)
      end).

Declare Scope js_scope.
Delimit Scope js_scope with js.
Notation "x <- m ;; k" := (bind m (fun x => k))
  (at level 61, m at next level, right associativity) : js_scope.
Notation "m ;;; k" := (bind m (fun _ => k))
  (at level 61, right associativity) : js_scope.
Open Scope js_scope.

(** ** [GoogleMeetAPI]: the client's methods *)

Definition dquote : string := String (ascii_of_nat 34) "".

(** Template-literal interpolation of a number. *)
Definition string_of_number (n : Z) : string :=
  NilZero.string_of_int (Z.to_int n).

(** [this.calendar.events]: a TypeError while [this.calendar] is null. *)
Definition this_calendar : M Calendar :=
  this <- get_this;;
  match calendar this with
  | Some cal => ret cal
  | None => throw (Error "Cannot read properties of null (reading 'events')")
  end.

Definition No_valid_credentials : string :=
  "No valid credentials. Please run the setup script first to authorize access.".

(** The message of [fs.writeFile] for [undefined] data. *)
Definition data_undefined : string :=
  "The " ++ dquote ++ "data" ++ dquote
  ++ " argument must be of type string or an instance of Buffer, TypedArray, or DataView. Received undefined".

Definition initialize : M unit :=
  this <- get_this;;
  credentials <- await (ReadCredentials (credentialsPath this)) (fun r => r);;
  match or_obj (web credentials) (installed credentials) with
  | None =>
      throw (Error ("Invalid credentials file format. Must contain " ++ dquote
                    ++ "web" ++ dquote ++ " or " ++ dquote ++ "installed"
                    ++ dquote ++ " property."))
  | Some credData =>
      redirect <- match cred_redirect_uris credData with
                  | Some uris => ret (nth_error uris 0)
                  | None =>
                      throw (Error "Cannot read properties of undefined (reading '0')")
                  end;;
      let oAuth2Client := {| client_id := cred_client_id credData;
                             client_secret := cred_client_secret credData;
                             redirect_uri := redirect;
                             credentials := None |} in
      oAuth2Client <-
        try_catch
          (token <- await (ReadToken (tokenPath this)) (fun r => r);;
           let oAuth2Client := setCredentials oAuth2Client token in
           if truthy_num (expiry_date token) then
             now <- ask DateNow;;
             if (match expiry_date token with
                 | Some expiry => expiry <? now
                 | None => false
                 end)%Z
             then
               (* [const { credentials } = await ...refreshToken(...)] *)
               answer <- await (RefreshToken oAuth2Client (refresh_token token))
                               (fun r => r);;
               match ans_credentials answer with
               | Some credentials =>
                   await (WriteToken (tokenPath this) credentials)
                         (fun r => r);;;
                   ret (setCredentials oAuth2Client credentials)
               | None =>
                   (* [JSON.stringify(undefined)] is [undefined], which
                      [fs.writeFile] rejects as data: no file is touched *)
                   throw (Error data_undefined)
               end
             else ret oAuth2Client
           else ret oAuth2Client)
          (fun error => throw (Error No_valid_credentials));;
      set_calendar {| version := "v3"; auth := oAuth2Client |}
  end.

(** The [for] loop of [listMeetings]; [meetings.push] appends. *)
Fixpoint listMeetings_loop (events : list Event) (meetings : list Meeting)
  : list Meeting :=
  match events with
  | [] => meetings
  | event :: rest =>
      match ev_conferenceData event with
      | Some _ =>
          match _formatMeetingData event with
          | Some meeting => listMeetings_loop rest (meetings ++ [meeting])%list
          | None => listMeetings_loop rest meetings
          end
      | None => listMeetings_loop rest meetings
      end
  end.

Definition listMeetings (maxResults : Z) (timeMin timeMax : option string)
  : M (list Meeting) :=
  timeMin <- (if negb (truthy timeMin) then ask DateToISOString
              else ret (or_empty timeMin));;
  let params := {| lp_calendarId := "primary";
                   lp_maxResults := maxResults;
                   lp_timeMin := timeMin;
                   lp_orderBy := "startTime";
                   lp_singleEvents := true;
                   lp_conferenceDataVersion := 1;
                   lp_timeMax := if truthy timeMax then timeMax else None |} in
  try_catch
    (cal <- this_calendar;;
     items <- await (EventsList cal params) (fun r => r);;
     let events := or_nil items in
     ret (listMeetings_loop events []))
    (fun error => throw (Error ("Error listing meetings: " ++ message error))).

Definition getMeeting (meetingId : string) : M Meeting :=
  try_catch
    (cal <- this_calendar;;
     event <- await (EventsGet cal meetingId (Some 1%Z)) (fun r => r);;
     match ev_conferenceData event with
     | None =>
         throw (Error ("Event with ID " ++ meetingId
                       ++ " does not have Google Meet conferencing data"))
     | Some _ =>
         match _formatMeetingData event with
         | None =>
             throw (Error ("Failed to format meeting data for event ID "
                           ++ meetingId))
         | Some meeting => ret meeting
         end
     end)
    (fun error => throw (Error ("Error getting meeting: " ++ message error))).

(** [attendees.map((email) => ({ email }))] *)
Definition formatted_attendees (attendees : list string) : list EventAttendee :=
  map (fun email => {| at_email := Some email; at_responseStatus := None |})
      attendees.

Definition createMeeting (summary startTime endTime description : string)
  (attendees : list string) (timeZone : string) : M Meeting :=
  let formattedAttendees := formatted_attendees attendees in
  now <- ask DateNow;;
  let event :=
    {| ev_id := None;
       ev_summary := Some summary;
       ev_description := Some description;
       ev_start := Some {| dt_dateTime := Some startTime; dt_date := None;
                           dt_timeZone := Some timeZone |};
       ev_end := Some {| dt_dateTime := Some endTime; dt_date := None;
                         dt_timeZone := Some timeZone |};
       ev_attendees := Some formattedAttendees;
       ev_conferenceData :=
         Some {| cd_entryPoints := None;
                 cd_createRequest := Some ("meet-" ++ string_of_number now) |};
       ev_creator := None;
       ev_organizer := None;
       ev_created := None;
       ev_updated := None;
       ev_rest := [] |} in
  try_catch
    (cal <- this_calendar;;
     createdEvent <- await (EventsInsert cal event) (fun r => r);;
     match ev_conferenceData createdEvent with
     | None => throw (Error "Failed to create Google Meet conferencing data")
     | Some _ =>
         match _formatMeetingData createdEvent with
         | None =>
             throw (Error "Failed to format meeting data for newly created event")
         | Some meeting => ret meeting
         end
     end)
    (fun error => throw (Error ("Error creating meeting: " ++ message error))).

(** The [updateData] object: a key that was not set reads [undefined]. *)
Record UpdateData := {
  ud_summary : option string;
  ud_description : option string;
  ud_startTime : option string;
  ud_endTime : option string;
  ud_attendees : option (list string)
}.

(** Property assignments on the fetched event. *)
Definition set_summary (event : Event) (v : string) : Event :=
  {| ev_id := ev_id event; ev_summary := Some v;
     ev_description := ev_description event; ev_start := ev_start event;
     ev_end := ev_end event; ev_attendees := ev_attendees event;
     ev_conferenceData := ev_conferenceData event;
     ev_creator := ev_creator event; ev_organizer := ev_organizer event;
     ev_created := ev_created event; ev_updated := ev_updated event;
     ev_rest := ev_rest event |}.

Definition set_description (event : Event) (v : string) : Event :=
  {| ev_id := ev_id event; ev_summary := ev_summary event;
     ev_description := Some v; ev_start := ev_start event;
     ev_end := ev_end event; ev_attendees := ev_attendees event;
     ev_conferenceData := ev_conferenceData event;
     ev_creator := ev_creator event; ev_organizer := ev_organizer event;
     ev_created := ev_created event; ev_updated := ev_updated event;
     ev_rest := ev_rest event |}.

Definition set_dateTime (t : EventDateTime) (v : string) : EventDateTime :=
  {| dt_dateTime := Some v; dt_date := dt_date t; dt_timeZone := dt_timeZone t |}.

Definition set_start (event : Event) (t : EventDateTime) : Event :=
  {| ev_id := ev_id event; ev_summary := ev_summary event;
     ev_description := ev_description event; ev_start := Some t;
     ev_end := ev_end event; ev_attendees := ev_attendees event;
     ev_conferenceData := ev_conferenceData event;
     ev_creator := ev_creator event; ev_organizer := ev_organizer event;
     ev_created := ev_created event; ev_updated := ev_updated event;
     ev_rest := ev_rest event |}.

Definition set_end (event : Event) (t : EventDateTime) : Event :=
  {| ev_id := ev_id event; ev_summary := ev_summary event;
     ev_description := ev_description event; ev_start := ev_start event;
     ev_end := Some t; ev_attendees := ev_attendees event;
     ev_conferenceData := ev_conferenceData event;
     ev_creator := ev_creator event; ev_organizer := ev_organizer event;
     ev_created := ev_created event; ev_updated := ev_updated event;
     ev_rest := ev_rest event |}.

Definition set_attendees (event : Event) (v : list EventAttendee) : Event :=
  {| ev_id := ev_id event; ev_summary := ev_summary event;
     ev_description := ev_description event; ev_start := ev_start event;
     ev_end := ev_end event; ev_attendees := Some v;
     ev_conferenceData := ev_conferenceData event;
     ev_creator := ev_creator event; ev_organizer := ev_organizer event;
     ev_created := ev_created event; ev_updated := ev_updated event;
     ev_rest := ev_rest event |}.

(** [event.start.dateTime = v]: a TypeError when [event.start] is missing. *)
Definition assign_start_dateTime (event : Event) (v : string)
  : Completion Event :=
  match ev_start event with
  | Some t => Normal (set_start event (set_dateTime t v))
  | None =>
      Throw (Error "Cannot set properties of undefined (setting 'dateTime')")
  end.

Definition assign_end_dateTime (event : Event) (v : string)
  : Completion Event :=
  match ev_end event with
  | Some t => Normal (set_end event (set_dateTime t v))
  | None =>
      Throw (Error "Cannot set properties of undefined (setting 'dateTime')")
  end.

(** The five guarded assignments of [updateMeeting] on the fetched event,
    in the code's order. *)
Definition assign_fields (event : Event) (updateData : UpdateData)
  : Completion Event :=
  let event := match ud_summary updateData with
               | Some summary => set_summary event summary
               | None => event
               end in
  let event := match ud_description updateData with
               | Some description => set_description event description
               | None => event
               end in
  match (match ud_startTime updateData with
         | Some startTime => assign_start_dateTime event startTime
         | None => Normal event
         end) with
  | Throw e => Throw e
  | Normal event =>
      match (match ud_endTime updateData with
             | Some endTime => assign_end_dateTime event endTime
             | None => Normal event
             end) with
      | Throw e => Throw e
      | Normal event =>
          Normal (match ud_attendees updateData with
                  | Some attendees =>
                      set_attendees event (formatted_attendees attendees)
                  | None => event
                  end)
      end
  end.

(** A block without awaited calls, run inside a method. *)
Definition lift {A : Type} (c : Completion A) : M A :=
  match c with
  | Normal a => ret a
  | Throw e => throw e
  end.

Definition updateMeeting (meetingId : string) (updateData : UpdateData)
  : M Meeting :=
  try_catch
    (cal <- this_calendar;;
     event <- await (EventsGet cal meetingId None) (fun r => r);;
     event <- lift (assign_fields event updateData);;
     updatedEvent <- await (EventsUpdate cal meetingId event) (fun r => r);;
     match ev_conferenceData updatedEvent with
     | None =>
         throw (Error "Updated event does not have Google Meet conferencing data")
     | Some _ =>
         match _formatMeetingData updatedEvent with
         | None => throw (Error "Failed to format meeting data for updated event")
         | Some meeting => ret meeting
         end
     end)
    (fun error => throw (Error ("Error updating meeting: " ++ message error))).

Definition deleteMeeting (meetingId : string) : M bool :=
  try_catch
    (cal <- this_calendar;;
     await (EventsDelete cal meetingId) (fun r => r);;;
     ret true)
    (fun error => throw (Error ("Error deleting meeting: " ++ message error))).

(** ** The MCP server: [handleCallTool] *)

(** [request.params.arguments], typed as the input schemas declare. *)
Record Args := {
  a_max_results : option Z;
  a_time_min : option string;
  a_time_max : option string;
  a_meeting_id : option string;
  a_summary : option string;
  a_description : option string;
  a_start_time : option string;
  a_end_time : option string;
  a_attendees : option (list string);
  a_time_zone : option string
}.

(** [{}] *)
Definition no_args : Args :=
  {| a_max_results := None; a_time_min := None; a_time_max := None;
     a_meeting_id := None; a_summary := None; a_description := None;
     a_start_time := None; a_end_time := None; a_attendees := None;
     a_time_zone := None |}.

(** [request.params] *)
Record Request := {
  params_name : string;
  params_arguments : option Args
}.

(** The text of the single content item. *)
Inductive Text :=
| JSON_meetings (meetings : list Meeting)   (* JSON.stringify(meetings, null, 2) *)
| JSON_meeting (meeting : Meeting)          (* JSON.stringify(meeting, null, 2) *)
| Str (s : string).

(** [{ content: [{ type: "text", text }], isError }]; a missing [isError]
    reads as false. *)
Record Envelope := {
  text : Text;
  isError : bool
}.

(** [missing.join(", ")] *)
Definition join (sep : string) (l : list string) : string :=
  String.concat sep l.

(** [Object.keys(updateData).length] *)
Definition count_key {A : Type} (o : option A) : nat :=
  match o with
  | Some _ => 1
  | None => 0
  end.

Definition keys_length (updateData : UpdateData) : nat :=
  count_key (ud_summary updateData) + count_key (ud_description updateData)
  + count_key (ud_startTime updateData) + count_key (ud_endTime updateData)
  + count_key (ud_attendees updateData).

(** [x = dflt] in a destructuring pattern: the default applies to
    [undefined] only. *)
Definition default_to {A : Type} (dflt : A) (x : option A) : A :=
  match x with
  | Some v => v
  | None => dflt
  end.

(** The body of the [try] block: the dispatch on the tool name. *)
Definition dispatch (toolName : string) (args : Args) : M Envelope :=
  if toolName =? "list_meetings" then
    let maxResults := if truthy_num (a_max_results args)
                      then default_to 10%Z (a_max_results args) else 10%Z in
    let timeMin := or_str (a_time_min args) None in
    let timeMax := or_str (a_time_max args) None in
    meetings <- listMeetings maxResults timeMin timeMax;;
    ret {| text := JSON_meetings meetings; isError := false |}
  else if toolName =? "get_meeting" then
    let meetingId := a_meeting_id args in
    if negb (truthy meetingId) then
      throw (McpError InvalidParams "meeting_id is required")
    else
      meeting <- getMeeting (or_empty meetingId);;
      ret {| text := JSON_meeting meeting; isError := false |}
  else if toolName =? "create_meeting" then
    let summary := a_summary args in
    let description := default_to "" (a_description args) in
    let start_time := a_start_time args in
    let end_time := a_end_time args in
    let attendees := default_to [] (a_attendees args) in
    let time_zone := default_to "UTC" (a_time_zone args) in
    if negb (truthy summary) || negb (truthy start_time) || negb (truthy end_time)
    then
      let missing : list string := [] in
      let missing := if negb (truthy summary) then (missing ++ ["summary"])%list
                     else missing in
      let missing := if negb (truthy start_time) then (missing ++ ["start_time"])%list
                     else missing in
      let missing := if negb (truthy end_time) then (missing ++ ["end_time"])%list
                     else missing in
      throw (McpError InvalidParams
               ("Missing required parameters: " ++ join ", " missing))
    else
      meeting <- createMeeting (or_empty summary) (or_empty start_time)
                               (or_empty end_time) description attendees
                               time_zone;;
      ret {| text := JSON_meeting meeting; isError := false |}
  else if toolName =? "update_meeting" then
    let meeting_id := a_meeting_id args in
    if negb (truthy meeting_id) then
      throw (McpError InvalidParams "meeting_id is required")
    else
      let updateData := {| ud_summary := a_summary args;
                           ud_description := a_description args;
                           ud_startTime := a_start_time args;
                           ud_endTime := a_end_time args;
                           ud_attendees := a_attendees args |} in
      if (keys_length updateData =? 0)%nat then
        throw (McpError InvalidParams
                 "At least one field to update must be provided")
      else
        meeting <- updateMeeting (or_empty meeting_id) updateData;;
        ret {| text := JSON_meeting meeting; isError := false |}
  else if toolName =? "delete_meeting" then
    let meeting_id := a_meeting_id args in
    if negb (truthy meeting_id) then
      throw (McpError InvalidParams "meeting_id is required")
    else
      deleteMeeting (or_empty meeting_id);;;
      ret {| text := Str "Meeting successfully deleted"; isError := false |}
  else
    throw (McpError MethodNotFound ("Unknown tool: " ++ toolName)).

(** The first statement: initialize the API if [this.googleMeet.calendar] is
    still null.  [Some envelope] is the early [return] of its [catch]. *)
Definition ensure_initialized : M (option Envelope) :=
  this <- get_this;;
  match calendar this with
  | None =>
      try_catch
        (initialize;;; ret None)
        (fun error =>
           ret (Some {| text := Str ("Error initializing Google Meet API: "
                                     ++ message error);
                        isError := true |}))
  | Some _ => ret None
  end.

(** The [try] block around the dispatch, with its [catch]: an [McpError]
    is thrown on, anything else becomes an error-flagged envelope. *)
Definition try_dispatch (request : Request) : M Envelope :=
  let toolName := params_name request in
  (* request.params.arguments || {} *)
  let args := default_to no_args (params_arguments request) in
  try_catch
    (dispatch toolName args)
    (fun error =>
       if instanceof_McpError error then throw error
       else ret {| text := Str ("Error: " ++ message error);
                   isError := true |}).

Definition handleCallTool (request : Request) : M Envelope :=
  early <- ensure_initialized;;
  match early with
  | Some envelope => ret envelope
  | None => try_dispatch request
  end.

(** ** The MCP server: construction and [handleListTools] *)

(** [new GoogleMeetMcpServer()], from the two environment variables: the
    gateway it holds, or [None] when it prints the error and calls
    [process.exit(1)]. *)
Definition GoogleMeetMcpServer
  (GOOGLE_MEET_CREDENTIALS_PATH GOOGLE_MEET_TOKEN_PATH : option string)
  : option GoogleMeetAPI :=
  let credentialsPath := GOOGLE_MEET_CREDENTIALS_PATH in
  let tokenPath := GOOGLE_MEET_TOKEN_PATH in
  if negb (truthy credentialsPath) || negb (truthy tokenPath) then None
  else Some (constructor (or_empty credentialsPath) (or_empty tokenPath)).

(** A property of an input schema; [items] is the item type of an array. *)
Record SchemaProperty := {
  sp_name : string;
  sp_type : string;
  sp_description : string;
  sp_items : option string
}.

(** A declared tool: [inputSchema] is an object schema with these
    properties and required names. *)
Record Tool := {
  tool_name : string;
  tool_description : string;
  tool_properties : list SchemaProperty;
  tool_required : list string
}.

Definition string_property (name description : string) : SchemaProperty :=
  {| sp_name := name; sp_type := "string"; sp_description := description;
     sp_items := None |}.

(** The [tools] array that [handleListTools] returns. *)
Definition handleListTools : list Tool :=
  [ {| tool_name := "list_meetings";
       tool_description := "List upcoming Google Meet meetings";
       tool_properties :=
         [ {| sp_name := "max_results"; sp_type := "number";
              sp_description :=
                "Maximum number of results to return (default: 10)";
              sp_items := None |};
           string_property "time_min" "Start time in ISO format (default: now)";
           string_property "time_max" "End time in ISO format (optional)" ];
       tool_required := [] |};
    {| tool_name := "get_meeting";
       tool_description := "Get details of a specific Google Meet meeting";
       tool_properties :=
         [ string_property "meeting_id" "ID of the meeting to retrieve" ];
       tool_required := ["meeting_id"] |};
    {| tool_name := "create_meeting";
       tool_description := "Create a new Google Meet meeting";
       tool_properties :=
         [ string_property "summary" "Title of the meeting";
           string_property "description"
                           "Description for the meeting (optional)";
           string_property "start_time" "Start time in ISO format";
           string_property "end_time" "End time in ISO format";
           {| sp_name := "attendees"; sp_type := "array";
              sp_description :=
                "List of email addresses for attendees (optional)";
              sp_items := Some "string" |};
           string_property "time_zone"
             "IANA timezone (e.g., 'America/New_York', 'America/Los_Angeles'). Defaults to UTC if not specified." ];
       tool_required := ["summary"; "start_time"; "end_time"] |};
    {| tool_name := "update_meeting";
       tool_description := "Update an existing Google Meet meeting";
       tool_properties :=
         [ string_property "meeting_id" "ID of the meeting to update";
           string_property "summary" "Updated title of the meeting (optional)";
           string_property "description"
                           "Updated description for the meeting (optional)";
           string_property "start_time"
                           "Updated start time in ISO format (optional)";
           string_property "end_time"
                           "Updated end time in ISO format (optional)";
           {| sp_name := "attendees"; sp_type := "array";
              sp_description :=
                "Updated list of email addresses for attendees (optional)";
              sp_items := Some "string" |} ];
       tool_required := ["meeting_id"] |};
    {| tool_name := "delete_meeting";
       tool_description := "Delete a Google Meet meeting";
       tool_properties :=
         [ string_property "meeting_id" "ID of the meeting to delete" ];
       tool_required := ["meeting_id"] |} ].

(** ** The setup script: [main] *)

Module Setup.

(** A caught error: [error.message], and [error.response.data] when there
    is one (a rejection of [getToken] may carry it). *)
Record Rejection := {
  rej_message : string;
  rej_response_data : option string
}.

(** The options passed to [generateAuthUrl]. *)
Record AuthUrlOptions := {
  access_type : string;
  scope : list string;
  prompt : string;
  opt_redirect_uri : string
}.

Definition SCOPES : list string := ["https://www.googleapis.com/auth/calendar"].

(** What the script does to the outside, in order. *)
Inductive Action :=
| ConsoleLog (args : list string)
| ConsoleError (args : list string)
| Access (path : string)
| ReadFile (path : string)
| Open (url : string)
| Question (query : string)
| GetToken (client : OAuth2Client) (code : string)
| WriteFile (path : string) (tokens : Token)
| RlClose.

(** How a block ends: normally, by a thrown error, or by [process.exit]. *)
Inductive Outcome (A : Type) : Type :=
| Ok (a : A)
| Thrown (error : Rejection)
| Exited (code : Z).

Arguments Ok {A} a.
Arguments Thrown {A} error.
Arguments Exited {A} code.

Definition Script (A : Type) : Type := (list Action * Outcome A)%type.

Definition sret {A : Type} (a : A) : Script A := ([], Ok a).

Definition sbind {A B : Type} (m : Script A) (f : A -> Script B) : Script B :=
  match m with
  | (l1, Ok a) => let (l2, r) := f a in ((l1 ++ l2)%list, r)
  | (l1, Thrown msg) => (l1, Thrown msg)
  | (l1, Exited code) => (l1, Exited code)
  end.

(** [try { body } catch (error) { handler }]: [process.exit] is not caught. *)
Definition stry {A : Type} (body : Script A) (handler : Rejection -> Script A)
  : Script A :=
  match body with
  | (l1, Thrown error) => let (l2, r) := handler error in ((l1 ++ l2)%list, r)
  | other => other
  end.

Definition act (a : Action) : Script unit := ([a], Ok tt).

(** An error with a message only. *)
Definition plain_error (message : string) : Rejection :=
  {| rej_message := message; rej_response_data := None |}.

(** An awaited call: the action is recorded, a rejection is thrown. *)
Definition awaited {A : Type} (a : Action) (r : Rejection + A) : Script A :=
  match r with
  | inl error => ([a], Thrown error)
  | inr v => ([a], Ok v)
  end.

(** A rejection of the file system or of [open]. *)
Definition rejecting {A : Type} (r : Fallible A) : Rejection + A :=
  match r with
  | inl msg => inl (plain_error msg)
  | inr v => inr v
  end.

Definition exit {A : Type} (code : Z) : Script A := ([], Exited code).

Definition nl : string := String (ascii_of_nat 10) "".

Section Main.

(** Library functions: [path.join], [oAuth2Client.generateAuthUrl] and
    [String.prototype.trim]. *)
Variable path_join : string -> string -> string.
Variable generateAuthUrl : OAuth2Client -> AuthUrlOptions -> string.
Variable trim : string -> string.

(** The process environment and what the outside answers. *)
Record Env := {
  GOOGLE_MEET_CREDENTIALS_PATH : option string;
  GOOGLE_MEET_TOKEN_PATH : option string;
  cwd : string;                                      (* process.cwd() *)
  access : string -> Fallible unit;                  (* fs.access(path) *)
  readFile : string -> Fallible CredentialsFile;     (* JSON.parse(readFile) *)
  open : string -> Fallible unit;                    (* open(authUrl) *)
  answer : string;                                   (* what the user types *)
  getToken : OAuth2Client -> string -> Rejection + Token;
  writeFile : string -> Token -> Fallible unit
}.

Definition main (env : Env) : Script unit :=
  stry
    (let credentialsPath :=
       or_empty (or_str (GOOGLE_MEET_CREDENTIALS_PATH env)
                        (Some (path_join (cwd env) "credentials.json"))) in
     let tokenPath :=
       or_empty (or_str (GOOGLE_MEET_TOKEN_PATH env)
                        (Some (path_join (cwd env) "token.json"))) in
     sbind (act (ConsoleLog ["Using credentials file: " ++ credentialsPath])) (fun _ =>
     sbind (act (ConsoleLog ["Token will be saved to: " ++ tokenPath])) (fun _ =>
     sbind (stry (awaited (Access credentialsPath)
                          (rejecting (access env credentialsPath)))
                 (fun error =>
                    sbind (act (ConsoleError
                                  ["Error: Credentials file not found at "
                                   ++ credentialsPath])) (fun _ =>
                    sbind (act (ConsoleError
                                  ["Please download OAuth 2.0 Client ID credentials from Google Cloud Console"])) (fun _ =>
                    sbind (act (ConsoleError ["and save them to this path."])) (fun _ =>
                    sbind (act RlClose) (fun _ =>
                    exit 1)))))) (fun _ =>
     sbind (awaited (ReadFile credentialsPath)
                    (rejecting (readFile env credentialsPath)))
           (fun credentials =>
     match or_obj (web credentials) (installed credentials) with
     | None =>
         sbind (act (ConsoleError
                       ["Error: Invalid credentials file format. Must contain "
                        ++ dquote ++ "web" ++ dquote ++ " or " ++ dquote
                        ++ "installed" ++ dquote ++ " property."])) (fun _ =>
         sbind (act RlClose) (fun _ =>
         exit 1))
     | Some credData =>
         sbind (match cred_redirect_uris credData with
                | Some uris =>
                    sret (or_empty (or_str (nth_error uris 0)
                                           (Some "http://localhost:3000")))
                | None =>
                    ([], Thrown (plain_error
                                   "Cannot read properties of undefined (reading '0')"))
                end) (fun redirectUri =>
         sbind (act (ConsoleLog ["Using redirect URI: " ++ redirectUri])) (fun _ =>
         let oAuth2Client := {| client_id := cred_client_id credData;
                                client_secret := cred_client_secret credData;
                                redirect_uri := Some redirectUri;
                                credentials := None |} in
         let authUrl :=
           generateAuthUrl oAuth2Client
                           {| access_type := "offline"; scope := SCOPES;
                              prompt := "consent";
                              opt_redirect_uri := redirectUri |} in
         sbind (act (ConsoleLog
                       [nl ++ "========== Google Calendar API Authentication =========="])) (fun _ =>
         sbind (act (ConsoleLog
                       ["1. You will be redirected to Google's authorization page."])) (fun _ =>
         sbind (act (ConsoleLog
                       ["2. Log in and grant the requested permissions."])) (fun _ =>
         sbind (act (ConsoleLog
                       ["3. After authorizing, you'll be redirected to a page that may show an error."])) (fun _ =>
         sbind (act (ConsoleLog
                       ["4. Copy the authorization code from the URL in your browser's address bar."])) (fun _ =>
         sbind (act (ConsoleLog
                       ["   (The code appears after " ++ dquote ++ "code="
                        ++ dquote ++ " in the URL)"])) (fun _ =>
         sbind (act (ConsoleLog
                       ["5. Return to this terminal and paste the code when prompted."])) (fun _ =>
         sbind (act (ConsoleLog
                       ["=======================================================" ++ nl])) (fun _ =>
         sbind (act (ConsoleLog ["Opening browser for authentication..."])) (fun _ =>
         sbind (awaited (Open authUrl) (rejecting (open env authUrl))) (fun _ =>
         sbind (act (Question
                       (nl ++ "Enter the authorization code from the URL: "))) (fun _ =>
         let authCode := answer env in
         if (authCode =? "") || (trim authCode =? "") then
           sbind (act (ConsoleError ["Error: No authorization code provided."])) (fun _ =>
           sbind (act RlClose) (fun _ =>
           exit 1))
         else
           sbind (act (ConsoleLog
                         [nl ++ "Exchanging authorization code for tokens..."])) (fun _ =>
           sbind (stry
                    (sbind (awaited (GetToken oAuth2Client (trim authCode))
                                    (getToken env oAuth2Client (trim authCode)))
                           (fun tokens =>
                     sbind (awaited (WriteFile tokenPath tokens)
                                    (rejecting (writeFile env tokenPath tokens)))
                           (fun _ =>
                     sbind (act (ConsoleLog
                                   [nl ++ "Token saved to " ++ tokenPath])) (fun _ =>
                     act (ConsoleLog
                            ["Setup complete! You can now use the Google Meet MCP server."])))))
                    (fun error =>
                       sbind (act (ConsoleError
                                     [nl ++ "Error getting tokens:";
                                      rej_message error])) (fun _ =>
                       sbind (match rej_response_data error with
                              | Some data =>
                                  act (ConsoleError ["Error details:"; data])
                              | None => sret tt
                              end) (fun _ =>
                       sbind (act RlClose) (fun _ =>
                       exit 1))))) (fun _ =>
           act RlClose)))))))))))))))
     end)))))
    (fun error =>
       (* the error object is printed; its message stands for it *)
       sbind (act (ConsoleError [nl ++ "Error during setup:";
                                 rej_message error])) (fun _ =>
       sbind (act RlClose) (fun _ =>
       exit 1))).

End Main.

End Setup.

(** ** Running a program against an environment *)

Section Run.

(** The outside world: any state, answering each command. *)
Variable World : Type.
Variable respond : forall c : Cmd, World -> Reply c * World.

(** The calls made, in order, the result and the world left behind. *)
Fixpoint run {A : Type} (p : IO A) (w : World) : list Entry * A * World :=
  match p with
  | Ret a => ([], a, w)
  | Do c k =>
      let (r, w1) := respond c w in
      let '(log, a, w2) := run (k r) w1 in
      (entry c r :: log, a, w2)
  end.

Definition exec {A : Type} (m : M A) (this : GoogleMeetAPI) (w : World)
  : list Entry * (Completion A * GoogleMeetAPI) * World :=
  run (m this) w.

End Run.

(** ** A simulated environment, to run the gateway on concrete calls *)

Module Sim.

Record World := {
  now : Z;                                   (* the clock *)
  iso : string;
  credentials_file : Fallible CredentialsFile;
  token_file : Fallible Token;
  token_endpoint : Fallible RefreshAnswer;   (* what a refresh answers *)
  events : list Event;                       (* the primary calendar *)
  conference : option ConferenceData         (* attached to inserted events *)
}.

Definition write_token (w : World) (t : Token) : World :=
  {| now := now w; iso := iso w; credentials_file := credentials_file w;
     token_file := inr t; token_endpoint := token_endpoint w;
     events := events w; conference := conference w |}.

Definition set_events (w : World) (l : list Event) : World :=
  {| now := now w; iso := iso w; credentials_file := credentials_file w;
     token_file := token_file w; token_endpoint := token_endpoint w;
     events := l; conference := conference w |}.

Definition has_id (i : string) (e : Event) : bool :=
  match ev_id e with
  | Some j => j =? i
  | None => false
  end.

Definition with_conference (e : Event) (c : option ConferenceData) : Event :=
  {| ev_id := Some "new"; ev_summary := ev_summary e;
     ev_description := ev_description e; ev_start := ev_start e;
     ev_end := ev_end e; ev_attendees := ev_attendees e;
     ev_conferenceData := c;
     ev_creator := ev_creator e; ev_organizer := ev_organizer e;
     ev_created := ev_created e; ev_updated := ev_updated e;
     ev_rest := ev_rest e |}.

Definition respond (c : Cmd) (w : World) : Reply c * World :=
  match c return Reply c * World with
  | DateNow => (now w, w)
  | DateToISOString => (iso w, w)
  | ReadCredentials _ => (credentials_file w, w)
  | ReadToken _ => (token_file w, w)
  | RefreshToken _ _ => (token_endpoint w, w)
  | WriteToken _ t => (inr tt, write_token w t)
  | EventsList _ _ => (inr (Some (events w)), w)
  | EventsGet _ i _ =>
      match find (has_id i) (events w) with
      | Some e => (inr e, w)
      | None => (inl "Not Found", w)
      end
  | EventsInsert _ e =>
      let e' := with_conference e (conference w) in
      (inr e', set_events w (events w ++ [e'])%list)
  | EventsUpdate _ i e =>
      match find (has_id i) (events w) with
      | Some _ =>
          (inr e, set_events w (map (fun x => if has_id i x then e else x)
                                    (events w)))
      | None => (inl "Not Found", w)
      end
  | EventsDelete _ i =>
      match find (has_id i) (events w) with
      | Some _ =>
          (inr tt, set_events w (filter (fun x => negb (has_id i x)) (events w)))
      | None => (inl "Not Found", w)
      end
  end.

(** A credentials file of the [installed] shape. *)
Definition creds : CredentialsFile :=
  {| web := None;
     installed := Some {| cred_client_id := Some "client";
                          cred_client_secret := Some "secret";
                          cred_redirect_uris := Some ["http://localhost"] |} |}.

Definition token (expiry : option Z) : Token :=
  {| access_token := Some "access"; refresh_token := Some "refresh";
     expiry_date := expiry |}.

Definition fresh_token : Token :=
  {| access_token := Some "access2"; refresh_token := Some "refresh";
     expiry_date := Some 9000%Z |}.

(** What the client's [refreshToken] answers: the tokens, under [tokens]. *)
Definition refresh_answer : RefreshAnswer :=
  {| ans_credentials := None; ans_tokens := Some fresh_token |}.

Definition video (u : option string) : EntryPoint :=
  {| ep_entryPointType := Some "video"; ep_uri := u |}.

Definition phone : EntryPoint :=
  {| ep_entryPointType := Some "phone"; ep_uri := Some "tel:+1-555" |}.

Definition conf (eps : list EntryPoint) : option ConferenceData :=
  Some {| cd_entryPoints := Some eps; cd_createRequest := None |}.

(** An event of the calendar. *)
Definition event (i : string) (d : option string) (c : option ConferenceData)
  : Event :=
  {| ev_id := Some i; ev_summary := Some "Standup"; ev_description := d;
     ev_start := Some {| dt_dateTime := Some "2025-01-10T09:00:00Z";
                         dt_date := None; dt_timeZone := Some "UTC" |};
     ev_end := Some {| dt_dateTime := Some "2025-01-10T09:30:00Z";
                       dt_date := None; dt_timeZone := Some "UTC" |};
     ev_attendees := Some [ {| at_email := Some "a@x.com";
                               at_responseStatus := Some "accepted" |};
                            {| at_email := Some "b@x.com";
                               at_responseStatus := None |} ];
     ev_conferenceData := c;
     ev_creator := Some {| p_email := Some "a@x.com" |};
     ev_organizer := None;
     ev_created := Some "2025-01-01T00:00:00Z";
     ev_updated := Some "2025-01-02T00:00:00Z";
     ev_rest := [("location", "Room 1")] |}.

Definition meet : option ConferenceData :=
  conf [phone; video (Some "https://meet.google.com/abc")].

Definition evt1 : Event := event "evt1" (Some "daily") meet.
Definition evt2 : Event := event "evt2" None (conf [phone]).
Definition evt3 : Event := event "evt3" None None.
Definition evt4 : Event := event "evt4" None (conf [video None]).

(** A world with credentials and a token file; the clock reads [t]. *)
Definition world (t : Z) (tok : Fallible Token) : World :=
  {| now := t; iso := "2025-01-01T00:00:00.000Z";
     credentials_file := inr creds;
     token_file := tok;
     token_endpoint := inr refresh_answer;
     events := [evt1; evt2; evt3; evt4];
     conference := meet |}.

Definition api : GoogleMeetAPI := constructor "credentials.json" "token.json".

Definition client : OAuth2Client :=
  {| client_id := Some "client"; client_secret := Some "secret";
     redirect_uri := Some "http://localhost";
     credentials := Some (token (Some 100%Z)) |}.

(** The gateway after a successful initialization. *)
Definition ready : GoogleMeetAPI :=
  {| credentialsPath := "credentials.json"; tokenPath := "token.json";
     calendar := Some {| version := "v3"; auth := client |} |}.

Definition call (name : string) (args : Args) : Request :=
  {| params_name := name; params_arguments := Some args |}.

Definition with_id (i : string) : Args :=
  {| a_max_results := None; a_time_min := None; a_time_max := None;
     a_meeting_id := Some i; a_summary := None; a_description := None;
     a_start_time := None; a_end_time := None; a_attendees := None;
     a_time_zone := None |}.

(** [update_meeting("evt1", { description: "" })] *)
Definition clear_description : Args :=
  {| a_max_results := None; a_time_min := None; a_time_max := None;
     a_meeting_id := Some "evt1"; a_summary := None; a_description := Some "";
     a_start_time := None; a_end_time := None; a_attendees := None;
     a_time_zone := None |}.

(** [update_meeting("evt1", { description: "", attendees: ["c@x.com"] })] *)
Definition clear_and_invite : Args :=
  {| a_max_results := None; a_time_min := None; a_time_max := None;
     a_meeting_id := Some "evt1"; a_summary := None; a_description := Some "";
     a_start_time := None; a_end_time := None;
     a_attendees := Some ["c@x.com"]; a_time_zone := None |}.

(** [create_meeting] with an empty [summary]. *)
Definition empty_summary : Args :=
  {| a_max_results := None; a_time_min := None; a_time_max := None;
     a_meeting_id := None; a_summary := Some "";
     a_description := None;
     a_start_time := Some "2025-01-10T09:00:00Z";
     a_end_time := Some "2025-01-10T09:30:00Z";
     a_attendees := Some ["a@x.com"; "b@x.com"]; a_time_zone := None |}.

(** [create_meeting("Standup", ...)] with two attendees. *)
Definition standup : Args :=
  {| a_max_results := None; a_time_min := None; a_time_max := None;
     a_meeting_id := None; a_summary := Some "Standup";
     a_description := None;
     a_start_time := Some "2025-01-10T09:00:00Z";
     a_end_time := Some "2025-01-10T09:30:00Z";
     a_attendees := Some ["a@x.com"; "b@x.com"]; a_time_zone := None |}.

(** A world whose provider attaches no "video" entry point on insert. *)
Definition world_without_video (t : Z) (tok : Fallible Token) : World :=
  {| now := t; iso := "2025-01-01T00:00:00.000Z";
     credentials_file := inr creds;
     token_file := tok;
     token_endpoint := inr refresh_answer;
     events := [evt1];
     conference := conf [phone] |}.

(** One call of the gateway, and the parts of its outcome. *)
Definition run (this : GoogleMeetAPI) (w : World) (request : Request)
  : list Entry * (Completion Envelope * GoogleMeetAPI) * World :=
  exec respond (handleCallTool request) this w.

Definition log_of {A W : Type}
  (x : list Entry * (Completion A * GoogleMeetAPI) * W) : list Entry :=
  fst (fst x).

Definition result_of {A W : Type}
  (x : list Entry * (Completion A * GoogleMeetAPI) * W) : Completion A :=
  fst (snd (fst x)).

Definition api_of {A W : Type}
  (x : list Entry * (Completion A * GoogleMeetAPI) * W) : GoogleMeetAPI :=
  snd (snd (fst x)).

Definition world_of {A W : Type}
  (x : list Entry * (Completion A * GoogleMeetAPI) * W) : W :=
  snd x.

(** The context held by [ready]. *)
Definition ready_calendar : Calendar := {| version := "v3"; auth := client |}.

(** The token file holds a token expiring at 100. *)
Definition stored_token : Token := token (Some 100%Z).

(** Worlds: the clock before and after the token's expiry; a token file
    with expiry 0; no token file; a provider without video conferences. *)
Definition w_valid : World := world 50 (inr stored_token).

Definition w_expired : World := world 500 (inr stored_token).

Definition w_zero : World := world 500 (inr (token (Some 0%Z))).

Definition w_no_token : World :=
  world 500 (inl "ENOENT: no such file or directory, open 'token.json'").

Definition w_no_video : World := world_without_video 50 (inr stored_token).

(** The parameters of a listing with default arguments. *)
Definition list_params : ListParams :=
  {| lp_calendarId := "primary"; lp_maxResults := 10;
     lp_timeMin := "2025-01-01T00:00:00.000Z"; lp_orderBy := "startTime";
     lp_singleEvents := true; lp_conferenceDataVersion := 1;
     lp_timeMax := None |}.

(** Calls on the initialized gateway. *)
Definition listing := run ready w_valid (call "list_meetings" no_args).

Definition lookup_phone_only :=
  run ready w_valid (call "get_meeting" (with_id "evt2")).

Definition clearing := run ready w_valid (call "update_meeting" clear_description).

Definition inviting := run ready w_valid (call "update_meeting" clear_and_invite).

Definition creating_without_video :=
  run ready w_no_video (call "create_meeting" standup).


Definition update_nothing :=
  run ready w_valid (call "update_meeting" (with_id "evt1")).

Definition create_empty := run ready w_valid (call "create_meeting" empty_summary).


(** First calls, on the gateway as constructed. *)
Definition first_call_expired :=
  run api w_expired (call "get_meeting" (with_id "evt1")).

Definition first_call_zero :=
  run api w_zero (call "get_meeting" (with_id "evt1")).


Definition update_nothing_no_token :=
  run api w_no_token (call "update_meeting" (with_id "evt1")).

Definition create_empty_no_token :=
  run api w_no_token (call "create_meeting" empty_summary).

End Sim.

(** ** Vocabulary of the properties *)

(** The entry points of an event's conferencing data; none when the event
    carries no conferencing data. *)
Definition entry_points (event : Event) : list EntryPoint :=
  match ev_conferenceData event with
  | Some conferenceData => or_nil (cd_entryPoints conferenceData)
  | None => []
  end.

(** The conferencing data contains an entry point of type "video". *)
Definition has_video_entry_point (event : Event) : bool :=
  existsb is_video (entry_points event).

(** Map each event through the Meeting Mapper and drop the nulls, in the
    provider's order. *)
Definition mapped_meetings (events : list Event) : list Meeting :=
  flat_map (fun event => match _formatMeetingData event with
                         | Some meeting => [meeting]
                         | None => []
                         end) events.

(** [sub] occurs in [s]. *)
Definition contains (sub s : string) : Prop :=
  exists pre post, s = pre ++ sub ++ post.

(** Kinds of recorded calls. *)
Definition is_disk_read (e : Entry) : bool :=
  match e with
  | E_ReadCredentials _ _ | E_ReadToken _ _ => true
  | _ => false
  end.

Definition is_refresh (e : Entry) : bool :=
  match e with
  | E_RefreshToken _ _ _ => true
  | _ => false
  end.

Definition is_token_write (e : Entry) : bool :=
  match e with
  | E_WriteToken _ _ _ => true
  | _ => false
  end.

(** Calls of the session manager: disk reads, refresh, token write. *)
Definition is_session (e : Entry) : bool :=
  is_disk_read e || is_refresh e || is_token_write e.

(** Calls to the calendar provider, with the context they were issued on. *)
Definition provider_context (e : Entry) : option Calendar :=
  match e with
  | E_EventsList cal _ _ | E_EventsGet cal _ _ _ | E_EventsInsert cal _ _
  | E_EventsUpdate cal _ _ _ | E_EventsDelete cal _ _ => Some cal
  | _ => None
  end.

Definition is_provider (e : Entry) : bool :=
  match provider_context e with
  | Some _ => true
  | None => false
  end.

(** The awaited call was rejected. *)
Definition rejected {A : Type} (r : Fallible A) : bool :=
  match r with
  | inl _ => true
  | inr _ => false
  end.

Definition is_failure (e : Entry) : bool :=
  match e with
  | E_DateNow _ | E_DateToISOString _ => false
  | E_ReadCredentials _ r => rejected r
  | E_ReadToken _ r => rejected r
  | E_RefreshToken _ _ r => rejected r
  | E_WriteToken _ _ r => rejected r
  | E_EventsList _ _ r => rejected r
  | E_EventsGet _ _ _ r => rejected r
  | E_EventsInsert _ _ r => rejected r
  | E_EventsUpdate _ _ _ r => rejected r
  | E_EventsDelete _ _ r => rejected r
  end.

(** How many calls of a kind a log holds. *)
Definition count (kind : Entry -> bool) (log : list Entry) : nat :=
  length (filter kind log).

(** The protocol errors of a request, by the tool table: an unknown tool
    name, or a missing required argument. *)
Definition provided {A : Type} (o : option A) : bool :=
  match o with
  | Some _ => true
  | None => false
  end.

Definition protocol_error (request : Request) : option ErrorCode :=
  let name := params_name request in
  let args := default_to no_args (params_arguments request) in
  if name =? "list_meetings" then None
  else if name =? "get_meeting" then
    if truthy (a_meeting_id args) then None else Some InvalidParams
  else if name =? "create_meeting" then
    if truthy (a_summary args) && truthy (a_start_time args)
       && truthy (a_end_time args)
    then None else Some InvalidParams
  else if name =? "update_meeting" then
    if truthy (a_meeting_id args)
       && (provided (a_summary args) || provided (a_description args)
           || provided (a_start_time args) || provided (a_end_time args)
           || provided (a_attendees args))
    then None else Some InvalidParams
  else if name =? "delete_meeting" then
    if truthy (a_meeting_id args) then None else Some InvalidParams
  else Some MethodNotFound.

(** The required arguments of [create_meeting] that are missing or empty,
    in the order of the tool table. *)
Definition missing_required (args : Args) : list string :=
  ((if truthy (a_summary args) then [] else ["summary"])
   ++ (if truthy (a_start_time args) then [] else ["start_time"])
   ++ (if truthy (a_end_time args) then [] else ["end_time"]))%list.

(** An error-flagged envelope carrying a message. *)
Definition flagged (msg : string) : Envelope :=
  {| text := Str msg; isError := true |}.

(** What a field of the written-back event must be: the provided value, or
    the fetched one when the argument was omitted. *)
Definition replaced_by {A : Type} (arg : option A) (fetched : option A)
  : option A :=
  match arg with
  | Some v => Some v
  | None => fetched
  end.

(** The text of the envelope when the token cannot be loaded, refreshed or
    persisted. *)
Definition initialization_refused : string :=
  "Error initializing Google Meet API: " ++ No_valid_credentials.

(** The calls of an initialization up to the refresh. *)
Definition refreshing (this : GoogleMeetAPI) (creds : CredentialsFile)
  (token : Token) (now : Z) (client : OAuth2Client)
  (reply : Fallible RefreshAnswer) : list Entry :=
  [E_ReadCredentials (credentialsPath this) (inr creds);
   E_ReadToken (tokenPath this) (inr token);
   E_DateNow now;
   E_RefreshToken client (refresh_token token) reply].

(** The expiry timestamp lies in the past of the clock reading [now]. *)
Definition expiry_in_the_past (token : Token) (now : Z) : Prop :=
  exists expiry, expiry_date token = Some expiry /\ (expiry < now)%Z.

(** The arguments with an empty [summary], [start_time] or [end_time]
    omitted. *)
Definition omit_empty (s : option string) : option string :=
  match s with
  | Some s => if s =? "" then None else Some s
  | None => None
  end.

Definition omit_empty_required (args : Args) : Args :=
  {| a_max_results := a_max_results args; a_time_min := a_time_min args;
     a_time_max := a_time_max args; a_meeting_id := a_meeting_id args;
     a_summary := omit_empty (a_summary args);
     a_description := a_description args;
     a_start_time := omit_empty (a_start_time args);
     a_end_time := omit_empty (a_end_time args);
     a_attendees := a_attendees args; a_time_zone := a_time_zone args |}.

(** ** Vocabulary of the further properties *)

(** The provider operations a tool may issue: the fetch of [get_meeting]
    asks for conference data (version 1), the fetch of [update_meeting]
    does not. *)
Definition tool_operation (name : string) (e : Entry) : bool :=
  match e with
  | E_EventsList _ _ _ => name =? "list_meetings"
  | E_EventsGet _ _ (Some _) _ => name =? "get_meeting"
  | E_EventsGet _ _ None _ => name =? "update_meeting"
  | E_EventsInsert _ _ _ => name =? "create_meeting"
  | E_EventsUpdate _ _ _ _ => name =? "update_meeting"
  | E_EventsDelete _ _ _ => name =? "delete_meeting"
  | _ => true
  end.

Definition rejected_with {A : Type} (r : Fallible A) : option string :=
  match r with
  | inl msg => Some msg
  | inr _ => None
  end.

(** The message an awaited call was rejected with. *)
Definition rejection (e : Entry) : option string :=
  match e with
  | E_DateNow _ | E_DateToISOString _ => None
  | E_ReadCredentials _ r => rejected_with r
  | E_ReadToken _ r => rejected_with r
  | E_RefreshToken _ _ r => rejected_with r
  | E_WriteToken _ _ r => rejected_with r
  | E_EventsList _ _ r => rejected_with r
  | E_EventsGet _ _ _ r => rejected_with r
  | E_EventsInsert _ _ r => rejected_with r
  | E_EventsUpdate _ _ _ r => rejected_with r
  | E_EventsDelete _ _ r => rejected_with r
  end.

(** What each client method puts before the message of a failure. *)
Definition operation_prefix (e : Entry) : string :=
  match e with
  | E_EventsList _ _ _ => "Error listing meetings: "
  | E_EventsGet _ _ (Some _) _ => "Error getting meeting: "
  | E_EventsGet _ _ None _ => "Error updating meeting: "
  | E_EventsInsert _ _ _ => "Error creating meeting: "
  | E_EventsUpdate _ _ _ _ => "Error updating meeting: "
  | E_EventsDelete _ _ _ => "Error deleting meeting: "
  | _ => ""
  end.

(** What [initialize] reports for a rejected call: the message itself for
    the credentials file, the fixed text for the token file, the refresh
    and the token write. *)
Definition initialization_message (e : Entry) (msg : string) : string :=
  match e with
  | E_ReadCredentials _ _ => msg
  | _ => No_valid_credentials
  end.

Definition Invalid_credentials_format : string :=
  "Invalid credentials file format. Must contain " ++ dquote ++ "web"
  ++ dquote ++ " or " ++ dquote ++ "installed" ++ dquote ++ " property.".

(** The event a provider call returned for mapping: by the fetch of
    [get_meeting], by insert, by update. *)
Definition returned_event (e : Entry) : option Event :=
  match e with
  | E_EventsGet _ _ (Some _) (inr event) => Some event
  | E_EventsInsert _ _ (inr event) => Some event
  | E_EventsUpdate _ _ _ (inr event) => Some event
  | _ => None
  end.

(** The event id a provider call addresses. *)
Definition addressed_event (e : Entry) : option string :=
  match e with
  | E_EventsGet _ i _ _ | E_EventsUpdate _ i _ _ | E_EventsDelete _ i _ =>
      Some i
  | _ => None
  end.

(** The file a call of the session manager reads or writes. *)
Definition accessed_file (e : Entry) : option string :=
  match e with
  | E_ReadCredentials path _ | E_ReadToken path _ | E_WriteToken path _ _ =>
      Some path
  | _ => None
  end.

Definition is_credentials_read (e : Entry) : bool :=
  match e with
  | E_ReadCredentials _ _ => true
  | _ => false
  end.

Definition is_update (e : Entry) : bool :=
  match e with
  | E_EventsUpdate _ _ _ _ => true
  | _ => false
  end.

(** The tool declared under a name. *)
Definition tool_named (name : string) : option Tool :=
  find (fun tool => name =? tool_name tool) handleListTools.

(** The string-typed argument declared under a key. *)
Definition string_argument (key : string) (args : Args) : option string :=
  if key =? "time_min" then a_time_min args
  else if key =? "time_max" then a_time_max args
  else if key =? "meeting_id" then a_meeting_id args
  else if key =? "summary" then a_summary args
  else if key =? "description" then a_description args
  else if key =? "start_time" then a_start_time args
  else if key =? "end_time" then a_end_time args
  else if key =? "time_zone" then a_time_zone args
  else None.

(** No updatable field is provided. *)
Definition no_update_field (args : Args) : bool :=
  negb (provided (a_summary args) || provided (a_description args)
        || provided (a_start_time args) || provided (a_end_time args)
        || provided (a_attendees args)).

(** The event [create_meeting] sends to insert, at clock reading [now]. *)
Definition created_resource (args : Args) (now : Z) : Event :=
  {| ev_id := None;
     ev_summary := a_summary args;
     ev_description := Some (default_to "" (a_description args));
     ev_start := Some {| dt_dateTime := a_start_time args; dt_date := None;
                         dt_timeZone := Some (default_to "UTC" (a_time_zone args)) |};
     ev_end := Some {| dt_dateTime := a_end_time args; dt_date := None;
                       dt_timeZone := Some (default_to "UTC" (a_time_zone args)) |};
     ev_attendees :=
       Some (map (fun email => {| at_email := Some email;
                                  at_responseStatus := None |})
                 (default_to [] (a_attendees args)));
     ev_conferenceData :=
       Some {| cd_entryPoints := None;
               cd_createRequest := Some ("meet-" ++ string_of_number now) |};
     ev_creator := None; ev_organizer := None; ev_created := None;
     ev_updated := None; ev_rest := [] |}.

(** The two paths the setup script works on: the environment variable, or
    the default in the working directory. *)
Definition setup_credentials_path (path_join : string -> string -> string)
  (env : Setup.Env) : string :=
  or_empty (or_str (Setup.GOOGLE_MEET_CREDENTIALS_PATH env)
                   (Some (path_join (Setup.cwd env) "credentials.json"))).

Definition setup_token_path (path_join : string -> string -> string)
  (env : Setup.Env) : string :=
  or_empty (or_str (Setup.GOOGLE_MEET_TOKEN_PATH env)
                   (Some (path_join (Setup.cwd env) "token.json"))).

(** Kinds of actions of the setup script. *)
Definition is_write_file (a : Setup.Action) : bool :=
  match a with
  | Setup.WriteFile _ _ => true
  | _ => false
  end.

(** Everything the script does after checking that the credentials file
    is there. *)
Definition after_access (a : Setup.Action) : bool :=
  match a with
  | Setup.ReadFile _ | Setup.Open _ | Setup.Question _ | Setup.GetToken _ _
  | Setup.WriteFile _ _ => true
  | _ => false
  end.

(** Further calls and environments to run the code on. *)
Module Scenario.

(** A calendar whose single event is an all-day event without [start]
    object. *)
Definition bare_event : Event :=
  {| ev_id := Some "bare"; ev_summary := None; ev_description := None;
     ev_start := None; ev_end := None; ev_attendees := None;
     ev_conferenceData := Sim.meet; ev_creator := None; ev_organizer := None;
     ev_created := None; ev_updated := None; ev_rest := [] |}.

Definition w_bare : Sim.World :=
  Sim.set_events Sim.w_valid [bare_event].

(** [update_meeting("bare", { start_time })] *)
Definition move_bare : Args :=
  {| a_max_results := None; a_time_min := None; a_time_max := None;
     a_meeting_id := Some "bare"; a_summary := None; a_description := None;
     a_start_time := Some "2025-02-01T10:00:00Z"; a_end_time := None;
     a_attendees := None; a_time_zone := None |}.

(** [list_meetings({ max_results: 0, time_min: "", time_max: "2026" })] *)
Definition list_args : Args :=
  {| a_max_results := Some 0%Z; a_time_min := Some "";
     a_time_max := Some "2026-01-01T00:00:00Z";
     a_meeting_id := None; a_summary := None; a_description := None;
     a_start_time := None; a_end_time := None; a_attendees := None;
     a_time_zone := None |}.

Definition listing_with_args :=
  Sim.run Sim.ready Sim.w_valid (Sim.call "list_meetings" list_args).

(** The query that call sends. *)
Definition list_query : ListParams :=
  {| lp_calendarId := "primary"; lp_maxResults := 10;
     lp_timeMin := Sim.iso Sim.w_valid; lp_orderBy := "startTime";
     lp_singleEvents := true; lp_conferenceDataVersion := 1;
     lp_timeMax := Some "2026-01-01T00:00:00Z" |}.

Definition creating := Sim.run Sim.ready Sim.w_valid (Sim.call "create_meeting" Sim.standup).

Definition lookup := Sim.run Sim.ready Sim.w_valid (Sim.call "get_meeting" (Sim.with_id "evt1")).

Definition lookup_missing :=
  Sim.run Sim.ready Sim.w_valid (Sim.call "get_meeting" (Sim.with_id "nope")).

Definition lookup_without_id :=
  Sim.run Sim.ready Sim.w_valid (Sim.call "get_meeting" no_args).

Definition deleting :=
  Sim.run Sim.ready Sim.w_valid (Sim.call "delete_meeting" (Sim.with_id "evt3")).

Definition moving_bare :=
  Sim.run Sim.ready w_bare (Sim.call "update_meeting" move_bare).

Definition first_call := Sim.run Sim.api Sim.w_valid (Sim.call "get_meeting" (Sim.with_id "evt1")).

Definition failed_call :=
  Sim.run Sim.api Sim.w_no_token (Sim.call "get_meeting" (Sim.with_id "evt1")).

(** The call made after [failed_call], once the token file is there. *)
Definition retried_call :=
  Sim.run (Sim.api_of failed_call) Sim.w_valid
          (Sim.call "get_meeting" (Sim.with_id "evt1")).

(** The setup script: library functions and environments. *)
Definition path_join (a b : string) : string := a ++ "/" ++ b.

Definition generateAuthUrl (client : OAuth2Client)
  (options : Setup.AuthUrlOptions) : string :=
  "https://accounts.google.com/o/oauth2/v2/auth?redirect_uri="
  ++ Setup.opt_redirect_uri options.

(** A [trim] for codes typed with spaces in front. *)
Fixpoint trim (s : string) : string :=
  match s with
  | String " " rest => trim rest
  | other => other
  end.

Definition env (credentials_variable : option string)
  (have_credentials : bool) (typed : string) : Setup.Env :=
  {| Setup.GOOGLE_MEET_CREDENTIALS_PATH := credentials_variable;
     Setup.GOOGLE_MEET_TOKEN_PATH := Some "/data/token.json";
     Setup.cwd := "/app";
     Setup.access := fun _ => if have_credentials then inr tt
                              else inl "ENOENT";
     Setup.readFile := fun _ => inr Sim.creds;
     Setup.open := fun _ => inr tt;
     Setup.answer := typed;
     Setup.getToken := fun _ code =>
       if code =? "4/code" then inr Sim.stored_token
       else inl {| Setup.rej_message := "invalid_grant";
                   Setup.rej_response_data := Some "Bad Request" |};
     Setup.writeFile := fun _ _ => inr tt |}.

(** The script run without the credentials variable. *)
Definition setup (have_credentials : bool) (typed : string) :=
  Setup.main path_join generateAuthUrl trim (env None have_credentials typed).

(** The script and the server started in the same environment; the first
    call the server gets. *)
Definition configured : Setup.Env :=
  env (Some "/data/credentials.json") true "  4/code".

Definition configured_setup :=
  Setup.main path_join generateAuthUrl trim configured.

Definition configured_server : GoogleMeetAPI :=
  constructor "/data/credentials.json" "/data/token.json".

Definition configured_call :=
  Sim.run configured_server Sim.w_valid (Sim.call "list_meetings" no_args).

End Scenario.

(** ** Reasoning about runs *)

Section Logic.

Variable World : Type.
Variable respond : forall c : Cmd, World -> Reply c * World.

(** [post m this w Q]: the run of [m] from [this] and [w] satisfies [Q]. *)
Definition post {A : Type} (m : M A) (this : GoogleMeetAPI) (w : World)
  (Q : list Entry -> Completion A -> GoogleMeetAPI -> World -> Prop) : Prop :=
  match exec respond m this w with
  | (log, (r, this'), w') => Q log r this' w'
  end.

Lemma run_io_bind {A B : Type} (p : IO A) (f : A -> IO B) (w : World) :
  run respond (io_bind p f) w =
  match run respond p w with
  | (l1, a, w1) =>
      match run respond (f a) w1 with
      | (l2, b, w2) => ((l1 ++ l2)%list, b, w2)
      end
  end.
Proof.
  revert w; induction p as [a | c k IH]; intros w; simpl.
  - destruct (run respond (f a) w) as [[l2 b] w2]; reflexivity.
  - destruct (respond c w) as [r w1].
    rewrite IH.
    destruct (run respond (k r) w1) as [[l1 a] w1'].
    destruct (run respond (f a) w1') as [[l2 b] w2]; reflexivity.
Qed.

Lemma post_conseq {A : Type} (m : M A) this w (Q1 Q2 : _ -> _ -> _ -> _ -> Prop) :
  post m this w Q1 ->
  (forall log r this' w', Q1 log r this' w' -> Q2 log r this' w') ->
  post m this w Q2.
Proof.
  unfold post; destruct (exec respond m this w) as [[log [r this']] w']; auto.
Qed.

Lemma post_ret {A : Type} (a : A) this w Q :
  Q [] (Normal a) this w -> post (ret a) this w Q.
Proof. auto. Qed.

Lemma post_throw {A : Type} (e : Exn) this w Q :
  Q [] (@Throw A e) this w -> post (throw e) this w Q.
Proof. auto. Qed.

Lemma post_get_this this w Q :
  Q [] (Normal this) this w -> post get_this this w Q.
Proof. auto. Qed.

Lemma post_set_calendar (cal : Calendar) this w Q :
  Q [] (Normal tt) {| credentialsPath := credentialsPath this;
                      tokenPath := tokenPath this;
                      calendar := Some cal |} w ->
  post (set_calendar cal) this w Q.
Proof. auto. Qed.

Lemma post_bind {A B : Type} (m : M A) (f : A -> M B) this w Q :
  post m this w (fun l1 r this1 w1 =>
    match r with
    | Normal a =>
        post (f a) this1 w1 (fun l2 r2 this2 w2 => Q (l1 ++ l2)%list r2 this2 w2)
    | Throw e => Q l1 (Throw e) this1 w1
    end) ->
  post (bind m f) this w Q.
Proof.
  unfold post, exec, bind; rewrite run_io_bind.
  destruct (run respond (m this) w) as [[l1 [[a | e] this1]] w1]; simpl.
  - destruct (run respond (f a this1) w1) as [[l2 [r2 this2]] w2]; auto.
  - rewrite app_nil_r; auto.
Qed.

Lemma post_try_catch {A : Type} (body : M A) (handler : Exn -> M A) this w Q :
  post body this w (fun l1 r this1 w1 =>
    match r with
    | Normal a => Q l1 (Normal a) this1 w1
    | Throw e =>
        post (handler e) this1 w1
             (fun l2 r2 this2 w2 => Q (l1 ++ l2)%list r2 this2 w2)
    end) ->
  post (try_catch body handler) this w Q.
Proof.
  unfold post, exec, try_catch; rewrite run_io_bind.
  destruct (run respond (body this) w) as [[l1 [[a | e] this1]] w1]; simpl.
  - rewrite app_nil_r; auto.
  - destruct (run respond (handler e this1) w1) as [[l2 [r2 this2]] w2]; auto.
Qed.

Lemma post_ask (c : Cmd) this w Q :
  (forall r w1, Q [entry c r] (Normal r) this w1) -> post (ask c) this w Q.
Proof.
  intros H; unfold post, exec, ask; simpl.
  destruct (respond c w) as [r w1]; apply H.
Qed.

Lemma post_await {A : Type} (c : Cmd) (cast : Reply c -> Fallible A) this w Q :
  (forall r w1,
      match cast r with
      | inl msg => Q [entry c r] (Throw (Error msg)) this w1
      | inr a => Q [entry c r] (Normal a) this w1
      end) ->
  post (await c cast) this w Q.
Proof.
  intros H; unfold post, exec, await; simpl.
  destruct (respond c w) as [r w1]; specialize (H r w1).
  destruct (cast r); exact H.
Qed.

End Logic.

(** ** The Meeting Mapper *)

Lemma truthy_true (s : option string) :
  truthy s = true <-> exists u, s = Some u /\ u <> "".
Proof.
  destruct s as [u |]; simpl.
  - rewrite negb_true_iff, String.eqb_neq.
    split; [intros H; exists u; auto | intros (v & [= <-] & H); exact H].
  - split; [discriminate | intros (v & [=] & _)].
Qed.

Lemma or_empty_default (s : option string) : or_empty s = default_to "" s.
Proof.
  destruct s as [u |]; [| reflexivity].
  unfold or_empty, or_str; simpl.
  destruct (String.eqb_spec u ""); subst; reflexivity.
Qed.

Lemma or_empty_truthy (s : option string) :
  truthy s = true -> s = Some (or_empty s).
Proof.
  intros H; apply truthy_true in H as (u & -> & _).
  now rewrite or_empty_default.
Qed.

Lemma meetLink_loop_first_video (entryPoints : list EntryPoint) :
  meetLink_loop entryPoints =
  opt_chain (find is_video entryPoints) ep_uri.
Proof.
  induction entryPoints as [| ep rest IH]; simpl; [reflexivity |].
  destruct (is_video ep); [reflexivity | exact IH].
Qed.

Lemma find_none_existsb {A : Type} (f : A -> bool) (l : list A) :
  find f l = None <-> existsb f l = false.
Proof.
  induction l as [| a l IH]; simpl; [tauto |].
  destruct (f a); simpl; [split; discriminate | exact IH].
Qed.

Lemma formatMeetingData_some (event : Event) (meeting : Meeting) :
  _formatMeetingData event = Some meeting ->
  exists conferenceData entryPoint uri,
    ev_conferenceData event = Some conferenceData
    /\ find is_video (entry_points event) = Some entryPoint
    /\ ep_uri entryPoint = Some uri /\ uri <> ""
    /\ meeting =
       {| id := ev_id event;
          summary := default_to "" (ev_summary event);
          description := default_to "" (ev_description event);
          meet_link := Some uri;
          start_time := or_str (opt_chain (ev_start event) dt_dateTime)
                               (opt_chain (ev_start event) dt_date);
          end_time := or_str (opt_chain (ev_end event) dt_dateTime)
                             (opt_chain (ev_end event) dt_date);
          attendees := map format_attendee (or_nil (ev_attendees event));
          creator := opt_chain (ev_creator event) p_email;
          organizer := opt_chain (ev_organizer event) p_email;
          created := ev_created event;
          updated := ev_updated event |}.
Proof.
  unfold _formatMeetingData, entry_points.
  destruct (ev_conferenceData event) as [cd |]; [| discriminate].
  rewrite meetLink_loop_first_video.
  destruct (find is_video (or_nil (cd_entryPoints cd))) as [ep |] eqn:Hfind;
    simpl; [| discriminate].
  destruct (truthy (ep_uri ep)) eqn:Huri; simpl; [| discriminate].
  apply truthy_true in Huri as (uri & Huri & Hne).
  intros [= <-]; exists cd, ep, uri.
  rewrite !or_empty_default, Huri; auto.
Qed.

Lemma formatMeetingData_none (event : Event) :
  _formatMeetingData event = None <->
  ev_conferenceData event = None
  \/ has_video_entry_point event = false
  \/ exists entryPoint,
       find is_video (entry_points event) = Some entryPoint
       /\ truthy (ep_uri entryPoint) = false.
Proof.
  unfold _formatMeetingData, has_video_entry_point, entry_points.
  destruct (ev_conferenceData event) as [cd |]; [| tauto].
  rewrite meetLink_loop_first_video, <- find_none_existsb.
  destruct (find is_video (or_nil (cd_entryPoints cd))) as [ep |]; simpl.
  - destruct (truthy (ep_uri ep)) eqn:Huri; simpl.
    + split; [discriminate |].
      intros [H | [H | (ep' & [= <-] & H)]]; congruence.
    + split; [| reflexivity].
      intros _; right; right; exists ep; auto.
  - split; auto.
Qed.

Lemma no_video_formats_to_null (event : Event) :
  ev_conferenceData event = None \/ has_video_entry_point event = false ->
  _formatMeetingData event = None.
Proof. intros H; apply formatMeetingData_none; tauto. Qed.

(** C1, as stated, fails: an event whose conferencing data holds a "video"
    entry point without a uri is mapped to null. *)
Lemma formatMeetingData_video_without_uri_is_null :
  ev_conferenceData Sim.evt4 <> None
  /\ has_video_entry_point Sim.evt4 = true
  /\ _formatMeetingData Sim.evt4 = None.
Proof. repeat split; discriminate. Qed.

(** C1 (amended): [_formatMeetingData] returns null exactly when the event
    has no conferencing data, or no entry point of type "video", or the
    first such entry point has a missing or empty uri; otherwise the
    meeting's [meet_link] is the uri of the first "video" entry point,
    [summary] and [description] default to the empty string, and the
    attendees are the provider's, one for one and in the same order. *)
Theorem formatMeetingData_characterised (event : Event) :
  (_formatMeetingData event = None <->
   ev_conferenceData event = None
   \/ has_video_entry_point event = false
   \/ exists entryPoint,
        find is_video (entry_points event) = Some entryPoint
        /\ truthy (ep_uri entryPoint) = false)
  /\ (forall meeting, _formatMeetingData event = Some meeting ->
      (exists entryPoint uri,
          find is_video (entry_points event) = Some entryPoint
          /\ In entryPoint (entry_points event)
          /\ ep_entryPointType entryPoint = Some "video"
          /\ ep_uri entryPoint = Some uri /\ uri <> ""
          /\ meet_link meeting = Some uri)
      /\ (ev_summary event = None -> summary meeting = "")
      /\ (forall s, ev_summary event = Some s -> summary meeting = s)
      /\ (ev_description event = None -> description meeting = "")
      /\ (forall s, ev_description event = Some s -> description meeting = s)
      /\ length (attendees meeting) = length (or_nil (ev_attendees event))
      /\ (forall i attendee,
             nth_error (or_nil (ev_attendees event)) i = Some attendee ->
             nth_error (attendees meeting) i =
             Some {| email := at_email attendee;
                     response_status := at_responseStatus attendee |})).
Proof.
  split; [apply formatMeetingData_none |].
  intros meeting H.
  apply formatMeetingData_some in H
    as (cd & ep & uri & Hcd & Hfind & Huri & Hne & ->); simpl.
  split.
  - exists ep, uri.
    destruct (find_some _ _ Hfind) as [Hin Hvid].
    repeat split; auto.
    unfold is_video in Hvid.
    destruct (ep_entryPointType ep) as [t |]; [| discriminate].
    apply String.eqb_eq in Hvid; now subst.
  - repeat split.
    + now intros ->.
    + now intros s ->.
    + now intros ->.
    + now intros s ->.
    + apply length_map.
    + intros i attendee Hi.
      now rewrite nth_error_map, Hi.
Qed.

(** C1, on an event of the calendar with a phone and a video entry point. *)
Lemma formatMeetingData_characterised_evt1 :
  exists meeting,
    _formatMeetingData Sim.evt1 = Some meeting
    /\ meet_link meeting = Some "https://meet.google.com/abc"
    /\ summary meeting = "Standup"
    /\ length (attendees meeting) = 2.
Proof.
  destruct (formatMeetingData_characterised Sim.evt1) as [_ H].
  eexists; split; [reflexivity |].
  destruct (H _ eq_refl)
    as ((ep & uri & Hf & _ & _ & Hu & _ & Hl) & _ & Hs & _ & _ & Hlen & _).
  injection Hf as Hf; subst ep; injection Hu as Hu; subst uri.
  split; [exact Hl | split; [apply Hs; reflexivity | exact Hlen]].
Defined.

(** ** Symbolic execution of the gateway's methods *)

(** One step of a run: the rule of the program's head construct; a branch
    on data splits the goal. *)
Ltac wp_step :=
  lazymatch goal with
  | |- @post _ _ _ (bind _ _) _ _ _ => apply post_bind
  | |- @post _ _ _ (try_catch _ _) _ _ _ => apply post_try_catch
  | |- @post _ _ _ (ret _) _ _ _ => apply post_ret
  | |- @post _ _ _ (throw _) _ _ _ => apply post_throw
  | |- @post _ _ _ get_this _ _ _ => apply post_get_this
  | |- @post _ _ _ (set_calendar _) _ _ _ => apply post_set_calendar
  | |- @post _ _ _ (ask _) _ _ _ => apply post_ask; intros ? ?
  | |- @post _ _ _ (await _ _) _ _ _ =>
      apply post_await; intros [? | ?] ?
  | |- @post _ _ _ (match ?x with _ => _ end) _ _ _ => destruct x eqn:?
  | |- @post _ _ _ (lift ?c) _ _ _ => destruct c eqn:?; unfold lift
  | |- @post _ _ _ this_calendar _ _ _ => unfold this_calendar
  end; cbv beta iota; cbn [instanceof_McpError message].

(** Run a method to the end of each of its paths. *)
Ltac wp := repeat wp_step.

(** Membership in an explicit log, entry by entry. *)
Ltac in_log :=
  repeat match goal with
    | H : In _ _ |- _ => simpl in H
    | H : _ \/ _ |- _ => destruct H as [H | H]
    | H : False |- _ => destruct H
    | H : ?a = ?b :> Entry |- _ =>
        first [subst b | subst a | discriminate H | inversion H; clear H; subst]
    end.

Section Initialize.

Variable World : Type.
Variable respond : forall c : Cmd, World -> Reply c * World.

Lemma initialize_spec this w :
  post respond initialize this w (fun log r this' w' =>
    (forall e, In e log -> is_provider e = false)
    /\ match r with
       | Normal _ =>
           (exists cal, calendar this' = Some cal)
           /\ (forall e, In e log -> is_failure e = false)
       | Throw e => this' = this /\ exists msg, e = Error msg
       end
    /\ (forall path token, In (E_ReadToken path (inr token)) log ->
        path = tokenPath this
        /\ (truthy_num (expiry_date token) = false ->
            count is_refresh log = 0 /\ count is_token_write log = 0)
        /\ (forall expiry,
               expiry_date token = Some expiry -> expiry <> 0%Z ->
               exists now,
                 In (E_DateNow now) log
                 /\ ((now <= expiry)%Z ->
                     count is_refresh log = 0 /\ count is_token_write log = 0)
                 /\ ((expiry < now)%Z ->
                     exists creds client reply,
                       count is_refresh log = 1
                       /\ match reply with
                          | inr {| ans_credentials := Some fresh |} =>
                              exists written,
                                log = (refreshing this creds token now client
                                                  reply
                                       ++ [E_WriteToken path fresh written])%list
                                /\ match written with
                                   | inr _ =>
                                       exists cal,
                                         r = Normal tt
                                         /\ calendar this' = Some cal
                                         /\ credentials (auth cal) = Some fresh
                                   | inl _ =>
                                       r = Throw (Error No_valid_credentials)
                                   end
                          | _ =>
                              log = refreshing this creds token now client reply
                              /\ r = Throw (Error No_valid_credentials)
                          end)))).
Proof.
  unfold initialize. wp.
  all: simpl.
  all: (split; [intros e He; in_log; reflexivity |]).
  all: (split; [try (split; [reflexivity | eexists; reflexivity]);
                try (split; [eexists; reflexivity | intros e He; in_log; reflexivity]) |]).
  all: intros path token Hin; in_log.
  all: (split; [reflexivity |]).
  all: (split; [intros Hf; first [congruence | split; reflexivity] |]).
  all: intros expiry He Hne.
  all: try (rewrite He in *; simpl in *;
            match goal with
            | H : negb (_ =? 0)%Z = false |- _ =>
                apply negb_false_iff, Z.eqb_eq in H; contradiction
            end).
  all: rewrite He in *;
    match goal with
    | |- context [E_DateNow ?now] => exists now
    end; (split; [simpl; auto |]).
  all: match goal with
       | H : (_ <? _)%Z = true |- _ => apply Z.ltb_lt in H
       | H : (_ <? _)%Z = false |- _ => apply Z.ltb_ge in H
       end.
  all: (split; [intros Hle; first [lia | split; reflexivity] |]).
  all: intros Hlt; try lia.
  all: repeat match goal with u : unit |- _ => destruct u end.
  all: match goal with
       | |- context [E_ReadCredentials _ (inr ?creds) :: _ :: _
                     :: E_RefreshToken ?client _ ?reply :: _] =>
           exists creds, client, reply
       end.
  all: (split; [reflexivity |]).
  all: try match goal with
         | H : ans_credentials ?a = _ |- _ =>
             destruct a; cbn [ans_credentials] in H; rewrite H
         end.
  all: cbv beta iota.
  all: try (split; reflexivity).
  all: eexists; split; [reflexivity |]; cbv beta iota.
  all: first [reflexivity | eexists; repeat split].
Qed.

Lemma ensure_initialized_spec this w :
  post respond ensure_initialized this w (fun log r this' w' =>
    (forall e, In e log -> is_provider e = false)
    /\ ((r = Normal None /\ (exists cal, calendar this' = Some cal)
         /\ (forall e, In e log -> is_failure e = false))
        \/ (exists msg,
              r = Normal (Some (flagged ("Error initializing Google Meet API: "
                                         ++ msg)))
              /\ calendar this = None /\ this' = this))
    /\ (forall cal, calendar this = Some cal -> log = [] /\ this' = this)
    /\ (forall path token, In (E_ReadToken path (inr token)) log ->
        path = tokenPath this
        /\ (truthy_num (expiry_date token) = false ->
            count is_refresh log = 0 /\ count is_token_write log = 0)
        /\ (forall expiry,
               expiry_date token = Some expiry -> expiry <> 0%Z ->
               exists now,
                 In (E_DateNow now) log
                 /\ ((now <= expiry)%Z ->
                     count is_refresh log = 0 /\ count is_token_write log = 0)
                 /\ ((expiry < now)%Z ->
                     exists creds client reply,
                       count is_refresh log = 1
                       /\ match reply with
                          | inr {| ans_credentials := Some fresh |} =>
                              exists written,
                                log = (refreshing this creds token now client
                                                  reply
                                       ++ [E_WriteToken path fresh written])%list
                                /\ match written with
                                   | inr _ =>
                                       exists cal,
                                         r = Normal None
                                         /\ calendar this' = Some cal
                                         /\ credentials (auth cal) = Some fresh
                                   | inl _ =>
                                       r = Normal (Some (flagged initialization_refused))
                                   end
                          | _ =>
                              log = refreshing this creds token now client reply
                              /\ r = Normal (Some (flagged initialization_refused))
                          end)))).
Proof.
  unfold ensure_initialized.
  apply post_bind, post_get_this; cbv beta iota.
  destruct (calendar this) as [cal |] eqn:Hcal.
  - apply post_ret.
    split; [intros e [] |].
    split; [left; repeat split; eauto; intros e [] |].
    split; [intros cal' _; auto | intros path token []].
  - apply post_try_catch, post_bind.
    eapply post_conseq; [apply initialize_spec |].
    intros log r this' w' (Hprov & Hres & Href).
    destruct r as [u | e]; apply post_ret; rewrite app_nil_r.
    + destruct Hres as [Hset Hok].
      split; [exact Hprov |].
      split; [left; auto |].
      split; [discriminate |].
      intros path token Hin.
      destruct (Href path token Hin) as (Hp & Hfalsy & Hexp).
      split; [exact Hp | split; [exact Hfalsy |]].
      intros expiry He Hne.
      destruct (Hexp expiry He Hne) as (now & Hnow & Hle & Hlt).
      exists now; split; [exact Hnow | split; [exact Hle |]].
      intros Hpast; destruct (Hlt Hpast) as (creds & client & reply & Hone & Hlog).
      exists creds, client, reply; split; [exact Hone |].
      destruct reply as [msg | [[fresh |] tokens]];
        try (destruct Hlog as [_ Habs]; discriminate Habs).
      destruct Hlog as (written & Hlog & Hres).
      exists written; split; [exact Hlog |].
      destruct written as [msg | []]; [discriminate Hres |].
      destruct Hres as (cal & _ & Hcal' & Hfresh).
      exists cal; auto.
    + destruct Hres as [-> (msg & ->)]; cbv beta iota; cbn [message].
      split; [exact Hprov |].
      split; [right; exists msg; auto |].
      split; [discriminate |].
      intros path token Hin.
      destruct (Href path token Hin) as (Hp & Hfalsy & Hexp).
      split; [exact Hp | split; [exact Hfalsy |]].
      intros expiry He Hne.
      destruct (Hexp expiry He Hne) as (now & Hnow & Hle & Hlt).
      exists now; split; [exact Hnow | split; [exact Hle |]].
      intros Hpast; destruct (Hlt Hpast) as (creds & client & reply & Hone & Hlog).
      exists creds, client, reply; split; [exact Hone |].
      destruct reply as [m | [[fresh |] tokens]].
      * destruct Hlog as [Hlog Hres]; injection Hres as ->.
        split; [exact Hlog | reflexivity].
      * destruct Hlog as (written & Hlog & Hres).
        exists written; split; [exact Hlog |].
        destruct written as [m | []].
        -- injection Hres as ->; reflexivity.
        -- destruct Hres as (cal & Habs & _); discriminate Habs.
      * destruct Hlog as [Hlog Hres]; injection Hres as ->.
        split; [exact Hlog | reflexivity].
Qed.

End Initialize.


Section Dispatch.

Variable World : Type.
Variable respond : forall c : Cmd, World -> Reply c * World.

(** Run [try_dispatch] on an arbitrary request: one goal per path. *)
Ltac run_dispatch request :=
  unfold try_dispatch, dispatch, listMeetings, getMeeting, createMeeting,
    updateMeeting, deleteMeeting;
  destruct request as [name args]; cbn [params_name params_arguments] in *;
  set (a := default_to no_args args) in *; clearbody a; clear args;
  wp; cbn [app entry];
  repeat match goal with
    | H : (?n =? _) = true |- _ => apply String.eqb_eq in H; subst n
    end.

Lemma try_dispatch_spec request this w :
  post respond (try_dispatch request) this w (fun log r this' w' =>
    this' = this
    /\ (forall e, In e log ->
        is_session e = false
        /\ forall cal, provider_context e = Some cal -> calendar this = Some cal)
    /\ (forall code, protocol_error request = Some code ->
        log = [] /\ exists msg, r = Throw (McpError code msg))
    /\ (protocol_error request = None -> exists envelope, r = Normal envelope)
    /\ ((exists e, In e log /\ is_failure e = true) ->
        exists msg, r = Normal (flagged msg))).
Proof.
  unfold protocol_error; run_dispatch request.
  all: (split; [reflexivity |]).
  all: (split; [intros ? Hmember; in_log; (split; [reflexivity |]);
                cbn [provider_context]; intros ? Hcontext;
                first [discriminate Hcontext | congruence] |]).
  all: (split; [intros ? Hprotocol | split; [intros Hprotocol |]]).
  all: try (intros (? & Hmember & Hfailure); in_log;
            cbn [is_failure rejected] in Hfailure; try discriminate Hfailure;
            eexists; reflexivity).
  all: repeat match goal with
         | H : (_ =? _) = false |- _ => rewrite H in Hprotocol; clear H
         end.
  all: repeat match type of Hprotocol with
         | context [truthy ?x] =>
             let E := fresh "E" in
             destruct (truthy x) eqn:E; rewrite ?E in *; clear E
         | context [provided ?x] =>
             let E := fresh "E" in
             destruct x eqn:E; rewrite ?E in *; clear E;
             cbn [provided] in Hprotocol
         end.
  all: unfold keys_length in *;
    cbn [ud_summary ud_description ud_startTime ud_endTime ud_attendees
         negb orb andb Nat.eqb Nat.add provided count_key] in *.
  all: try discriminate.
  all: try (injection Hprotocol as <-).
  all: try (split; [reflexivity |]).
  all: try (eexists; reflexivity).
Qed.

Lemma try_dispatch_list request this w :
  post respond (try_dispatch request) this w (fun log r this' w' =>
    forall cal params items,
      In (E_EventsList cal params (inr items)) log ->
      r = Normal {| text := JSON_meetings (listMeetings_loop (or_nil items) []);
                    isError := false |}).
Proof.
  run_dispatch request.
  all: intros ? ? ? Hmember; in_log; reflexivity.
Qed.

Lemma try_dispatch_get request this w :
  params_name request = "get_meeting" ->
  post respond (try_dispatch request) this w (fun log r this' w' =>
    forall cal meetingId v event,
      In (E_EventsGet cal meetingId v (inr event)) log ->
      _formatMeetingData event = None ->
      (ev_conferenceData event = None ->
       r = Normal (flagged ("Error: " ++ "Error getting meeting: "
                            ++ "Event with ID " ++ meetingId
                            ++ " does not have Google Meet conferencing data")))
      /\ (ev_conferenceData event <> None ->
          r = Normal (flagged ("Error: " ++ "Error getting meeting: "
                               ++ "Failed to format meeting data for event ID "
                               ++ meetingId)))).
Proof.
  intros Hname; run_dispatch request; try discriminate Hname.
  all: intros ? ? ? ? Hmember Hnull; in_log.
  all: split; intros Hdata; first [reflexivity | congruence].
Qed.

Lemma try_dispatch_written request this w :
  post respond (try_dispatch request) this w (fun log r this' w' =>
    forall event,
      _formatMeetingData event = None ->
      (exists cal resource, In (E_EventsInsert cal resource (inr event)) log)
      \/ (exists cal meetingId resource,
             In (E_EventsUpdate cal meetingId resource (inr event)) log) ->
      exists msg, r = Normal (flagged msg)).
Proof.
  run_dispatch request.
  all: intros ? Hnull [(? & ? & Hmember) | (? & ? & ? & Hmember)]; in_log.
  all: first [congruence | eexists; reflexivity].
Qed.

Lemma try_dispatch_update request this w :
  post respond (try_dispatch request) this w (fun log r this' w' =>
    let args := default_to no_args (params_arguments request) in
    let updateData := {| ud_summary := a_summary args;
                         ud_description := a_description args;
                         ud_startTime := a_start_time args;
                         ud_endTime := a_end_time args;
                         ud_attendees := a_attendees args |} in
    (forall cal meetingId payload reply,
        In (E_EventsUpdate cal meetingId payload reply) log ->
        exists fetched,
          In (E_EventsGet cal meetingId None (inr fetched)) log
          /\ assign_fields fetched updateData = Normal payload)
    /\ (forall cal meetingId fetched payload,
           In (E_EventsGet cal meetingId None (inr fetched)) log ->
           assign_fields fetched updateData = Normal payload ->
           exists reply, In (E_EventsUpdate cal meetingId payload reply) log)).
Proof.
  run_dispatch request.
  all: split; [intros ? ? ? ? Hmember | intros ? ? ? ? Hmember Hassign];
    in_log.
  all: try congruence.
  all: try (eexists; split; [simpl; auto | assumption]).
  all: match goal with
       | H1 : assign_fields ?f ?u = Normal ?p,
         H2 : assign_fields ?f ?u = Normal ?q |- _ =>
           assert (p = q) by congruence; subst
       end; eexists; simpl; eauto.
Qed.


End Dispatch.

(** ** Pure facts about the loops and the assignments *)

Lemma append_assoc (a b c : string) : (a ++ b) ++ c = a ++ b ++ c.
Proof. induction a as [| x a IH]; simpl; [reflexivity | now rewrite IH]. Qed.

Lemma formatMeetingData_without_data (event : Event) :
  ev_conferenceData event = None -> _formatMeetingData event = None.
Proof. unfold _formatMeetingData; now intros ->. Qed.

Lemma listMeetings_loop_mapped (events : list Event) (meetings : list Meeting) :
  listMeetings_loop events meetings = (meetings ++ mapped_meetings events)%list.
Proof.
  revert meetings; induction events as [| event rest IH]; intros meetings;
    simpl; [now rewrite app_nil_r |].
  destruct (ev_conferenceData event) eqn:Hdata.
  - destruct (_formatMeetingData event); rewrite IH; simpl;
      [now rewrite <- app_assoc | reflexivity].
  - now rewrite (formatMeetingData_without_data _ Hdata), IH.
Qed.

Lemma mapped_meetings_from_video (events : list Event) (meeting : Meeting) :
  In meeting (mapped_meetings events) ->
  exists event,
    In event events /\ has_video_entry_point event = true
    /\ _formatMeetingData event = Some meeting.
Proof.
  unfold mapped_meetings; intros H.
  apply in_flat_map in H as (event & Hin & Hm).
  destruct (_formatMeetingData event) as [m |] eqn:Hf; [| destruct Hm].
  destruct Hm as [<- | []].
  exists event; repeat split; auto.
  destruct (has_video_entry_point event) eqn:Hv; [reflexivity |].
  rewrite (no_video_formats_to_null event (or_intror Hv)) in Hf; discriminate.
Qed.

Lemma assign_fields_frame (fetched payload : Event) (updateData : UpdateData) :
  assign_fields fetched updateData = Normal payload ->
  ev_summary payload = replaced_by (ud_summary updateData) (ev_summary fetched)
  /\ ev_description payload
     = replaced_by (ud_description updateData) (ev_description fetched)
  /\ opt_chain (ev_start payload) dt_dateTime
     = replaced_by (ud_startTime updateData)
                   (opt_chain (ev_start fetched) dt_dateTime)
  /\ opt_chain (ev_start payload) dt_date = opt_chain (ev_start fetched) dt_date
  /\ opt_chain (ev_start payload) dt_timeZone
     = opt_chain (ev_start fetched) dt_timeZone
  /\ (ud_startTime updateData = None -> ev_start payload = ev_start fetched)
  /\ opt_chain (ev_end payload) dt_dateTime
     = replaced_by (ud_endTime updateData)
                   (opt_chain (ev_end fetched) dt_dateTime)
  /\ opt_chain (ev_end payload) dt_date = opt_chain (ev_end fetched) dt_date
  /\ opt_chain (ev_end payload) dt_timeZone
     = opt_chain (ev_end fetched) dt_timeZone
  /\ (ud_endTime updateData = None -> ev_end payload = ev_end fetched)
  /\ ev_attendees payload
     = replaced_by (option_map formatted_attendees (ud_attendees updateData))
                   (ev_attendees fetched)
  /\ ev_id payload = ev_id fetched
  /\ ev_conferenceData payload = ev_conferenceData fetched
  /\ ev_creator payload = ev_creator fetched
  /\ ev_organizer payload = ev_organizer fetched
  /\ ev_created payload = ev_created fetched
  /\ ev_updated payload = ev_updated fetched
  /\ ev_rest payload = ev_rest fetched.
Proof.
  unfold assign_fields, assign_start_dateTime, assign_end_dateTime.
  destruct updateData as [s d st en att]; simpl.
  intros H.
  destruct s, d, st, en, att, (ev_start fetched) eqn:Hs,
    (ev_end fetched) eqn:He;
    cbn in H; rewrite ?Hs in H; cbn in H; rewrite ?He in H; cbn in H;
    try discriminate H; injection H as H; subst payload;
    cbn; rewrite ?Hs, ?He; repeat split; auto; discriminate.
Qed.

Lemma assign_fields_succeeds (fetched : Event) (updateData : UpdateData) :
  (ud_startTime updateData <> None -> ev_start fetched <> None) ->
  (ud_endTime updateData <> None -> ev_end fetched <> None) ->
  exists payload, assign_fields fetched updateData = Normal payload.
Proof.
  unfold assign_fields, assign_start_dateTime, assign_end_dateTime.
  destruct updateData as [s d st en att]; simpl; intros Hs He.
  destruct s, d, st, en, att, (ev_start fetched) eqn:Hstart,
    (ev_end fetched) eqn:Hend;
    cbn; rewrite ?Hstart; cbn; rewrite ?Hend; cbn;
    try (eexists; reflexivity);
    first [exfalso; apply Hs; [discriminate | reflexivity]
          | exfalso; apply He; [discriminate | reflexivity]].
Qed.

Lemma count_app (kind : Entry -> bool) (l1 l2 : list Entry) :
  count kind (l1 ++ l2) = count kind l1 + count kind l2.
Proof. unfold count; now rewrite filter_app, length_app. Qed.

Lemma count_none (kind : Entry -> bool) (l : list Entry) :
  (forall e, In e l -> kind e = false) -> count kind l = 0.
Proof.
  unfold count; induction l as [| e l IH]; intros H; simpl; [reflexivity |].
  rewrite (H e (or_introl eq_refl)); apply IH; intros; apply H; now right.
Qed.

Lemma not_session (e : Entry) :
  is_session e = false ->
  is_disk_read e = false /\ is_refresh e = false /\ is_token_write e = false.
Proof.
  unfold is_session; destruct (is_disk_read e), (is_refresh e),
    (is_token_write e); simpl; auto; discriminate.
Qed.

Lemma provider_not_session (e : Entry) :
  is_provider e = true -> is_session e = false.
Proof. destruct e; simpl; auto; discriminate. Qed.

(** ** [handleCallTool]: initialization, then the dispatch *)

(** What a proved postcondition says of a given run. *)
Ltac run_facts Hexec spec H :=
  pose proof spec as H; unfold post in H; rewrite Hexec in H;
  cbv beta iota in H.

Section HandleCallTool.

Variable World : Type.
Variable respond : forall c : Cmd, World -> Reply c * World.

Lemma exec_bind_inv {A B : Type} (m : M A) (f : A -> M B) this w log r this' w' :
  exec respond (bind m f) this w = (log, (r, this'), w') ->
  exists l1 r1 this1 w1,
    exec respond m this w = (l1, (r1, this1), w1)
    /\ match r1 with
       | Normal a =>
           exists l2, exec respond (f a) this1 w1 = (l2, (r, this'), w')
                      /\ log = (l1 ++ l2)%list
       | Throw e => log = l1 /\ r = Throw e /\ this' = this1 /\ w' = w1
       end.
Proof.
  unfold exec, bind; rewrite run_io_bind.
  destruct (run respond (m this) w) as [[l1 [r1 this1]] w1].
  intros H; exists l1, r1, this1, w1; split; [reflexivity |].
  destruct r1 as [a | e].
  - destruct (run respond (f a this1) w1) as [[l2 [r2 this2]] w2].
    injection H as <- <- <- <-; eauto.
  - simpl in H; rewrite app_nil_r in H; injection H as <- <- <- <-; auto.
Qed.

(** The two ways a call goes: initialization fails and its envelope is
    returned, or a context is there and the dispatch runs on it. *)
Lemma handleCallTool_cases request this w log res this' w' :
  exec respond (handleCallTool request) this w = (log, (res, this'), w') ->
  (exists msg,
      res = Normal (flagged ("Error initializing Google Meet API: " ++ msg))
      /\ calendar this = None /\ this' = this
      /\ exec respond ensure_initialized this w
         = (log, (Normal (Some (flagged ("Error initializing Google Meet API: "
                                         ++ msg))), this), w'))
  \/ (exists init_log handler_log this1 w1 cal,
         log = (init_log ++ handler_log)%list
         /\ exec respond ensure_initialized this w
            = (init_log, (Normal None, this1), w1)
         /\ calendar this1 = Some cal
         /\ this' = this1
         /\ exec respond (try_dispatch request) this1 w1
            = (handler_log, (res, this'), w')).
Proof.
  unfold handleCallTool; intros H.
  apply exec_bind_inv in H as (l1 & r1 & this1 & w1 & Hinit & Hrest).
  run_facts Hinit (ensure_initialized_spec respond this w) Hspec.
  destruct Hspec
    as (_ & [(-> & (cal & Hcal) & _) | (msg & -> & Hnone & ->)] & _).
  - destruct Hrest as (l2 & Hdisp & ->).
    run_facts Hdisp (try_dispatch_spec respond request this1 w1) Hspec.
    destruct Hspec as (Hthis & _).
    right; exists l1, l2, this1, w1, cal; repeat split; auto.
  - destruct Hrest as (l2 & Hret & ->).
    injection Hret as <- <- <- <-; rewrite app_nil_r.
    left; exists msg; auto.
Qed.

End HandleCallTool.

(** ** The claims *)

Section Claims.

Variable World : Type.
Variable respond : forall c : Cmd, World -> Reply c * World.

(** A call to the provider is made by the dispatch, on an initialized
    gateway. *)
Lemma provider_call_in_dispatch request this w log res this' w' e :
  exec respond (handleCallTool request) this w = (log, (res, this'), w') ->
  In e log -> is_provider e = true ->
  exists init_log handler_log this1 w1,
    log = (init_log ++ handler_log)%list
    /\ In e handler_log
    /\ exec respond (try_dispatch request) this1 w1
       = (handler_log, (res, this'), w').
Proof.
  intros Hexec Hin Hprov.
  apply handleCallTool_cases in Hexec
    as [(msg & _ & _ & _ & Hinit)
       | (l1 & l2 & this1 & w1 & cal & -> & Hinit & _ & _ & Hdisp)];
    run_facts Hinit (ensure_initialized_spec respond this w) Hspec;
    destruct Hspec as (Hnoprov & _).
  - rewrite (Hnoprov e Hin) in Hprov; discriminate.
  - exists l1, l2, this1, w1; repeat split; auto.
    apply in_app_or in Hin as [Hin | Hin]; [| exact Hin].
    rewrite (Hnoprov e Hin) in Hprov; discriminate.
Qed.

Lemma mapped_meetings_video_only (events : list Event) :
  mapped_meetings events = mapped_meetings (filter has_video_entry_point events).
Proof.
  induction events as [| event rest IH]; simpl; [reflexivity |].
  destruct (has_video_entry_point event) eqn:Hv; simpl; [now rewrite IH |].
  now rewrite (no_video_formats_to_null event (or_intror Hv)).
Qed.

(** C2: whatever list of events the provider returns, [list_meetings]
    answers, without error, the events mapped through [_formatMeetingData]
    with the nulls dropped, in the provider's order; every meeting listed
    comes from an event with a "video" entry point, and the events lacking
    one (with or without other conferencing data) contribute nothing. *)
Theorem list_meetings_drops_events_without_video
  request this w log res this' w' cal params items :
  exec respond (handleCallTool request) this w = (log, (res, this'), w') ->
  In (E_EventsList cal params (inr items)) log ->
  res = Normal {| text := JSON_meetings (mapped_meetings (or_nil items));
                  isError := false |}
  /\ (forall meeting,
         In meeting (mapped_meetings (or_nil items)) ->
         exists event,
           In event (or_nil items) /\ has_video_entry_point event = true
           /\ _formatMeetingData event = Some meeting)
  /\ mapped_meetings (or_nil items)
     = mapped_meetings (filter has_video_entry_point (or_nil items)).
Proof.
  intros Hexec Hin.
  edestruct provider_call_in_dispatch
    as (l1 & l2 & this1 & w1 & _ & Hin2 & Hdisp);
    [exact Hexec | exact Hin | reflexivity |].
  run_facts Hdisp (try_dispatch_list respond request this1 w1) Hspec.
  rewrite (Hspec _ _ _ Hin2), listMeetings_loop_mapped.
  split; [reflexivity |]; split.
  - apply mapped_meetings_from_video.
  - apply mapped_meetings_video_only.
Qed.

(** C3: when the event fetched by [get_meeting] maps to null (it has no
    conferencing data, or no "video" entry point), the call returns an
    error-flagged envelope whose message says so; never a successful
    one. *)
Theorem get_meeting_without_video_is_an_error
  request this w log res this' w' cal meetingId v event :
  params_name request = "get_meeting" ->
  exec respond (handleCallTool request) this w = (log, (res, this'), w') ->
  In (E_EventsGet cal meetingId v (inr event)) log ->
  _formatMeetingData event = None ->
  exists msg,
    res = Normal {| text := Str msg; isError := true |}
    /\ (ev_conferenceData event = None ->
        contains "does not have Google Meet conferencing data" msg)
    /\ (ev_conferenceData event <> None -> contains "Failed to format" msg).
Proof.
  intros Hname Hexec Hin Hnull.
  edestruct provider_call_in_dispatch
    as (l1 & l2 & this1 & w1 & _ & Hin2 & Hdisp);
    [exact Hexec | exact Hin | reflexivity |].
  run_facts Hdisp (try_dispatch_get respond request this1 w1 Hname) Hspec.
  destruct (Hspec _ _ _ _ Hin2 Hnull) as [Hnone Hsome].
  destruct (ev_conferenceData event) as [conferenceData |] eqn:Hdata.
  - eexists; split; [apply Hsome; discriminate |].
    split; [discriminate | intros _].
    exists "Error: Error getting meeting: ",
      (" meeting data for event ID " ++ meetingId); reflexivity.
  - eexists; split; [apply Hnone; reflexivity |].
    split; [intros _ | congruence].
    exists ("Error: Error getting meeting: Event with ID " ++ meetingId ++ " "),
      "".
    simpl; rewrite append_assoc; reflexivity.
Qed.

(** C8: when the event returned by the provider's insert ([create_meeting])
    or update ([update_meeting]) maps to null (no conferencing data, or no
    "video" entry point), the call returns an error-flagged envelope, not
    a meeting, although the provider performed the write. *)
Theorem create_or_update_without_video_is_an_error
  request this w log res this' w' event :
  exec respond (handleCallTool request) this w = (log, (res, this'), w') ->
  (exists cal resource, In (E_EventsInsert cal resource (inr event)) log)
  \/ (exists cal meetingId resource,
         In (E_EventsUpdate cal meetingId resource (inr event)) log) ->
  _formatMeetingData event = None ->
  exists msg, res = Normal {| text := Str msg; isError := true |}.
Proof.
  intros Hexec Hwritten Hnull.
  destruct Hwritten as [(c & r & Hin) | (c & i & r & Hin)];
    (edestruct provider_call_in_dispatch
      as (l1 & l2 & this1 & w1 & _ & Hin2 & Hdisp);
     [exact Hexec | exact Hin | reflexivity |]);
    run_facts Hdisp (try_dispatch_written respond request this1 w1) Hspec;
    apply (Hspec event Hnull); [left | right]; eauto.
Qed.

(** C7: the event written back by [update_meeting] is the event just
    fetched with exactly the provided fields replaced: an omitted argument
    leaves the fetched field as it is, a provided one (the empty string
    included) replaces it, the provided addresses becoming the attendees,
    one per address in their order and with nothing but the address; and
    whenever the fetch succeeds on an event that has the [start] and [end]
    to be assigned, the write-back is made. *)
Theorem update_meeting_writes_back_provided_fields_only
  request this w log res this' w' :
  exec respond (handleCallTool request) this w = (log, (res, this'), w') ->
  let args := default_to no_args (params_arguments request) in
  (forall cal meetingId payload reply,
      In (E_EventsUpdate cal meetingId payload reply) log ->
      exists fetched,
        In (E_EventsGet cal meetingId None (inr fetched)) log
        /\ ev_summary payload = replaced_by (a_summary args) (ev_summary fetched)
        /\ ev_description payload
           = replaced_by (a_description args) (ev_description fetched)
        /\ opt_chain (ev_start payload) dt_dateTime
           = replaced_by (a_start_time args)
                         (opt_chain (ev_start fetched) dt_dateTime)
        /\ opt_chain (ev_start payload) dt_date
           = opt_chain (ev_start fetched) dt_date
        /\ opt_chain (ev_start payload) dt_timeZone
           = opt_chain (ev_start fetched) dt_timeZone
        /\ (a_start_time args = None -> ev_start payload = ev_start fetched)
        /\ opt_chain (ev_end payload) dt_dateTime
           = replaced_by (a_end_time args)
                         (opt_chain (ev_end fetched) dt_dateTime)
        /\ opt_chain (ev_end payload) dt_date = opt_chain (ev_end fetched) dt_date
        /\ opt_chain (ev_end payload) dt_timeZone
           = opt_chain (ev_end fetched) dt_timeZone
        /\ (a_end_time args = None -> ev_end payload = ev_end fetched)
        /\ ev_attendees payload
           = replaced_by
               (option_map
                  (map (fun email => {| at_email := Some email;
                                        at_responseStatus := None |}))
                  (a_attendees args))
               (ev_attendees fetched)
        /\ ev_id payload = ev_id fetched
        /\ ev_conferenceData payload = ev_conferenceData fetched
        /\ ev_creator payload = ev_creator fetched
        /\ ev_organizer payload = ev_organizer fetched
        /\ ev_created payload = ev_created fetched
        /\ ev_updated payload = ev_updated fetched
        /\ ev_rest payload = ev_rest fetched)
  /\ (forall cal meetingId fetched,
         In (E_EventsGet cal meetingId None (inr fetched)) log ->
         (a_start_time args <> None -> ev_start fetched <> None) ->
         (a_end_time args <> None -> ev_end fetched <> None) ->
         exists payload reply,
           In (E_EventsUpdate cal meetingId payload reply) log).
Proof.
  intros Hexec args; split.
  - intros cal meetingId payload reply Hin.
    edestruct provider_call_in_dispatch
      as (l1 & l2 & this1 & w1 & -> & Hin2 & Hdisp);
      [exact Hexec | exact Hin | reflexivity |].
    run_facts Hdisp (try_dispatch_update respond request this1 w1) Hspec.
    destruct Hspec as [Hwrite _].
    destruct (Hwrite _ _ _ _ Hin2) as (fetched & Hget & Hassign).
    exists fetched; split; [apply in_or_app; now right |].
    exact (@assign_fields_frame _ _ _ Hassign).
  - intros cal meetingId fetched Hin Hstart Hend.
    edestruct provider_call_in_dispatch
      as (l1 & l2 & this1 & w1 & -> & Hin2 & Hdisp);
      [exact Hexec | exact Hin | reflexivity |].
    run_facts Hdisp (try_dispatch_update respond request this1 w1) Hspec.
    destruct Hspec as [_ Hwrite].
    edestruct assign_fields_succeeds as (payload & Hassign);
      [| | destruct (Hwrite _ _ _ _ Hin2 Hassign) as (reply & Hupd);
           exists payload, reply; apply in_or_app; now right];
      assumption.
Qed.

(** A call that leaves the gateway without a context returns the envelope
    of the failed initialization. *)
Lemma failed_initialization_is_flagged request this w log res this' w' :
  exec respond (handleCallTool request) this w = (log, (res, this'), w') ->
  calendar this' = None ->
  exists msg,
    res = Normal {| text := Str ("Error initializing Google Meet API: " ++ msg);
                    isError := true |}.
Proof.
  intros Hexec Hnone.
  apply handleCallTool_cases in Hexec
    as [(msg & -> & _) | (l1 & l2 & this1 & w1 & cal & _ & _ & Hcal & -> & _)];
    [exists msg; reflexivity | congruence].
Qed.

(** With a context, the dispatch decides: a protocol error is thrown before
    any call is made, anything else returns an envelope. *)
Lemma dispatch_on_context request this w log res this' w' :
  exec respond (handleCallTool request) this w = (log, (res, this'), w') ->
  calendar this' <> None ->
  exists init_log handler_log,
    log = (init_log ++ handler_log)%list
    /\ (forall e, In e init_log -> is_failure e = false)
    /\ (forall code, protocol_error request = Some code ->
        handler_log = [] /\ exists msg, res = Throw (McpError code msg))
    /\ (protocol_error request = None -> exists envelope, res = Normal envelope)
    /\ ((exists e, In e handler_log /\ is_failure e = true) ->
        exists msg, res = Normal (flagged msg)).
Proof.
  intros Hexec Hcal.
  apply handleCallTool_cases in Hexec
    as [(msg & _ & Hnone & -> & _)
       | (l1 & l2 & this1 & w1 & cal & -> & Hinit & _ & -> & Hdisp)];
    [congruence |].
  run_facts Hdisp (try_dispatch_spec respond request this1 w1) Hspec.
  destruct Hspec as (_ & _ & Hproto & Hnoproto & Hfail).
  run_facts Hinit (ensure_initialized_spec respond this w) Hspec.
  destruct Hspec as (_ & [(_ & _ & Hok) | (msg & Habs & _)] & _);
    [| discriminate Habs].
  exists l1, l2; auto.
Qed.



Lemma protocol_error_update_without_fields request args :
  params_name request = "update_meeting" ->
  params_arguments request = Some args ->
  a_summary args = None -> a_description args = None ->
  a_start_time args = None -> a_end_time args = None ->
  a_attendees args = None ->
  protocol_error request = Some InvalidParams.
Proof.
  unfold protocol_error; intros -> ->; cbn [default_to].
  intros -> -> -> -> ->; simpl.
  now rewrite andb_false_r.
Qed.

Lemma protocol_error_calls_no_provider request this w log res this' w' code :
  protocol_error request = Some code ->
  exec respond (handleCallTool request) this w = (log, (res, this'), w') ->
  forall e, In e log -> is_provider e = false.
Proof.
  intros Hpe Hexec e Hin.
  destruct (is_provider e) eqn:Hprov; [exfalso | reflexivity].
  edestruct provider_call_in_dispatch
    as (l1 & l2 & this1 & w1 & _ & Hin2 & Hdisp);
    [exact Hexec | exact Hin | exact Hprov |].
  run_facts Hdisp (try_dispatch_spec respond request this1 w1) Hspec.
  destruct Hspec as (_ & _ & Hproto & _).
  destruct (Hproto _ Hpe) as [-> _]; destruct Hin2.
Qed.

(** C5 (amended): an [update_meeting] call that provides none of summary,
    description, start_time, end_time, attendees performs no provider
    operation; once a context is there it fails with a thrown
    InvalidParams; when the initialization fails it returns the
    error-flagged envelope of the initialization instead. *)
Theorem update_meeting_without_fields_calls_no_provider
  request args this w log res this' w' :
  params_name request = "update_meeting" ->
  params_arguments request = Some args ->
  a_summary args = None -> a_description args = None ->
  a_start_time args = None -> a_end_time args = None ->
  a_attendees args = None ->
  exec respond (handleCallTool request) this w = (log, (res, this'), w') ->
  (forall e, In e log -> is_provider e = false)
  /\ (calendar this' <> None ->
      exists msg, res = Throw (McpError InvalidParams msg))
  /\ (calendar this' = None ->
      exists msg,
        res = Normal {| text := Str ("Error initializing Google Meet API: "
                                     ++ msg);
                        isError := true |}).
Proof.
  intros Hname Hargs Hs Hd Hst Hen Hat Hexec.
  pose proof (protocol_error_update_without_fields _ Hname Hargs Hs Hd Hst
                Hen Hat) as Hpe.
  split; [exact (protocol_error_calls_no_provider request this w Hpe Hexec) |].
  split; [| exact (failed_initialization_is_flagged request this w Hexec)].
  intros Hcal.
  destruct (dispatch_on_context request this w Hexec Hcal)
    as (l1 & l2 & _ & _ & Hproto & _).
  apply (Hproto InvalidParams Hpe).
Qed.


Lemma session_calls_in_initialization request this w log res this' w' :
  exec respond (handleCallTool request) this w = (log, (res, this'), w') ->
  exists init_log handler_log early this1 w1,
    log = (init_log ++ handler_log)%list
    /\ exec respond ensure_initialized this w
       = (init_log, (Normal early, this1), w1)
    /\ (early = None <-> calendar this' <> None)
    /\ (forall envelope, early = Some envelope ->
        handler_log = [] /\ res = Normal envelope)
    /\ this' = this1
    /\ (forall e, In e init_log -> is_provider e = false)
    /\ (forall e, In e handler_log -> is_session e = false).
Proof.
  intros Hexec.
  apply handleCallTool_cases in Hexec
    as [(msg & -> & Hnone & -> & Hinit)
       | (l1 & l2 & this1 & w1 & cal & -> & Hinit & Hcal & -> & Hdisp)].
  - run_facts Hinit (ensure_initialized_spec respond this w) Hspec.
    destruct Hspec as (Hnoprov & _).
    exists log, [], (Some (flagged ("Error initializing Google Meet API: " ++ msg))),
      this, w'.
    rewrite app_nil_r.
    split; [reflexivity |]. split; [exact Hinit |].
    split; [split; [discriminate | congruence] |].
    split; [intros envelope [= <-]; split; reflexivity |].
    split; [reflexivity |].
    split; [exact Hnoprov | intros e []].
  - run_facts Hinit (ensure_initialized_spec respond this w) Hspec.
    destruct Hspec as (Hnoprov & _).
    run_facts Hdisp (try_dispatch_spec respond request this1 w1) Hspec.
    destruct Hspec as (_ & Hnosess & _).
    exists l1, l2, None, this1, w1.
    split; [reflexivity |]. split; [exact Hinit |].
    split; [split; [congruence | reflexivity] |].
    split; [discriminate |].
    split; [reflexivity |].
    split; [exact Hnoprov | intros e Hin; apply (Hnosess e Hin)].
Qed.

Lemma count_session_free (l : list Entry) :
  (forall e, In e l -> is_session e = false) ->
  count is_refresh l = 0 /\ count is_token_write l = 0.
Proof.
  intros H; split; apply count_none; intros e Hin;
    apply not_session; auto.
Qed.

(** C6, the defect.  In a call that loads the token, every call to the
    provider comes after the session manager's calls; when the token's
    expiry timestamp is missing, is 0 or is not before the clock reading,
    no refresh call and no token write occur; when it is not 0 and lies
    before the clock reading, exactly one refresh call is made.  But the
    refreshed token is read off the property [credentials] of the client's
    answer: an answer that carries the tokens under [tokens] only leaves
    nothing to persist, so no token file is written, the call returns the
    envelope of the failed initialization and no handler proceeds.  Only
    for an answer with a [credentials] property is exactly one token file
    written, holding it, and when that write is accepted the handler
    proceeds on a context that carries it. *)
Theorem refreshed_token_is_read_off_credentials
  request this w log res this' w' path token :
  exec respond (handleCallTool request) this w = (log, (res, this'), w') ->
  In (E_ReadToken path (inr token)) log ->
  exists init_log handler_log,
    log = (init_log ++ handler_log)%list
    /\ (forall e, In e init_log -> is_provider e = false)
    /\ (forall e, In e handler_log -> is_session e = false)
    /\ (calendar this' = None -> handler_log = [])
    /\ (expiry_date token = None \/ expiry_date token = Some 0%Z ->
        count is_refresh log = 0 /\ count is_token_write log = 0)
    /\ (forall expiry,
           expiry_date token = Some expiry -> expiry <> 0%Z ->
           exists now,
             In (E_DateNow now) init_log
             /\ ((now <= expiry)%Z ->
                 count is_refresh log = 0 /\ count is_token_write log = 0)
             /\ ((expiry < now)%Z ->
                 exists client reply,
                   count is_refresh log = 1
                   /\ In (E_RefreshToken client (refresh_token token) reply)
                         init_log
                   /\ (forall answer,
                          reply = inr answer ->
                          ans_credentials answer = None ->
                          count is_token_write log = 0
                          /\ handler_log = []
                          /\ calendar this' = None
                          /\ res = Normal (flagged initialization_refused))
                   /\ (forall answer fresh,
                          reply = inr answer ->
                          ans_credentials answer = Some fresh ->
                          count is_token_write log = 1
                          /\ exists written,
                               In (E_WriteToken path fresh written) init_log
                               /\ (written = inr tt ->
                                   exists cal,
                                     calendar this' = Some cal
                                     /\ credentials (auth cal) = Some fresh)))).
Proof.
  intros Hexec Hin.
  destruct (session_calls_in_initialization request this w Hexec)
    as (l1 & l2 & early & this1 & w1 & -> & Hinit & Hearly & Hstop & ->
        & Hnoprov & Hnosess).
  assert (Hin1 : In (E_ReadToken path (inr token)) l1).
  { apply in_app_or in Hin as [Hin | Hin]; [exact Hin |].
    specialize (Hnosess _ Hin); discriminate. }
  destruct (count_session_free l2 Hnosess) as [Hr2 Hw2].
  run_facts Hinit (ensure_initialized_spec respond this w) Hspec.
  destruct Hspec as (_ & Hended & _ & Hrefresh).
  destruct (Hrefresh path token Hin1) as (Hpath & Hfalsy & Hexp).
  exists l1, l2; rewrite !count_app, Hr2, Hw2, !Nat.add_0_r.
  split; [reflexivity |].
  split; [exact Hnoprov |].
  split; [exact Hnosess |].
  split.
  { intros Hnone; destruct early as [envelope |];
      [apply (Hstop envelope eq_refl) |].
    destruct Hearly as [Hearly _]; now destruct (Hearly eq_refl). }
  split.
  { intros [Hn | Hz]; apply Hfalsy; [rewrite Hn | rewrite Hz]; reflexivity. }
  intros expiry He Hne.
  destruct (Hexp expiry He Hne) as (now & Hnow & Hle & Hlt).
  exists now; split; [exact Hnow | split; [exact Hle |]].
  intros Hpast.
  destruct (Hlt Hpast) as (creds & client & reply & Hone & Hlog).
  exists client, reply; split; [exact Hone |].
  destruct reply as [msg | [[fresh |] tokens]].
  - destruct Hlog as [-> _].
    split; [unfold refreshing; simpl; auto |].
    split; intros answer; intros; discriminate.
  - destruct Hlog as (written & -> & Hres).
    split; [unfold refreshing; simpl; auto |].
    split; [intros answer [= <-] Habs; discriminate Habs |].
    intros answer fresh' [= <-] [= <-].
    split; [reflexivity |].
    exists written; split; [apply in_or_app; right; left; reflexivity |].
    intros ->; destruct Hres as (cal & _ & Hcal & Hfresh).
    exists cal; split; [exact Hcal | exact Hfresh].
  - destruct Hlog as [-> Hres].
    split; [unfold refreshing; simpl; auto |].
    split; [| intros answer fresh [= <-] Habs; discriminate Habs].
    intros answer _ _.
    injection Hres as ->.
    destruct (Hstop _ eq_refl) as [-> ->].
    split; [reflexivity |]. split; [reflexivity |].
    split; [| reflexivity].
    destruct (calendar this1) eqn:Hcal; [| reflexivity].
    destruct Hearly as [_ Hearly]; discriminate Hearly; congruence.
Qed.


Lemma truthy_omit_empty (s : option string) : truthy (omit_empty s) = truthy s.
Proof.
  destruct s as [u |]; [| reflexivity]; simpl.
  destruct (String.eqb_spec u ""); simpl; [reflexivity |].
  now apply negb_true_iff, String.eqb_neq.
Qed.

Lemma or_empty_omit_empty (s : option string) :
  or_empty (omit_empty s) = or_empty s.
Proof.
  rewrite !or_empty_default.
  destruct s as [u |]; [| reflexivity]; simpl.
  destruct (String.eqb_spec u ""); subst; reflexivity.
Qed.

Lemma try_dispatch_omit_empty (args : Args) :
  try_dispatch {| params_name := "create_meeting";
                  params_arguments := Some args |}
  = try_dispatch {| params_name := "create_meeting";
                    params_arguments := Some (omit_empty_required args) |}.
Proof.
  unfold try_dispatch, dispatch;
    cbn [params_name params_arguments default_to String.eqb Ascii.eqb
         Bool.eqb andb omit_empty_required a_summary a_start_time a_end_time
         a_description a_attendees a_time_zone].
  now rewrite !truthy_omit_empty, !or_empty_omit_empty.
Qed.

Lemma try_dispatch_create_missing args this w :
  protocol_error {| params_name := "create_meeting";
                    params_arguments := Some args |} = Some InvalidParams ->
  post respond
       (try_dispatch {| params_name := "create_meeting";
                        params_arguments := Some args |}) this w
       (fun log r this' w' =>
          r = Throw (McpError InvalidParams
                       ("Missing required parameters: "
                        ++ join ", " (missing_required args)))).
Proof.
  unfold protocol_error, try_dispatch, dispatch, missing_required;
    cbn [params_name params_arguments default_to String.eqb Ascii.eqb
         Bool.eqb andb].
  destruct (truthy (a_summary args)), (truthy (a_start_time args)),
    (truthy (a_end_time args)); cbn [andb negb orb]; try discriminate;
    intros _; wp; reflexivity.
Qed.

(** C10 (amended): a [create_meeting] call whose summary, start_time or
    end_time is the empty string runs exactly as the call with that
    argument omitted, and makes no provider call; once a context is there
    it fails with a thrown InvalidParams whose message lists the field
    among the missing required parameters; when the initialization fails
    it returns the error-flagged envelope of the initialization instead. *)
Theorem create_meeting_empty_required_field_is_missing
  args this w log res this' w' :
  a_summary args = Some "" \/ a_start_time args = Some ""
  \/ a_end_time args = Some "" ->
  exec respond (handleCallTool {| params_name := "create_meeting";
                                  params_arguments := Some args |}) this w
  = (log, (res, this'), w') ->
  exec respond (handleCallTool
                  {| params_name := "create_meeting";
                     params_arguments := Some (omit_empty_required args) |})
       this w
  = (log, (res, this'), w')
  /\ (forall e, In e log -> is_provider e = false)
  /\ (calendar this' <> None ->
      res = Throw (McpError InvalidParams
                     ("Missing required parameters: "
                      ++ join ", " (missing_required args)))
      /\ (a_summary args = Some "" -> In "summary" (missing_required args))
      /\ (a_start_time args = Some "" ->
          In "start_time" (missing_required args))
      /\ (a_end_time args = Some "" -> In "end_time" (missing_required args)))
  /\ (calendar this' = None ->
      exists msg,
        res = Normal {| text := Str ("Error initializing Google Meet API: "
                                     ++ msg);
                        isError := true |}).
Proof.
  intros Hempty Hexec.
  set (request := {| params_name := "create_meeting";
                     params_arguments := Some args |}) in *.
  assert (Hpe : protocol_error request = Some InvalidParams).
  { unfold protocol_error, request;
      cbn [params_name params_arguments default_to String.eqb Ascii.eqb
           Bool.eqb andb].
    destruct Hempty as [-> | [-> | ->]]; cbn [truthy String.eqb negb andb];
      rewrite ?andb_false_r; reflexivity. }
  split.
  { unfold handleCallTool in *; rewrite <- try_dispatch_omit_empty; exact Hexec. }
  split; [exact (protocol_error_calls_no_provider request this w Hpe Hexec) |].
  split; [| exact (failed_initialization_is_flagged request this w Hexec)].
  intros Hcal; split.
  - apply handleCallTool_cases in Hexec
      as [(msg & _ & Hnone & -> & _)
         | (l1 & l2 & this1 & w1 & cal & -> & _ & _ & -> & Hdisp)];
      [congruence |].
    subst request.
    run_facts Hdisp (try_dispatch_create_missing args this1 w1 Hpe) Hspec.
    exact Hspec.
  - unfold missing_required.
    repeat split; intros ->; cbn [truthy String.eqb negb];
      repeat (apply in_or_app; first [left; simpl; tauto | right]);
      simpl; tauto.
Qed.

End Claims.

(** ** The gateway on concrete calls *)

(** Both sides of a run's equation evaluate to the same outcome. *)
Ltac by_running := vm_compute; reflexivity.

(** An entry of an evaluated log. *)
Ltac in_the_log := vm_compute; auto 10.

(** C2, on the simulated calendar: of its four events only [evt1] is
    listed. *)
Lemma list_meetings_on_the_calendar :
  Sim.result_of Sim.listing
  = Normal {| text := JSON_meetings
                        (mapped_meetings (or_nil (Some (Sim.events Sim.w_valid))));
              isError := false |}
  /\ length (mapped_meetings (or_nil (Some (Sim.events Sim.w_valid)))) = 1.
Proof.
  destruct (@list_meetings_drops_events_without_video
              Sim.World Sim.respond
              (Sim.call "list_meetings" no_args) Sim.ready Sim.w_valid
              (Sim.log_of Sim.listing) (Sim.result_of Sim.listing)
              (Sim.api_of Sim.listing) (Sim.world_of Sim.listing)
              Sim.ready_calendar Sim.list_params
              (Some (Sim.events Sim.w_valid)))
    as (Hres & _ & _).
  - by_running.
  - in_the_log.
  - split; [exact Hres | reflexivity].
Defined.

(** C3, on the event that has a phone entry point only. *)
Lemma get_meeting_on_phone_only_event :
  exists msg,
    Sim.result_of Sim.lookup_phone_only
    = Normal {| text := Str msg; isError := true |}
    /\ contains "Failed to format" msg.
Proof.
  destruct (@get_meeting_without_video_is_an_error
              Sim.World Sim.respond
              (Sim.call "get_meeting" (Sim.with_id "evt2")) Sim.ready Sim.w_valid
              (Sim.log_of Sim.lookup_phone_only)
              (Sim.result_of Sim.lookup_phone_only)
              (Sim.api_of Sim.lookup_phone_only)
              (Sim.world_of Sim.lookup_phone_only)
              Sim.ready_calendar "evt2" (Some 1%Z) Sim.evt2)
    as (msg & Hres & _ & Hformat).
  - reflexivity.
  - by_running.
  - in_the_log.
  - reflexivity.
  - exists msg; split; [exact Hres | apply Hformat; discriminate].
Defined.

(** C7, on [update_meeting("evt1", { description: "", attendees:
    ["c@x.com"] })]: the event written back is the fetched one with an
    empty description and the one attendee. *)
Lemma update_meeting_clears_description :
  exists fetched payload reply,
    In (E_EventsGet Sim.ready_calendar "evt1" None (inr fetched))
       (Sim.log_of Sim.inviting)
    /\ In (E_EventsUpdate Sim.ready_calendar "evt1" payload reply)
          (Sim.log_of Sim.inviting)
    /\ ev_description payload = Some ""
    /\ ev_attendees payload
       = Some [{| at_email := Some "c@x.com"; at_responseStatus := None |}]
    /\ ev_summary payload = ev_summary fetched
    /\ ev_start payload = ev_start fetched.
Proof.
  destruct (@update_meeting_writes_back_provided_fields_only
              Sim.World Sim.respond
              (Sim.call "update_meeting" Sim.clear_and_invite)
              Sim.ready Sim.w_valid
              (Sim.log_of Sim.inviting) (Sim.result_of Sim.inviting)
              (Sim.api_of Sim.inviting) (Sim.world_of Sim.inviting))
    as [Hwritten Hmade].
  - by_running.
  - destruct (Hmade Sim.ready_calendar "evt1" Sim.evt1)
      as (payload & reply & Hupdate).
    + in_the_log.
    + intros Hgiven; exfalso; apply Hgiven; reflexivity.
    + intros Hgiven; exfalso; apply Hgiven; reflexivity.
    + destruct (Hwritten Sim.ready_calendar "evt1" payload reply Hupdate)
        as (fetched & Hget & Hsummary & Hdescription & _ & _ & _ & Hstart
            & _ & _ & _ & _ & Hattendees & _).
      exists fetched, payload, reply.
      split; [exact Hget |]. split; [exact Hupdate |].
      split; [exact Hdescription |]. split; [exact Hattendees |].
      split; [exact Hsummary | apply Hstart; reflexivity].
Defined.

(** C8, on a provider that attaches a phone entry point only to the
    inserted event. *)
Lemma create_meeting_without_video_conference :
  exists msg,
    Sim.result_of Sim.creating_without_video
    = Normal {| text := Str msg; isError := true |}.
Proof.
  eapply (@create_or_update_without_video_is_an_error
            Sim.World Sim.respond
            (Sim.call "create_meeting" Sim.standup) Sim.ready Sim.w_no_video
            (Sim.log_of Sim.creating_without_video)
            (Sim.result_of Sim.creating_without_video)
            (Sim.api_of Sim.creating_without_video)
            (Sim.world_of Sim.creating_without_video)).
  - by_running.
  - left; do 2 eexists; cbv; right; left; reflexivity.
  - reflexivity.
Defined.



(** C5, as stated, fails: while the token file is missing, an
    [update_meeting] call with [meeting_id] only gets the error-flagged
    envelope of the initialization, not a thrown InvalidParams. *)
Lemma update_without_fields_is_flagged_while_initialization_fails :
  a_meeting_id (Sim.with_id "evt1") = Some "evt1"
  /\ Sim.result_of Sim.update_nothing_no_token
     = Normal {| text := Str ("Error initializing Google Meet API: "
                               ++ No_valid_credentials);
                 isError := true |}.
Proof. split; reflexivity. Qed.

(** C5, on the initialized gateway. *)
Lemma update_without_fields_on_context :
  (forall e, In e (Sim.log_of Sim.update_nothing) -> is_provider e = false)
  /\ exists msg,
       Sim.result_of Sim.update_nothing = Throw (McpError InvalidParams msg).
Proof.
  destruct (@update_meeting_without_fields_calls_no_provider
              Sim.World Sim.respond
              (Sim.call "update_meeting" (Sim.with_id "evt1"))
              (Sim.with_id "evt1") Sim.ready Sim.w_valid
              (Sim.log_of Sim.update_nothing)
              (Sim.result_of Sim.update_nothing)
              (Sim.api_of Sim.update_nothing)
              (Sim.world_of Sim.update_nothing))
    as (Hnone & Hthrown & _);
    [reflexivity | reflexivity | reflexivity | reflexivity | reflexivity
    | reflexivity | reflexivity | by_running |].
  split; [exact Hnone | apply Hthrown; discriminate].
Defined.

(** A token whose expiry timestamp is 0 lies in the past of the clock, yet
    the initialization makes no refresh call and writes no token file, and
    the handler proceeds: the test of [initialize] begins with
    [token.expiry_date &&]. *)
Lemma expiry_zero_is_not_refreshed :
  In (E_ReadToken "token.json" (inr (Sim.token (Some 0%Z))))
     (Sim.log_of Sim.first_call_zero)
  /\ expiry_in_the_past (Sim.token (Some 0%Z)) (Sim.now Sim.w_zero)
  /\ count is_refresh (Sim.log_of Sim.first_call_zero) = 0
  /\ count is_token_write (Sim.log_of Sim.first_call_zero) = 0
  /\ count is_provider (Sim.log_of Sim.first_call_zero) = 1.
Proof.
  split; [in_the_log |].
  split; [exists 0%Z; split; [reflexivity | reflexivity] |].
  repeat split.
Qed.

(** C6, on a first call made after the stored token expired (expiry 100,
    clock 500), the client answering the refresh with the tokens under
    [tokens]: one refresh call, no token file written, and the call
    returns the envelope of the failed initialization. *)
Lemma expired_token_is_refreshed_but_not_persisted :
  count is_refresh (Sim.log_of Sim.first_call_expired) = 1
  /\ count is_token_write (Sim.log_of Sim.first_call_expired) = 0
  /\ calendar (Sim.api_of Sim.first_call_expired) = None
  /\ Sim.result_of Sim.first_call_expired
     = Normal (flagged initialization_refused).
Proof.
  destruct (@refreshed_token_is_read_off_credentials
              Sim.World Sim.respond
              (Sim.call "get_meeting" (Sim.with_id "evt1")) Sim.api
              Sim.w_expired
              (Sim.log_of Sim.first_call_expired)
              (Sim.result_of Sim.first_call_expired)
              (Sim.api_of Sim.first_call_expired)
              (Sim.world_of Sim.first_call_expired)
              "token.json" Sim.stored_token)
    as (init_log & handler_log & Hlog & _ & _ & _ & _ & Hexpired).
  - by_running.
  - in_the_log.
  - destruct (Hexpired 100%Z eq_refl) as (now & Hnow & _ & Hpast);
      [discriminate |].
    assert (Hclock : In (E_DateNow now) (Sim.log_of Sim.first_call_expired))
      by (rewrite Hlog; apply in_or_app; left; exact Hnow).
    assert (Heq : now = 500%Z).
    { vm_compute in Hclock.
      repeat (destruct Hclock as [Hclock | Hclock];
              [first [discriminate Hclock | now injection Hclock] |]).
      destruct Hclock. }
    subst now.
    destruct Hpast as (client & reply & Hone & Hrefresh & Hnothing & _);
      [reflexivity |].
    assert (Hcall : In (E_RefreshToken client
                          (refresh_token Sim.stored_token) reply)
                       (Sim.log_of Sim.first_call_expired))
      by (rewrite Hlog; apply in_or_app; left; exact Hrefresh).
    assert (Hreply : reply = inr Sim.refresh_answer).
    { vm_compute in Hcall.
      repeat (destruct Hcall as [Hcall | Hcall];
              [first [discriminate Hcall | now injection Hcall] |]).
      destruct Hcall. }
    destruct (Hnothing Sim.refresh_answer Hreply eq_refl)
      as (Hwrite & _ & Hcontext & Hresult).
    split; [exact Hone |]. split; [exact Hwrite |].
    split; [exact Hcontext | exact Hresult].
Defined.


(** C10, as stated, fails: while the token file is missing, a
    [create_meeting] call with an empty summary gets the error-flagged
    envelope of the initialization, not a thrown InvalidParams. *)
Lemma empty_summary_is_flagged_while_initialization_fails :
  a_summary Sim.empty_summary = Some ""
  /\ Sim.result_of Sim.create_empty_no_token
     = Normal {| text := Str ("Error initializing Google Meet API: "
                               ++ No_valid_credentials);
                 isError := true |}.
Proof. split; reflexivity. Qed.

(** C10, on the initialized gateway: the empty summary is reported
    missing. *)
Lemma empty_summary_is_missing_on_context :
  Sim.result_of Sim.create_empty
  = Throw (McpError InvalidParams "Missing required parameters: summary").
Proof.
  destruct (@create_meeting_empty_required_field_is_missing
              Sim.World Sim.respond Sim.empty_summary Sim.ready Sim.w_valid
              (Sim.log_of Sim.create_empty) (Sim.result_of Sim.create_empty)
              (Sim.api_of Sim.create_empty) (Sim.world_of Sim.create_empty))
    as (_ & _ & Hthrown & _).
  - left; reflexivity.
  - by_running.
  - destruct Hthrown as [Hres _]; [discriminate | exact Hres].
Defined.

(** ** Further properties: the session *)

Section Session.

Variable World : Type.
Variable respond : forall c : Cmd, World -> Reply c * World.

(** The paths of [initialize], by what they leave behind. *)
Lemma initialize_outcomes this w :
  post respond initialize this w (fun log r this' w' =>
    (exists reply rest,
        log = E_ReadCredentials (credentialsPath this) reply :: rest)
    /\ (forall e msg, In e log -> rejection e = Some msg ->
        r = Throw (Error (initialization_message e msg)))
    /\ (forall path creds,
           In (E_ReadCredentials path (inr creds)) log ->
           web creds = None -> installed creds = None ->
           r = Throw (Error Invalid_credentials_format))
    /\ (forall u, r = Normal u ->
        exists creds credData token cal rest,
          log = E_ReadCredentials (credentialsPath this) (inr creds) :: rest
          /\ (forall d, web creds = Some d -> credData = d)
          /\ (web creds = None -> installed creds = Some credData)
          /\ this' = {| credentialsPath := credentialsPath this;
                        tokenPath := tokenPath this;
                        calendar := Some cal |}
          /\ version cal = "v3"
          /\ client_id (auth cal) = cred_client_id credData
          /\ client_secret (auth cal) = cred_client_secret credData
          /\ redirect_uri (auth cal)
             = opt_chain (cred_redirect_uris credData)
                         (fun uris => nth_error uris 0)
          /\ credentials (auth cal) = Some token
          /\ ((exists client refresh answer,
                  In (E_RefreshToken client refresh (inr answer)) log
                  /\ ans_credentials answer = Some token)
              \/ (count is_refresh log = 0
                  /\ In (E_ReadToken (tokenPath this) (inr token)) log)))).
Proof.
  unfold initialize. wp.
  all: cbn [app entry].
  all: (split; [do 2 eexists; reflexivity |]).
  all: (split; [intros ? ? Hmember Hrejected; in_log;
                cbn [rejection rejected_with] in Hrejected;
                first [discriminate Hrejected
                      | injection Hrejected as <-; reflexivity] |]).
  all: (split; [intros ? ? Hmember Hweb Hinstalled; in_log;
                first [reflexivity
                      | match goal with
                        | H : or_obj (web ?c) (installed ?c) = Some _ |- _ =>
                            rewrite Hweb, Hinstalled in H; discriminate H
                        end] |]).
  all: intros ? Hnormal; try discriminate Hnormal.
  all: match goal with
       | H : or_obj (web ?c) (installed ?c) = Some ?d |- _ =>
           exists c, d
       end.
  all: do 3 eexists.
  all: (split; [reflexivity |]).
  all: (split; [intros d Hd;
                match goal with
                | H : or_obj _ _ = Some _ |- _ =>
                    rewrite Hd in H; injection H as <-; reflexivity
                end |]).
  all: (split; [intros Hd;
                match goal with
                | H : or_obj _ _ = Some _ |- _ =>
                    rewrite Hd in H; exact H
                end |]).
  all: (split; [reflexivity |]).
  all: (split; [reflexivity |]).
  all: (split; [reflexivity |]).
  all: (split; [reflexivity |]).
  all: (split; [match goal with
                | H : cred_redirect_uris _ = Some _ |- _ => rewrite H
                end; reflexivity |]).
  all: (split; [reflexivity |]).
  all: first [right; split; [reflexivity | simpl; auto]
             | left; do 3 eexists; split; [simpl; auto 10 | eassumption]].
Qed.

Lemma ensure_initialized_outcomes this w :
  calendar this = None ->
  post respond ensure_initialized this w (fun log r this' w' =>
    (exists reply rest,
        log = E_ReadCredentials (credentialsPath this) reply :: rest)
    /\ (forall e msg, In e log -> rejection e = Some msg ->
        r = Normal (Some (flagged ("Error initializing Google Meet API: "
                                   ++ initialization_message e msg))))
    /\ (forall path creds,
           In (E_ReadCredentials path (inr creds)) log ->
           web creds = None -> installed creds = None ->
           r = Normal (Some (flagged ("Error initializing Google Meet API: "
                                      ++ Invalid_credentials_format))))
    /\ (r = Normal None ->
        exists creds credData token cal rest,
          log = E_ReadCredentials (credentialsPath this) (inr creds) :: rest
          /\ (forall d, web creds = Some d -> credData = d)
          /\ (web creds = None -> installed creds = Some credData)
          /\ this' = {| credentialsPath := credentialsPath this;
                        tokenPath := tokenPath this;
                        calendar := Some cal |}
          /\ version cal = "v3"
          /\ client_id (auth cal) = cred_client_id credData
          /\ client_secret (auth cal) = cred_client_secret credData
          /\ redirect_uri (auth cal)
             = opt_chain (cred_redirect_uris credData)
                         (fun uris => nth_error uris 0)
          /\ credentials (auth cal) = Some token
          /\ ((exists client refresh answer,
                  In (E_RefreshToken client refresh (inr answer)) log
                  /\ ans_credentials answer = Some token)
              \/ (count is_refresh log = 0
                  /\ In (E_ReadToken (tokenPath this) (inr token)) log)))).
Proof.
  intros Hcal; unfold ensure_initialized.
  apply post_bind, post_get_this; cbv beta iota; rewrite Hcal.
  apply post_try_catch, post_bind.
  eapply post_conseq; [apply initialize_outcomes |].
  intros log r this' w' (Hhead & Hrej & Hformat & Hok).
  destruct r as [u | e]; apply post_ret; rewrite app_nil_r.
  - split; [exact Hhead |].
    split; [intros e msg Hin Hr; discriminate (Hrej e msg Hin Hr) |].
    split; [intros p c Hin Hw Hi; discriminate (Hformat p c Hin Hw Hi) |].
    intros _; exact (Hok u eq_refl).
  - split; [exact Hhead |].
    split; [intros e0 msg Hin Hr;
            pose proof (Hrej e0 msg Hin Hr) as Heq; injection Heq as ->;
            reflexivity |].
    split; [intros p c Hin Hw Hi;
            pose proof (Hformat p c Hin Hw Hi) as Heq; injection Heq as ->;
            reflexivity |].
    discriminate.
Qed.

(** Every file [initialize] touches is one of the two paths the gateway
    was constructed with. *)
Lemma initialize_paths this w :
  post respond initialize this w (fun log r this' w' =>
    forall e path, In e log -> accessed_file e = Some path ->
      path = if is_credentials_read e then credentialsPath this
             else tokenPath this).
Proof.
  unfold initialize. wp.
  all: cbn [app entry].
  all: intros ? ? Hmember Hfile; in_log; cbn [accessed_file] in Hfile;
    first [discriminate Hfile | injection Hfile as <-; reflexivity].
Qed.

Lemma ensure_initialized_paths this w :
  post respond ensure_initialized this w (fun log r this' w' =>
    forall e path, In e log -> accessed_file e = Some path ->
      path = if is_credentials_read e then credentialsPath this
             else tokenPath this).
Proof.
  unfold ensure_initialized.
  apply post_bind, post_get_this; cbv beta iota.
  destruct (calendar this) as [cal |]; cbn [negb truthy].
  - apply post_ret; intros ? ? [].
  - apply post_try_catch, post_bind.
    eapply post_conseq; [apply initialize_paths |].
    intros log r this' w' Hpaths.
    destruct r as [u | e]; apply post_ret; rewrite app_nil_r; exact Hpaths.
Qed.

End Session.

(** ** Further properties: the dispatch *)

Lemma truthy_or_str_none (s : option string) :
  truthy (or_str s None) = truthy s.
Proof. unfold or_str; destruct (truthy s) eqn:E; [exact E | reflexivity]. Qed.

Lemma or_str_none (s : option string) :
  or_str s None = if truthy s then s else None.
Proof. reflexivity. Qed.

(** Run [try_dispatch] on an arbitrary request: one goal per path. *)
Ltac run_tool request :=
  unfold try_dispatch, dispatch, listMeetings, getMeeting, createMeeting,
    updateMeeting, deleteMeeting;
  destruct request as [name args]; cbn [params_name params_arguments] in *;
  set (a := default_to no_args args) in *; clearbody a; clear args;
  wp; cbn [app entry];
  repeat match goal with
    | H : (?n =? _) = true |- _ => apply String.eqb_eq in H; subst n
    end.

Section Tools.

Variable World : Type.
Variable respond : forall c : Cmd, World -> Reply c * World.

Lemma try_dispatch_operations request this w :
  post respond (try_dispatch request) this w (fun log r this' w' =>
    (forall e, In e log -> tool_operation (params_name request) e = true)
    /\ count is_provider log <= 2
    /\ (params_name request <> "update_meeting" -> count is_provider log <= 1)
    /\ (forall e msg, In e log -> is_provider e = true ->
                      rejection e = Some msg ->
                      r = Normal (flagged ("Error: " ++ operation_prefix e
                                           ++ msg)))
    /\ (forall e event meeting,
           In e log -> returned_event e = Some event ->
           _formatMeetingData event = Some meeting ->
           r = Normal {| text := JSON_meeting meeting; isError := false |})
    /\ (forall e i,
           In e log -> addressed_event e = Some i ->
           a_meeting_id (default_to no_args (params_arguments request)) = Some i
           /\ i <> "")
    /\ (forall cal i,
           In (E_EventsDelete cal i (inr tt)) log ->
           r = Normal {| text := Str "Meeting successfully deleted";
                         isError := false |})).
Proof.
  run_tool request.
  all: (split; [intros ? Hmember; in_log; reflexivity |]).
  all: (split; [cbv; lia |]).
  all: (split; [intros Hname;
                first [cbv; lia | exfalso; apply Hname; reflexivity] |]).
  all: (split; [intros ? ? Hmember Hprovider Hrejected; in_log;
                cbn [rejection rejected_with is_provider provider_context]
                  in Hrejected, Hprovider;
                first [discriminate Hprovider | discriminate Hrejected
                      | injection Hrejected as <-; reflexivity] |]).
  all: (split; [intros ? ? ? Hmember Hreturned Hsome; in_log;
                cbn [returned_event] in Hreturned;
                first [discriminate Hreturned
                      | injection Hreturned as <-;
                        first [congruence
                              | rewrite formatMeetingData_without_data in Hsome
                                  by assumption; discriminate Hsome]] |]).
  all: (split; [intros ? ? Hmember Haddressed; in_log;
                cbn [addressed_event] in Haddressed;
                first [discriminate Haddressed
                      | injection Haddressed as <-;
                        match goal with
                        | H : negb (truthy ?x) = false |- _ =>
                            apply negb_false_iff in H;
                            split; [apply or_empty_truthy; exact H |];
                            apply truthy_true in H as (? & Hid & Hnonempty);
                            rewrite Hid, or_empty_default; exact Hnonempty
                        end] |]).
  all: intros ? ? Hmember; in_log; reflexivity.
Qed.

Lemma try_dispatch_list_params request this w :
  post respond (try_dispatch request) this w (fun log r this' w' =>
    let args := default_to no_args (params_arguments request) in
    forall cal params reply,
      In (E_EventsList cal params reply) log ->
      lp_calendarId params = "primary"
      /\ lp_orderBy params = "startTime"
      /\ lp_singleEvents params = true
      /\ lp_conferenceDataVersion params = 1%Z
      /\ lp_maxResults params
         = match a_max_results args with
           | Some n => if (n =? 0)%Z then 10%Z else n
           | None => 10%Z
           end
      /\ lp_timeMax params
         = (if truthy (a_time_max args) then a_time_max args else None)
      /\ (truthy (a_time_min args) = true ->
          a_time_min args = Some (lp_timeMin params)
          /\ forall iso, ~ In (E_DateToISOString iso) log)
      /\ (truthy (a_time_min args) = false ->
          In (E_DateToISOString (lp_timeMin params)) log)).
Proof.
  run_tool request.
  all: intros ? ? ? Hmember; in_log.
  all: cbn [lp_calendarId lp_orderBy lp_singleEvents lp_conferenceDataVersion
            lp_maxResults lp_timeMax lp_timeMin].
  all: do 4 (split; [reflexivity |]).
  all: (split; [destruct (a_max_results a) as [n |]; cbn;
                [destruct (n =? 0)%Z |]; reflexivity |]).
  all: (split; [rewrite truthy_or_str_none, or_str_none;
                destruct (truthy (a_time_max a)); reflexivity |]).
  all: match goal with
       | H : negb (truthy (or_str _ None)) = _ |- _ =>
           rewrite truthy_or_str_none in H
       end.
  all: split; intros Htruthy;
    match goal with
    | H : negb (truthy _) = _ |- _ => rewrite Htruthy in H; cbn in H
    end; try discriminate.
  all: try (simpl; auto; fail).
  all: rewrite or_str_none, Htruthy;
    (split; [apply or_empty_truthy; exact Htruthy |]).
  all: intros iso Hiso; in_log.
Qed.

Lemma try_dispatch_created request this w :
  post respond (try_dispatch request) this w (fun log r this' w' =>
    let args := default_to no_args (params_arguments request) in
    forall cal resource reply,
      In (E_EventsInsert cal resource reply) log ->
      exists now,
        log = [E_DateNow now; E_EventsInsert cal resource reply]
        /\ resource = created_resource args now
        /\ truthy (a_summary args) = true
        /\ truthy (a_start_time args) = true
        /\ truthy (a_end_time args) = true).
Proof.
  run_tool request.
  all: intros ? ? ? Hmember; in_log.
  all: match goal with
       | H : _ || _ || _ = false |- _ =>
           apply orb_false_elim in H as [H Hend];
           apply orb_false_elim in H as [Hsummary Hstart];
           apply negb_false_iff in Hsummary, Hstart, Hend
       end.
  all: eexists; (split; [reflexivity |]).
  all: (split; [| auto]).
  all: unfold created_resource, formatted_attendees.
  all: rewrite (or_empty_truthy _ Hsummary) at 2;
    rewrite (or_empty_truthy _ Hstart) at 2;
    rewrite (or_empty_truthy _ Hend) at 2; reflexivity.
Qed.

Lemma try_dispatch_assignment_fails request this w :
  post respond (try_dispatch request) this w (fun log r this' w' =>
    let args := default_to no_args (params_arguments request) in
    forall cal i fetched error,
      In (E_EventsGet cal i None (inr fetched)) log ->
      assign_fields fetched {| ud_summary := a_summary args;
                               ud_description := a_description args;
                               ud_startTime := a_start_time args;
                               ud_endTime := a_end_time args;
                               ud_attendees := a_attendees args |}
      = Throw error ->
      count is_update log = 0
      /\ r = Normal (flagged ("Error: " ++ "Error updating meeting: "
                              ++ message error))).
Proof.
  run_tool request.
  all: intros ? ? ? ? Hmember Hassign; in_log.
  all: try (match goal with
            | H1 : assign_fields ?f ?u = Normal _,
              H2 : assign_fields ?f ?u = Throw _ |- _ =>
                rewrite H1 in H2; discriminate H2
            end).
  all: match goal with
       | H1 : assign_fields ?f ?u = Throw ?e1,
         H2 : assign_fields ?f ?u = Throw ?e2 |- _ =>
           assert (e1 = e2) by congruence; subst
       end; split; reflexivity.
Qed.

End Tools.

(** ** Further properties of a tool call *)

Lemma session_entry_not_provider (e : Entry) (msg : string) :
  is_provider e = false -> rejection e = Some msg -> is_session e = true.
Proof.
  destruct e; simpl; intros Hp Hr;
    first [reflexivity | discriminate Hp | discriminate Hr].
Qed.

Lemma rejection_is_failure (e : Entry) (msg : string) :
  rejection e = Some msg -> is_failure e = true.
Proof.
  destruct e as [| | ? r | ? r | ? ? r | ? ? r | ? ? r | ? ? ? r | ? ? r
                | ? ? ? r | ? ? r]; simpl; try discriminate;
    destruct r; simpl; intros H; first [reflexivity | discriminate H].
Qed.

Lemma file_entry_is_session (e : Entry) (path : string) :
  accessed_file e = Some path -> is_session e = true.
Proof.
  destruct e; simpl; intros H; first [reflexivity | discriminate H].
Qed.


Lemma count_member (kind : Entry -> bool) (l : list Entry) (e : Entry) :
  In e l -> kind e = true -> 1 <= count kind l.
Proof.
  unfold count; intros Hin Hkind.
  assert (Hmember : In e (filter kind l)) by (apply filter_In; auto).
  destruct (filter kind l); [destruct Hmember | simpl; lia].
Qed.

Lemma assign_fields_fails (fetched : Event) (updateData : UpdateData) :
  (ud_startTime updateData <> None /\ ev_start fetched = None)
  \/ (ud_endTime updateData <> None /\ ev_end fetched = None) ->
  exists error, assign_fields fetched updateData = Throw error.
Proof.
  unfold assign_fields, assign_start_dateTime, assign_end_dateTime.
  destruct updateData as [s d st en att]; simpl.
  intros [[Hgiven Hnone] | [Hgiven Hnone]].
  - destruct st as [st |]; [| congruence].
    destruct s, d; cbn; rewrite Hnone; eexists; reflexivity.
  - destruct en as [en |]; [| congruence].
    destruct s, d, st, (ev_start fetched) eqn:Hstart;
      cbn; rewrite ?Hstart; cbn; rewrite ?Hnone; eexists; reflexivity.
Qed.

Lemma returned_by_provider (e : Entry) (event : Event) :
  returned_event e = Some event -> is_provider e = true.
Proof.
  destruct e; simpl; intros H; first [reflexivity | discriminate H].
Qed.

Lemma addressed_by_provider (e : Entry) (i : string) :
  addressed_event e = Some i -> is_provider e = true.
Proof.
  destruct e; simpl; intros H; first [reflexivity | discriminate H].
Qed.

Lemma not_provider_not_update (e : Entry) :
  is_provider e = false -> is_update e = false.
Proof.
  destruct e; simpl; intros H; first [reflexivity | discriminate H].
Qed.

(** What the tool table declares is what the dispatch enforces. *)
Lemma protocol_error_declared (request : Request) :
  let name := params_name request in
  let args := default_to no_args (params_arguments request) in
  match tool_named name with
  | None => protocol_error request = Some MethodNotFound
  | Some tool =>
      protocol_error request
      = if forallb (fun key => truthy (string_argument key args))
                   (tool_required tool)
           && negb ((name =? "update_meeting") && no_update_field args)
        then None else Some InvalidParams
  end.
Proof.
  unfold protocol_error, tool_named, no_update_field.
  destruct request as [name args]; cbn [params_name params_arguments].
  set (a := default_to no_args args); clearbody a; clear args.
  cbn [find handleListTools tool_name].
  destruct (name =? "list_meetings") eqn:E1;
    [apply String.eqb_eq in E1; subst name; reflexivity |].
  destruct (name =? "get_meeting") eqn:E2;
    [apply String.eqb_eq in E2; subst name; cbn;
     destruct (truthy (a_meeting_id a)); reflexivity |].
  destruct (name =? "create_meeting") eqn:E3;
    [apply String.eqb_eq in E3; subst name; cbn;
     destruct (truthy (a_summary a)), (truthy (a_start_time a)),
       (truthy (a_end_time a)); reflexivity |].
  destruct (name =? "update_meeting") eqn:E4;
    [apply String.eqb_eq in E4; subst name; cbn;
     destruct (truthy (a_meeting_id a)); cbn;
     [rewrite negb_involutive |]; reflexivity |].
  destruct (name =? "delete_meeting") eqn:E5;
    [apply String.eqb_eq in E5; subst name; cbn;
     destruct (truthy (a_meeting_id a)); reflexivity |].
  reflexivity.
Qed.

Section Further.

Variable World : Type.
Variable respond : forall c : Cmd, World -> Reply c * World.

(** A call, split at the end of the initialization: what the session
    manager did, and what the tool did on the context. *)
Lemma handleCallTool_split request this w log res this' w' :
  exec respond (handleCallTool request) this w = (log, (res, this'), w') ->
  exists init_log handler_log this1 w1,
    log = (init_log ++ handler_log)%list
    /\ (forall e, In e init_log -> is_provider e = false)
    /\ (forall e, In e handler_log -> is_session e = false)
    /\ (exists r, exec respond ensure_initialized this w
                  = (init_log, (r, this1), w1))
    /\ (handler_log = []
        \/ exec respond (try_dispatch request) this1 w1
           = (handler_log, (res, this'), w')).
Proof.
  intros Hexec.
  apply handleCallTool_cases in Hexec
    as [(msg & _ & _ & _ & Hinit)
       | (l1 & l2 & this1 & w1 & cal & -> & Hinit & _ & _ & Hdisp)].
  - exists log, [], this, w'; rewrite app_nil_r.
    run_facts Hinit (ensure_initialized_spec respond this w) Hspec.
    destruct Hspec as (Hnoprov & _).
    split; [reflexivity |]. split; [exact Hnoprov |].
    split; [intros ? [] |]. split; [eauto | left; reflexivity].
  - exists l1, l2, this1, w1.
    run_facts Hinit (ensure_initialized_spec respond this w) Hspec.
    destruct Hspec as (Hnoprov & _).
    run_facts Hdisp (try_dispatch_spec respond request this1 w1) Hspec.
    destruct Hspec as (_ & Hsession & _).
    split; [reflexivity |]. split; [exact Hnoprov |].
    split; [intros e Hin; apply (Hsession e Hin) |].
    split; [eauto | right; exact Hdisp].
Qed.

(** A provider call is made by the tool, after an initialization that
    made none. *)
Lemma provider_call_after_initialization
  request this w log res this' w' e :
  exec respond (handleCallTool request) this w = (log, (res, this'), w') ->
  In e log -> is_provider e = true ->
  exists init_log handler_log this1 w1,
    log = (init_log ++ handler_log)%list
    /\ (forall e, In e init_log -> is_provider e = false)
    /\ In e handler_log
    /\ exec respond (try_dispatch request) this1 w1
       = (handler_log, (res, this'), w').
Proof.
  intros Hexec Hin Hprov.
  apply handleCallTool_split in Hexec
    as (l1 & l2 & this1 & w1 & Hlog & Hinit & _ & _ & Hhandler).
  assert (Hin2 : In e l2).
  { rewrite Hlog in Hin; apply in_app_or in Hin as [Hin | Hin];
      [| exact Hin].
    rewrite (Hinit e Hin) in Hprov; discriminate Hprov. }
  destruct Hhandler as [Hnil | Hdisp];
    [rewrite Hnil in Hin2; destruct Hin2 |].
  exists l1, l2, this1, w1; auto.
Qed.


(** X2: the query [list_meetings] sends: the primary calendar, ordered by
    start time with recurring events expanded and conference data asked
    for; [maxResults] is [max_results], or 10 when that is missing or 0;
    [timeMin] is [time_min], or the clock's ISO string read in this call
    when [time_min] is missing or empty; [timeMax] is sent only for a
    non-empty [time_max]. *)
Theorem list_meetings_query
  request this w log res this' w' cal params reply :
  exec respond (handleCallTool request) this w = (log, (res, this'), w') ->
  In (E_EventsList cal params reply) log ->
  let args := default_to no_args (params_arguments request) in
  lp_calendarId params = "primary"
  /\ lp_orderBy params = "startTime"
  /\ lp_singleEvents params = true
  /\ lp_conferenceDataVersion params = 1%Z
  /\ lp_maxResults params
     = match a_max_results args with
       | Some n => if (n =? 0)%Z then 10%Z else n
       | None => 10%Z
       end
  /\ lp_timeMax params
     = (if truthy (a_time_max args) then a_time_max args else None)
  /\ (truthy (a_time_min args) = true ->
      a_time_min args = Some (lp_timeMin params))
  /\ (truthy (a_time_min args) = false ->
      In (E_DateToISOString (lp_timeMin params)) log).
Proof.
  intros Hexec Hin args.
  edestruct provider_call_in_dispatch
    as (l1 & l2 & this1 & w1 & -> & Hin2 & Hdisp);
    [exact Hexec | exact Hin | reflexivity |].
  run_facts Hdisp (try_dispatch_list_params respond request this1 w1) Hspec.
  destruct (Hspec _ _ _ Hin2)
    as (Hcal & Horder & Hsingle & Hconf & Hmax & Htmax & Hgiven & Hclock).
  split; [exact Hcal |]. split; [exact Horder |]. split; [exact Hsingle |].
  split; [exact Hconf |]. split; [exact Hmax |]. split; [exact Htmax |].
  split; [intros Ht; apply (Hgiven Ht) |].
  intros Ht; apply in_or_app; right; apply (Hclock Ht).
Qed.

(** X3: the event [create_meeting] inserts is built from the arguments
    alone: summary, start and end as given (all three non-empty), the
    description defaulting to the empty string, the time zone to UTC, the
    attendees to none, each address becoming an attendee; and it asks for
    a conference under the request id made of the clock reading taken
    just before the insert, which is the tool's only provider call. *)
Theorem create_meeting_payload
  request this w log res this' w' cal resource reply :
  exec respond (handleCallTool request) this w = (log, (res, this'), w') ->
  In (E_EventsInsert cal resource reply) log ->
  let args := default_to no_args (params_arguments request) in
  exists init_log now,
    log = (init_log ++ [E_DateNow now; E_EventsInsert cal resource reply])%list
    /\ resource = created_resource args now
    /\ truthy (a_summary args) = true
    /\ truthy (a_start_time args) = true
    /\ truthy (a_end_time args) = true.
Proof.
  intros Hexec Hin args.
  edestruct provider_call_in_dispatch
    as (l1 & l2 & this1 & w1 & -> & Hin2 & Hdisp);
    [exact Hexec | exact Hin | reflexivity |].
  run_facts Hdisp (try_dispatch_created respond request this1 w1) Hspec.
  destruct (Hspec _ _ _ Hin2) as (now & Hlog & Hres & Hs & Hst & Hen).
  exists l1, now; rewrite Hlog; auto.
Qed.

(** X4: when the provider rejects a call, the tool call returns an
    error-flagged envelope whose text is ["Error: "], the prefix of the
    client method that made the call, and the provider's message,
    unchanged. *)
Theorem provider_rejection_is_reported
  request this w log res this' w' e msg :
  exec respond (handleCallTool request) this w = (log, (res, this'), w') ->
  In e log -> is_provider e = true -> rejection e = Some msg ->
  res = Normal (flagged ("Error: " ++ operation_prefix e ++ msg)).
Proof.
  intros Hexec Hin Hprov Hrej.
  edestruct provider_call_in_dispatch
    as (l1 & l2 & this1 & w1 & _ & Hin2 & Hdisp);
    [exact Hexec | exact Hin | exact Hprov |].
  run_facts Hdisp (try_dispatch_operations respond request this1 w1) Hspec.
  destruct Hspec as (_ & _ & _ & Hrejected & _).
  apply (Hrejected e msg Hin2 Hprov Hrej).
Qed.

(** X5: when a call of the session manager is rejected, the tool call
    returns the error-flagged envelope of the initialization: with the
    message of the rejection when the credentials file could not be read,
    and with the fixed text that asks to run the setup script when the
    token file could not be read, the refresh failed or the token could
    not be written; a credentials file with neither [web] nor [installed]
    is reported as an invalid format. *)
Theorem initialization_failure_is_reported
  request this w log res this' w' :
  exec respond (handleCallTool request) this w = (log, (res, this'), w') ->
  (forall e msg, In e log -> is_provider e = false ->
     rejection e = Some msg ->
     res = Normal (flagged ("Error initializing Google Meet API: "
                            ++ initialization_message e msg)))
  /\ (forall path creds,
        In (E_ReadCredentials path (inr creds)) log ->
        web creds = None -> installed creds = None ->
        res = Normal (flagged ("Error initializing Google Meet API: "
                               ++ Invalid_credentials_format))).
Proof.
  intros Hexec.
  apply handleCallTool_cases in Hexec
    as [(m & -> & Hnone & _ & Hinit)
       | (l1 & l2 & this1 & w1 & cal & -> & Hinit & _ & _ & Hdisp)].
  - run_facts Hinit (@ensure_initialized_outcomes World respond this w Hnone) Hout.
    destruct Hout as (_ & Hrejected & Hformat & _).
    split.
    + intros e msg Hin _ Hrej.
      pose proof (Hrejected e msg Hin Hrej) as Heq.
      injection Heq as Heq; rewrite Heq; reflexivity.
    + intros path creds Hin Hweb Hinstalled.
      pose proof (Hformat path creds Hin Hweb Hinstalled) as Heq.
      injection Heq as Heq; rewrite Heq; reflexivity.
  - run_facts Hinit (ensure_initialized_spec respond this w) Hspec.
    destruct Hspec as (_ & [(_ & _ & Hok) | (m & Habs & _)] & Hready & _);
      [| discriminate Habs].
    run_facts Hdisp (try_dispatch_spec respond request this1 w1) Hspec.
    destruct Hspec as (_ & Hsession & _).
    split.
    + intros e msg Hin Hprov Hrej; exfalso.
      apply in_app_or in Hin as [Hin | Hin].
      * pose proof (Hok e Hin) as Hfine.
        rewrite (rejection_is_failure e Hrej) in Hfine; discriminate Hfine.
      * destruct (Hsession e Hin) as [Hno _].
        rewrite (session_entry_not_provider e Hprov Hrej) in Hno.
        discriminate Hno.
    + intros path creds Hin Hweb Hinstalled; exfalso.
      apply in_app_or in Hin as [Hin | Hin].
      * destruct (calendar this) as [c |] eqn:Hcal.
        -- destruct (Hready c eq_refl) as [Hnil _]; rewrite Hnil in Hin.
           destruct Hin.
        -- run_facts Hinit (@ensure_initialized_outcomes World respond this w Hcal) Hout.
           destruct Hout as (_ & _ & Hformat & _).
           discriminate (Hformat path creds Hin Hweb Hinstalled).
      * destruct (Hsession _ Hin) as [Hno _]; discriminate Hno.
Qed.

(** A call on a gateway without context starts by reading the
    credentials file. *)
Lemma uninitialized_call_reads_credentials request this w log res this' w' :
  calendar this = None ->
  exec respond (handleCallTool request) this w = (log, (res, this'), w') ->
  exists reply rest,
    log = E_ReadCredentials (credentialsPath this) reply :: rest.
Proof.
  intros Hnone Hexec.
  apply handleCallTool_cases in Hexec
    as [(m & _ & _ & _ & Hinit)
       | (l1 & l2 & this1 & w1 & cal & -> & Hinit & _ & _ & _)];
    run_facts Hinit (@ensure_initialized_outcomes World respond this w Hnone)
              Hout;
    destruct Hout as ((reply & rest & Hhead) & _).
  - exists reply, rest; exact Hhead.
  - exists reply, (rest ++ l2)%list; rewrite Hhead; reflexivity.
Qed.

(** The files a call touches are the two the gateway was constructed
    with. *)
Lemma call_touches_its_own_files request this w log res this' w' :
  exec respond (handleCallTool request) this w = (log, (res, this'), w') ->
  forall e path, In e log -> accessed_file e = Some path ->
    path = if is_credentials_read e then credentialsPath this
           else tokenPath this.
Proof.
  intros Hexec e path Hin Hfile.
  apply handleCallTool_split in Hexec
    as (l1 & l2 & this1 & w1 & -> & _ & Hhandler & (r & Hinit) & _).
  apply in_app_or in Hin as [Hin | Hin].
  - run_facts Hinit (ensure_initialized_paths respond this w) Hpaths.
    apply (Hpaths e path Hin Hfile).
  - pose proof (Hhandler e Hin) as Hno.
    rewrite (file_entry_is_session e Hfile) in Hno; discriminate Hno.
Qed.

(** X6: a call whose initialization fails leaves the gateway as it was,
    without context; the next call, whatever it asks for, starts the
    initialization again by reading the credentials file. *)
Theorem failed_initialization_is_retried
  request this w log res this' w' request2 w2 log2 res2 this2 w2' :
  exec respond (handleCallTool request) this w = (log, (res, this'), w') ->
  calendar this' = None ->
  exec respond (handleCallTool request2) this' w2
  = (log2, (res2, this2), w2') ->
  this' = this
  /\ exists reply rest,
       log2 = E_ReadCredentials (credentialsPath this) reply :: rest.
Proof.
  intros Hexec Hnone Hnext.
  apply handleCallTool_cases in Hexec
    as [(m & _ & _ & Hsame & _)
       | (l1 & l2 & this1 & w1 & cal & _ & _ & Hcal & Hsame & _)].
  - split; [exact Hsame |].
    rewrite <- Hsame.
    eapply uninitialized_call_reads_credentials; [exact Hnone | exact Hnext].
  - rewrite Hsame in Hnone; congruence.
Qed.

(** X7: the context a call leaves on a gateway that had none is built from
    the credentials file at the gateway's credentials path: the [web]
    client when the file has one, else the [installed] one, with the first
    registered redirect URI; its token is the one read from the token
    file, or, when a refresh was made, the one under [credentials] in the
    answer to it; the two paths of the gateway stay as they were. *)
Theorem context_is_built_from_the_credentials_file
  request this w log res this' w' cal :
  exec respond (handleCallTool request) this w = (log, (res, this'), w') ->
  calendar this = None -> calendar this' = Some cal ->
  exists creds credData token,
    (exists rest,
        log = E_ReadCredentials (credentialsPath this) (inr creds) :: rest)
    /\ (forall d, web creds = Some d -> credData = d)
    /\ (web creds = None -> installed creds = Some credData)
    /\ credentialsPath this' = credentialsPath this
    /\ tokenPath this' = tokenPath this
    /\ version cal = "v3"
    /\ client_id (auth cal) = cred_client_id credData
    /\ client_secret (auth cal) = cred_client_secret credData
    /\ redirect_uri (auth cal)
       = opt_chain (cred_redirect_uris credData)
                   (fun uris => nth_error uris 0)
    /\ credentials (auth cal) = Some token
    /\ ((exists client refresh answer,
            In (E_RefreshToken client refresh (inr answer)) log
            /\ ans_credentials answer = Some token)
        \/ (count is_refresh log = 0
            /\ In (E_ReadToken (tokenPath this) (inr token)) log)).
Proof.
  intros Hexec Hnone Hcal.
  apply handleCallTool_cases in Hexec
    as [(m & _ & _ & Hsame & _)
       | (l1 & l2 & this1 & w1 & cal1 & -> & Hinit & Hcal1 & Hsame & Hdisp)];
    [rewrite Hsame in Hcal; congruence |].
  run_facts Hdisp (try_dispatch_spec respond request this1 w1) Hspec.
  destruct Hspec as (_ & Hsession & _).
  run_facts Hinit (@ensure_initialized_outcomes World respond this w Hnone)
            Hout.
  destruct Hout as (_ & _ & _ & Hnormal).
  destruct (Hnormal eq_refl)
    as (creds & credData & token & c & rest & Hhead & Hweb & Hinstalled
        & Hthis & Hversion & Hid & Hsecret & Huri & Htoken & Hsource).
  rewrite Hsame, Hthis in Hcal; cbn [calendar] in Hcal.
  injection Hcal as ->.
  exists creds, credData, token.
  split; [exists (rest ++ l2)%list; rewrite Hhead; reflexivity |].
  split; [exact Hweb |]. split; [exact Hinstalled |].
  split; [rewrite Hsame, Hthis; reflexivity |].
  split; [rewrite Hsame, Hthis; reflexivity |].
  split; [exact Hversion |]. split; [exact Hid |]. split; [exact Hsecret |].
  split; [exact Huri |]. split; [exact Htoken |].
  destruct Hsource as [(client & refresh & answer & Hin & Hanswer)
                      | (Hcount & Hin)].
  - left; exists client, refresh, answer.
    split; [apply in_or_app; left; exact Hin | exact Hanswer].
  - right; split; [| apply in_or_app; left; exact Hin].
    rewrite count_app, Hcount, count_none; [reflexivity |].
    intros e He; destruct (Hsession e He) as [Hno _].
    apply not_session in Hno as (_ & Hrefresh & _); exact Hrefresh.
Qed.

(** X8: when the event the provider returned to [get_meeting],
    [create_meeting] or [update_meeting] maps to a meeting, the call
    returns that meeting, in an envelope that is not error-flagged: the
    answer is read off the provider's event, not off the arguments. *)
Theorem returned_meeting_is_the_answer
  request this w log res this' w' e event meeting :
  exec respond (handleCallTool request) this w = (log, (res, this'), w') ->
  In e log -> returned_event e = Some event ->
  _formatMeetingData event = Some meeting ->
  res = Normal {| text := JSON_meeting meeting; isError := false |}.
Proof.
  intros Hexec Hin Hreturned Hmeeting.
  edestruct provider_call_in_dispatch
    as (l1 & l2 & this1 & w1 & _ & Hin2 & Hdisp);
    [exact Hexec | exact Hin | apply (returned_by_provider e Hreturned) |].
  run_facts Hdisp (try_dispatch_operations respond request this1 w1) Hspec.
  destruct Hspec as (_ & _ & _ & _ & Hanswer & _).
  apply (Hanswer e event meeting Hin2 Hreturned Hmeeting).
Qed.

(** X9: [delete_meeting] deletes the event under the given id without
    fetching it: the delete is the call's only provider operation, so
    nothing checks that the event is a Google Meet meeting; when the
    provider accepts, the answer is the fixed success text. *)
Theorem delete_meeting_deletes_without_fetching
  request this w log res this' w' cal i reply :
  exec respond (handleCallTool request) this w = (log, (res, this'), w') ->
  In (E_EventsDelete cal i reply) log ->
  params_name request = "delete_meeting"
  /\ a_meeting_id (default_to no_args (params_arguments request)) = Some i
  /\ count is_provider log = 1
  /\ (reply = inr tt ->
      res = Normal {| text := Str "Meeting successfully deleted";
                      isError := false |}).
Proof.
  intros Hexec Hin.
  edestruct provider_call_after_initialization
    as (l1 & l2 & this1 & w1 & Hlog & Hinit & Hin2 & Hdisp);
    [exact Hexec | exact Hin | reflexivity |].
  run_facts Hdisp (try_dispatch_operations respond request this1 w1) Hspec.
  destruct Hspec as (Hops & _ & Hone & _ & _ & Haddressed & Hdeleted).
  assert (Hname : params_name request = "delete_meeting")
    by (apply String.eqb_eq, (Hops _ Hin2)).
  split; [exact Hname |].
  split; [apply (Haddressed _ i Hin2 eq_refl) |].
  split.
  - assert (Hatmost : count is_provider l2 <= 1)
      by (apply Hone; rewrite Hname; discriminate).
    pose proof (count_member is_provider l2 _ Hin2 eq_refl) as Hatleast.
    rewrite Hlog, count_app, (count_none is_provider l1 Hinit); lia.
  - intros ->; apply (Hdeleted cal i Hin2).
Qed.

(** X10: every provider call that addresses an event (fetch, update,
    delete) addresses the [meeting_id] of the request, which is not
    empty. *)
Theorem provider_calls_address_the_requested_meeting
  request this w log res this' w' e i :
  exec respond (handleCallTool request) this w = (log, (res, this'), w') ->
  In e log -> addressed_event e = Some i ->
  a_meeting_id (default_to no_args (params_arguments request)) = Some i
  /\ i <> "".
Proof.
  intros Hexec Hin Haddressed.
  edestruct provider_call_in_dispatch
    as (l1 & l2 & this1 & w1 & _ & Hin2 & Hdisp);
    [exact Hexec | exact Hin | apply (addressed_by_provider e Haddressed) |].
  run_facts Hdisp (try_dispatch_operations respond request this1 w1) Hspec.
  destruct Hspec as (_ & _ & _ & _ & _ & Hid & _).
  apply (Hid e i Hin2 Haddressed).
Qed.

(** X11: [update_meeting] with a [start_time] on a fetched event that has
    no [start] object (or an [end_time] on one without [end]) writes
    nothing back: no update is sent to the provider and the call returns
    an error-flagged envelope of the update. *)
Theorem update_meeting_on_event_without_times
  request this w log res this' w' cal i fetched :
  exec respond (handleCallTool request) this w = (log, (res, this'), w') ->
  In (E_EventsGet cal i None (inr fetched)) log ->
  let args := default_to no_args (params_arguments request) in
  (a_start_time args <> None /\ ev_start fetched = None)
  \/ (a_end_time args <> None /\ ev_end fetched = None) ->
  count is_update log = 0
  /\ exists msg,
       res = Normal (flagged ("Error: " ++ "Error updating meeting: " ++ msg)).
Proof.
  intros Hexec Hin args Hmissing.
  edestruct provider_call_after_initialization
    as (l1 & l2 & this1 & w1 & Hlog & Hinit & Hin2 & Hdisp);
    [exact Hexec | exact Hin | reflexivity |].
  run_facts Hdisp (try_dispatch_assignment_fails respond request this1 w1)
            Hspec.
  destruct (assign_fields_fails fetched
              {| ud_summary := a_summary args;
                 ud_description := a_description args;
                 ud_startTime := a_start_time args;
                 ud_endTime := a_end_time args;
                 ud_attendees := a_attendees args |} Hmissing)
    as (error & Hthrow).
  destruct (Hspec cal i fetched error Hin2 Hthrow) as [Hcount Hres].
  split; [| exists (message error); exact Hres].
  rewrite Hlog, count_app, Hcount, count_none; [reflexivity |].
  intros e He; apply not_provider_not_update, Hinit, He.
Qed.

(** X12: the tool table of [handleListTools] and the dispatch of
    [handleCallTool] agree.  Once a context is there, a call is refused
    with MethodNotFound exactly when no tool of that name is declared; a
    call of a declared tool is refused with InvalidParams when an argument
    the tool declares as required is missing or empty, and is answered by
    an envelope when all of them are there, [update_meeting] asking in
    addition for at least one field to update. *)
Theorem declared_tools_are_the_dispatched_ones
  request this w log res this' w' :
  exec respond (handleCallTool request) this w = (log, (res, this'), w') ->
  calendar this' <> None ->
  let name := params_name request in
  let args := default_to no_args (params_arguments request) in
  (tool_named name = None ->
   exists msg, res = Throw (McpError MethodNotFound msg))
  /\ (forall tool, tool_named name = Some tool ->
      (forall msg, res <> Throw (McpError MethodNotFound msg))
      /\ ((exists key, In key (tool_required tool)
                       /\ truthy (string_argument key args) = false) ->
          exists msg, res = Throw (McpError InvalidParams msg))
      /\ ((forall key, In key (tool_required tool) ->
                       truthy (string_argument key args) = true) ->
          (name = "update_meeting" -> no_update_field args = false) ->
          exists envelope, res = Normal envelope)).
Proof.
  intros Hexec Hcal name args.
  edestruct dispatch_on_context
    as (l1 & l2 & _ & _ & Hthrown & Hanswered & _);
    [exact Hexec | exact Hcal |].
  pose proof (protocol_error_declared request) as Hdeclared.
  cbv zeta in Hdeclared; fold name args in Hdeclared.
  split.
  - intros Hnone; rewrite Hnone in Hdeclared.
    apply (Hthrown _ Hdeclared).
  - intros tool Htool; rewrite Htool in Hdeclared.
    split; [| split].
    + intros msg Hres.
      destruct (forallb (fun key => truthy (string_argument key args))
                        (tool_required tool)
                && negb ((name =? "update_meeting") && no_update_field args)).
      * destruct (Hanswered Hdeclared) as (envelope & Henv); congruence.
      * destruct (Hthrown _ Hdeclared) as (_ & m & Hm); congruence.
    + intros (key & Hkey & Hfalsy).
      assert (Hall : forallb (fun key => truthy (string_argument key args))
                             (tool_required tool) = false).
      { destruct (forallb _ (tool_required tool)) eqn:Hforall;
          [| reflexivity].
        rewrite forallb_forall in Hforall.
        rewrite (Hforall key Hkey) in Hfalsy; discriminate Hfalsy. }
      rewrite Hall in Hdeclared; apply (Hthrown _ Hdeclared).
    + intros Hall Hfield.
      assert (Hforall : forallb (fun key => truthy (string_argument key args))
                                (tool_required tool) = true)
        by (apply forallb_forall; exact Hall).
      assert (Hupdate : (name =? "update_meeting") && no_update_field args
                        = false).
      { destruct (name =? "update_meeting") eqn:Hname; [| reflexivity].
        apply String.eqb_eq in Hname; rewrite (Hfield Hname); reflexivity. }
      rewrite Hforall, Hupdate in Hdeclared.
      apply (Hanswered Hdeclared).
Qed.

(** X13: the server is constructed only when both environment variables
    are set and not empty; the gateway it holds has no context yet and the
    two paths of the environment, so that the first call starts by reading
    the credentials file named by [GOOGLE_MEET_CREDENTIALS_PATH], and the
    only other file a call reads or writes is the token file named by
    [GOOGLE_MEET_TOKEN_PATH]. *)
Theorem server_uses_the_files_of_the_environment
  credentials_path token_path api request w log res this' w' :
  GoogleMeetMcpServer credentials_path token_path = Some api ->
  exec respond (handleCallTool request) api w = (log, (res, this'), w') ->
  credentials_path = Some (credentialsPath api)
  /\ credentialsPath api <> ""
  /\ token_path = Some (tokenPath api)
  /\ tokenPath api <> ""
  /\ (exists reply rest,
        log = E_ReadCredentials (credentialsPath api) reply :: rest)
  /\ (forall e path, In e log -> accessed_file e = Some path ->
      Some path = if is_credentials_read e then credentials_path
                  else token_path).
Proof.
  unfold GoogleMeetMcpServer; intros Hserver Hexec.
  destruct (truthy credentials_path) eqn:Hcredentials;
    [| discriminate Hserver].
  destruct (truthy token_path) eqn:Htoken; [| discriminate Hserver].
  cbn [negb orb] in Hserver; injection Hserver as <-.
  cbn [constructor credentialsPath tokenPath] in *.
  pose proof (or_empty_truthy _ Hcredentials) as Hc.
  pose proof (or_empty_truthy _ Htoken) as Ht.
  apply truthy_true in Hcredentials as (c & Hcs & Hcne).
  apply truthy_true in Htoken as (t & Hts & Htne).
  split; [exact Hc |]. split; [congruence |].
  split; [exact Ht |]. split; [congruence |].
  split.
  - edestruct uninitialized_call_reads_credentials
      as (reply & rest & Hhead); [| exact Hexec |];
      [reflexivity | exists reply, rest; exact Hhead].
  - intros e path Hin Hfile.
    pose proof (@call_touches_its_own_files _ _ _ _ _ _ _ Hexec e path
                  Hin Hfile) as Hpath.
    cbn [constructor credentialsPath tokenPath] in Hpath; rewrite Hpath.
    destruct (is_credentials_read e); [rewrite <- Hc | rewrite <- Ht];
      reflexivity.
Qed.

End Further.

(** ** The setup script *)

Lemma or_default_given (v : option string) (d : string) :
  truthy v = true -> v = Some (or_empty (or_str v (Some d))).
Proof.
  intros Hv; unfold or_str; rewrite Hv; apply or_empty_truthy, Hv.
Qed.

Lemma or_default_missing (v : option string) (d : string) :
  truthy v = false -> or_empty (or_str v (Some d)) = d.
Proof.
  intros Hv; unfold or_str; rewrite Hv.
  rewrite or_empty_default; reflexivity.
Qed.

(** Run [main] against an arbitrary environment: one goal per path, the
    goal being stated over [main env = (actions, outcome)]. *)
Ltac script_case :=
  match goal with
  | |- context [Setup.access ?env ?p] =>
      let E := fresh "Haccess" in
      destruct (Setup.access env p) as [? | []] eqn:E
  | |- context [Setup.readFile ?env ?p] =>
      let E := fresh "Hread" in
      destruct (Setup.readFile env p) as [? | credentials] eqn:E
  | |- context [or_obj (web ?c) (installed ?c)] =>
      let E := fresh "Hdata" in
      destruct (or_obj (web c) (installed c)) as [credData |] eqn:E
  | |- context [cred_redirect_uris ?d] =>
      let E := fresh "Huris" in
      destruct (cred_redirect_uris d) as [uris |] eqn:E
  | |- context [Setup.open ?env ?u] =>
      let E := fresh "Hopen" in
      destruct (Setup.open env u) as [? | []] eqn:E
  | |- context [orb (String.eqb (Setup.answer ?env) "") ?b] =>
      let E := fresh "Hblank" in
      destruct (orb (String.eqb (Setup.answer env) "") b) eqn:E
  | |- context [Setup.getToken ?env ?c ?code] =>
      let E := fresh "Hexchange" in
      destruct (Setup.getToken env c code) as [error | tokens] eqn:E
  | |- context [Setup.writeFile ?env ?p ?t] =>
      let E := fresh "Hwrite" in
      destruct (Setup.writeFile env p t) as [? | []] eqn:E
  | |- context [Setup.rej_response_data ?e] =>
      let E := fresh "Hdetails" in
      destruct (Setup.rej_response_data e) as [details |] eqn:E
  end.

Ltac script_reduce :=
  cbv [Setup.stry Setup.sbind Setup.act Setup.awaited
       Setup.rejecting Setup.exit Setup.sret Setup.plain_error app];
  cbn [Setup.rej_response_data Setup.rej_message].

Ltac run_script :=
  unfold Setup.main; repeat (script_reduce; script_case); script_reduce.

(** An action is in an evaluated script. *)
Ltac script_has := cbn [In]; repeat (first [left; reflexivity | right]).

(** An action of an evaluated script. *)
Ltac in_script H :=
  cbn [In] in H;
  repeat match type of H with
    | _ \/ _ => destruct H as [H | H]
    end;
  first [discriminate H | contradiction H | idtac].

Section SetupScript.

Variable path_join : string -> string -> string.
Variable generateAuthUrl : OAuth2Client -> Setup.AuthUrlOptions -> string.
Variable trim : string -> string.

(** X14: whatever the file system, the browser, the user and the token
    endpoint answer, the setup script never ends by an uncaught error: it
    ends normally or by [process.exit(1)], with the prompt closed.  It
    writes at most one file, the token file at [GOOGLE_MEET_TOKEN_PATH]
    (or [token.json] in the working directory), and only the tokens that
    the token endpoint gave in exchange for the code the user typed,
    trimmed and not empty; it ends normally only when that file was
    written. *)
Theorem setup_saves_only_an_exchanged_token (env : Setup.Env) :
  let actions := fst (Setup.main path_join generateAuthUrl trim env) in
  let outcome := snd (Setup.main path_join generateAuthUrl trim env) in
  (outcome = Setup.Ok tt \/ outcome = Setup.Exited 1)
  /\ In Setup.RlClose actions
  /\ length (filter is_write_file actions) <= 1
  /\ (forall path tokens,
        In (Setup.WriteFile path tokens) actions ->
        path = setup_token_path path_join env
        /\ trim (Setup.answer env) <> ""
        /\ exists client,
             In (Setup.GetToken client (trim (Setup.answer env))) actions
             /\ Setup.getToken env client (trim (Setup.answer env))
                = inr tokens)
  /\ (outcome = Setup.Ok tt ->
      exists tokens,
        In (Setup.WriteFile (setup_token_path path_join env) tokens) actions
        /\ Setup.writeFile env (setup_token_path path_join env) tokens
           = inr tt).
Proof.
  destruct (Setup.main path_join generateAuthUrl trim env)
    as [actions outcome] eqn:Hmain.
  cbn [fst snd]; cbv zeta.
  revert Hmain; unfold setup_token_path.
  run_script.
  all: intros Hmain; injection Hmain as <- <-.
  all: (split; [first [left; reflexivity | right; reflexivity] |]).
  all: (split; [script_has |]).
  all: (split; [cbn [filter is_write_file length]; lia |]).
  all: split.
  all: try (intros Hok; discriminate Hok).
  all: try (intros ? ? Hmember; in_script Hmember; fail).
  all: try (intros _; eexists; split; [script_has | exact Hwrite]).
  all: intros ? ? Hmember; in_script Hmember; injection Hmember as <- <-.
  all: apply orb_false_elim in Hblank as [_ Hblank];
    apply String.eqb_neq in Hblank.
  all: (split; [reflexivity |]).
  all: (split; [exact Hblank |]).
  all: eexists; split; [script_has | exact Hexchange].
Qed.

Lemma setup_works_on_its_paths (env : Setup.Env) :
  forall a, In a (fst (Setup.main path_join generateAuthUrl trim env)) ->
    match a with
    | Setup.Access path | Setup.ReadFile path =>
        path = setup_credentials_path path_join env
    | Setup.WriteFile path _ => path = setup_token_path path_join env
    | _ => True
    end.
Proof.
  destruct (Setup.main path_join generateAuthUrl trim env)
    as [actions outcome] eqn:Hmain.
  cbn [fst snd].
  revert Hmain; unfold setup_token_path, setup_credentials_path.
  run_script.
  all: intros Hmain; injection Hmain as <- <-.
  all: intros a Hmember; in_script Hmember; subst a; exact I || reflexivity.
Qed.

(** X15: when the credentials file is not there, the script stops at
    once: it reads no file, opens no browser, asks for no code, exchanges
    and writes nothing, and ends by [process.exit(1)]. *)
Theorem setup_without_credentials_file (env : Setup.Env) (msg : string) :
  Setup.access env (setup_credentials_path path_join env) = inl msg ->
  snd (Setup.main path_join generateAuthUrl trim env) = Setup.Exited 1
  /\ (forall a,
        In a (fst (Setup.main path_join generateAuthUrl trim env)) ->
        after_access a = false).
Proof.
  unfold setup_credentials_path, Setup.main; intros Hmissing.
  script_reduce; rewrite Hmissing; script_reduce; cbn [fst snd].
  split; [reflexivity |].
  intros a Hmember; in_script Hmember; subst a; reflexivity.
Qed.

Section Server.

Variable World : Type.
Variable respond : forall c : Cmd, World -> Reply c * World.

(** X16: the setup script and the server agree on the files.  When both
    are started in the same environment, in which the server can be
    constructed, the credentials file the script reads is the one a tool
    call reads, and the token file the script writes is the one a tool
    call reads the token from and writes a refreshed token to. *)
Theorem server_reads_what_the_setup_saved
  (env : Setup.Env) api request w log res this' w' :
  GoogleMeetMcpServer (Setup.GOOGLE_MEET_CREDENTIALS_PATH env)
                      (Setup.GOOGLE_MEET_TOKEN_PATH env) = Some api ->
  exec respond (handleCallTool request) api w = (log, (res, this'), w') ->
  (forall path e file,
      In (Setup.ReadFile path)
         (fst (Setup.main path_join generateAuthUrl trim env)) ->
      In e log -> is_credentials_read e = true ->
      accessed_file e = Some file -> file = path)
  /\ (forall path tokens e file,
        In (Setup.WriteFile path tokens)
           (fst (Setup.main path_join generateAuthUrl trim env)) ->
        In e log -> is_credentials_read e = false ->
        accessed_file e = Some file -> file = path).
Proof.
  unfold GoogleMeetMcpServer; intros Hserver Hexec.
  destruct (truthy (Setup.GOOGLE_MEET_CREDENTIALS_PATH env)) eqn:Hcredentials;
    [| discriminate Hserver].
  destruct (truthy (Setup.GOOGLE_MEET_TOKEN_PATH env)) eqn:Htoken;
    [| discriminate Hserver].
  cbn [negb orb] in Hserver; injection Hserver as <-.
  pose proof (call_touches_its_own_files respond _ _ _ Hexec) as Hfiles.
  cbn [constructor credentialsPath tokenPath] in Hfiles.
  split.
  - intros path e file Hscript Hin Hkind Hfile.
    apply (setup_works_on_its_paths env) in Hscript.
    rewrite (Hfiles e file Hin Hfile), Hkind, Hscript.
    unfold setup_credentials_path, or_str; rewrite Hcredentials.
    reflexivity.
  - intros path tokens e file Hscript Hin Hkind Hfile.
    apply (setup_works_on_its_paths env) in Hscript.
    rewrite (Hfiles e file Hin Hfile), Hkind, Hscript.
    unfold setup_token_path, or_str; rewrite Htoken.
    reflexivity.
Qed.

End Server.

End SetupScript.

(** ** The further properties on the simulated calendar *)


(** X2, on [list_meetings({ max_results: 0, time_min: "", time_max })]:
    ten results are asked for, from the clock's reading on. *)
Lemma list_meetings_defaults_on_falsy_arguments :
  lp_maxResults Scenario.list_query = 10%Z
  /\ In (E_DateToISOString (lp_timeMin Scenario.list_query))
        (Sim.log_of Scenario.listing_with_args).
Proof.
  destruct (@list_meetings_query
              Sim.World Sim.respond
              (Sim.call "list_meetings" Scenario.list_args)
              Sim.ready Sim.w_valid
              (Sim.log_of Scenario.listing_with_args)
              (Sim.result_of Scenario.listing_with_args)
              (Sim.api_of Scenario.listing_with_args)
              (Sim.world_of Scenario.listing_with_args)
              Sim.ready_calendar Scenario.list_query
              (inr (Some (Sim.events Sim.w_valid))))
    as (_ & _ & _ & _ & Hmax & _ & _ & Hclock).
  - by_running.
  - in_the_log.
  - split; [exact Hmax | apply Hclock; reflexivity].
Defined.

(** X3, on [create_meeting] of the stand-up at clock reading 50. *)
Lemma create_meeting_inserts_the_standup :
  exists init_log now,
    Sim.log_of Scenario.creating
    = (init_log
       ++ [E_DateNow now;
           E_EventsInsert Sim.ready_calendar
             (created_resource Sim.standup 50)
             (inr (Sim.with_conference (created_resource Sim.standup 50)
                                       Sim.meet))])%list
    /\ created_resource Sim.standup 50 = created_resource Sim.standup now.
Proof.
  destruct (@create_meeting_payload
              Sim.World Sim.respond
              (Sim.call "create_meeting" Sim.standup) Sim.ready Sim.w_valid
              (Sim.log_of Scenario.creating) (Sim.result_of Scenario.creating)
              (Sim.api_of Scenario.creating) (Sim.world_of Scenario.creating)
              Sim.ready_calendar (created_resource Sim.standup 50)
              (inr (Sim.with_conference (created_resource Sim.standup 50)
                                        Sim.meet)))
    as (init_log & now & Hlog & Hresource & _).
  - by_running.
  - in_the_log.
  - exists init_log, now; split; [exact Hlog | exact Hresource].
Defined.

(** X4, on [get_meeting] of an id the calendar does not have. *)
Lemma get_meeting_reports_not_found :
  Sim.result_of Scenario.lookup_missing
  = Normal (flagged "Error: Error getting meeting: Not Found").
Proof.
  apply (@provider_rejection_is_reported
           Sim.World Sim.respond
           (Sim.call "get_meeting" (Sim.with_id "nope")) Sim.ready Sim.w_valid
           (Sim.log_of Scenario.lookup_missing)
           (Sim.result_of Scenario.lookup_missing)
           (Sim.api_of Scenario.lookup_missing)
           (Sim.world_of Scenario.lookup_missing)
           (E_EventsGet Sim.ready_calendar "nope" (Some 1%Z) (inl "Not Found"))
           "Not Found").
  - by_running.
  - in_the_log.
  - reflexivity.
  - reflexivity.
Defined.

(** X5, on a first call while the token file is missing: the message of
    the file system is replaced by the request to run the setup script. *)
Lemma missing_token_file_asks_for_the_setup :
  Sim.result_of Scenario.failed_call
  = Normal (flagged ("Error initializing Google Meet API: "
                     ++ No_valid_credentials)).
Proof.
  destruct (@initialization_failure_is_reported
              Sim.World Sim.respond
              (Sim.call "get_meeting" (Sim.with_id "evt1"))
              Sim.api Sim.w_no_token
              (Sim.log_of Scenario.failed_call)
              (Sim.result_of Scenario.failed_call)
              (Sim.api_of Scenario.failed_call)
              (Sim.world_of Scenario.failed_call))
    as (Hrejected & _).
  - by_running.
  - apply (Hrejected
             (E_ReadToken "token.json"
                (inl "ENOENT: no such file or directory, open 'token.json'"))
             "ENOENT: no such file or directory, open 'token.json'").
    + in_the_log.
    + reflexivity.
    + reflexivity.
Defined.

(** X6, on the call made after that one, once the token file is there. *)
Lemma call_after_a_failed_one_starts_again :
  Sim.api_of Scenario.failed_call = Sim.api
  /\ exists reply rest,
       Sim.log_of Scenario.retried_call
       = E_ReadCredentials "credentials.json" reply :: rest.
Proof.
  apply (@failed_initialization_is_retried
           Sim.World Sim.respond
           (Sim.call "get_meeting" (Sim.with_id "evt1"))
           Sim.api Sim.w_no_token
           (Sim.log_of Scenario.failed_call)
           (Sim.result_of Scenario.failed_call)
           (Sim.api_of Scenario.failed_call)
           (Sim.world_of Scenario.failed_call)
           (Sim.call "get_meeting" (Sim.with_id "evt1")) Sim.w_valid
           (Sim.log_of Scenario.retried_call)
           (Sim.result_of Scenario.retried_call)
           (Sim.api_of Scenario.retried_call)
           (Sim.world_of Scenario.retried_call)).
  - by_running.
  - by_running.
  - by_running.
Defined.

(** X7, on the first call of a gateway whose token is still valid. *)
Lemma first_call_builds_the_context :
  exists creds credData token,
    (exists rest,
        Sim.log_of Scenario.first_call
        = E_ReadCredentials "credentials.json" (inr creds) :: rest)
    /\ client_id (auth Sim.ready_calendar) = cred_client_id credData
    /\ credentials (auth Sim.ready_calendar) = Some token.
Proof.
  destruct (@context_is_built_from_the_credentials_file
              Sim.World Sim.respond
              (Sim.call "get_meeting" (Sim.with_id "evt1"))
              Sim.api Sim.w_valid
              (Sim.log_of Scenario.first_call)
              (Sim.result_of Scenario.first_call)
              (Sim.api_of Scenario.first_call)
              (Sim.world_of Scenario.first_call)
              Sim.ready_calendar)
    as (creds & credData & token & Hhead & _ & _ & _ & _ & _ & Hid & _ & _
        & Htoken & _).
  - by_running.
  - reflexivity.
  - by_running.
  - exists creds, credData, token.
    split; [exact Hhead | split; [exact Hid | exact Htoken]].
Defined.

(** X8, on [get_meeting("evt1")]: the meeting of [evt1] is the answer. *)
Lemma get_meeting_answers_the_mapped_event :
  exists meeting,
    _formatMeetingData Sim.evt1 = Some meeting
    /\ Sim.result_of Scenario.lookup
       = Normal {| text := JSON_meeting meeting; isError := false |}.
Proof.
  eexists; split; [by_running |].
  apply (@returned_meeting_is_the_answer
           Sim.World Sim.respond
           (Sim.call "get_meeting" (Sim.with_id "evt1")) Sim.ready Sim.w_valid
           (Sim.log_of Scenario.lookup) (Sim.result_of Scenario.lookup)
           (Sim.api_of Scenario.lookup) (Sim.world_of Scenario.lookup)
           (E_EventsGet Sim.ready_calendar "evt1" (Some 1%Z) (inr Sim.evt1))
           Sim.evt1).
  - by_running.
  - in_the_log.
  - reflexivity.
  - by_running.
Defined.

(** X9, on [delete_meeting("evt3")]: [evt3] has no conference data, and is
    deleted by the single call. *)
Lemma delete_meeting_deletes_a_plain_event :
  ev_conferenceData Sim.evt3 = None
  /\ count is_provider (Sim.log_of Scenario.deleting) = 1
  /\ Sim.result_of Scenario.deleting
     = Normal {| text := Str "Meeting successfully deleted";
                 isError := false |}.
Proof.
  destruct (@delete_meeting_deletes_without_fetching
              Sim.World Sim.respond
              (Sim.call "delete_meeting" (Sim.with_id "evt3"))
              Sim.ready Sim.w_valid
              (Sim.log_of Scenario.deleting) (Sim.result_of Scenario.deleting)
              (Sim.api_of Scenario.deleting) (Sim.world_of Scenario.deleting)
              Sim.ready_calendar "evt3" (inr tt))
    as (_ & _ & Hone & Hdeleted).
  - by_running.
  - in_the_log.
  - split; [reflexivity | split; [exact Hone | apply Hdeleted; reflexivity]].
Defined.

(** X10, on the fetch of [update_meeting("evt1", { description: "" })]. *)
Lemma update_meeting_fetches_the_requested_meeting :
  a_meeting_id Sim.clear_description = Some "evt1" /\ "evt1" <> "".
Proof.
  apply (@provider_calls_address_the_requested_meeting
           Sim.World Sim.respond
           (Sim.call "update_meeting" Sim.clear_description)
           Sim.ready Sim.w_valid
           (Sim.log_of Sim.clearing) (Sim.result_of Sim.clearing)
           (Sim.api_of Sim.clearing) (Sim.world_of Sim.clearing)
           (E_EventsGet Sim.ready_calendar "evt1" None (inr Sim.evt1))
           "evt1").
  - by_running.
  - in_the_log.
  - reflexivity.
Defined.

(** X11, on [update_meeting("bare", { start_time })], the event [bare]
    having no [start]. *)
Lemma update_meeting_of_an_event_without_start :
  ev_start Scenario.bare_event = None
  /\ count is_update (Sim.log_of Scenario.moving_bare) = 0
  /\ exists msg,
       Sim.result_of Scenario.moving_bare
       = Normal (flagged ("Error: " ++ "Error updating meeting: " ++ msg)).
Proof.
  split; [reflexivity |].
  apply (@update_meeting_on_event_without_times
           Sim.World Sim.respond
           (Sim.call "update_meeting" Scenario.move_bare)
           Sim.ready Scenario.w_bare
           (Sim.log_of Scenario.moving_bare)
           (Sim.result_of Scenario.moving_bare)
           (Sim.api_of Scenario.moving_bare)
           (Sim.world_of Scenario.moving_bare)
           Sim.ready_calendar "bare" Scenario.bare_event).
  - by_running.
  - in_the_log.
  - left; split; [discriminate | reflexivity].
Defined.

(** X12, on [get_meeting({})]: [meeting_id] is declared as required. *)
Lemma get_meeting_without_id_is_refused :
  exists msg,
    Sim.result_of Scenario.lookup_without_id
    = Throw (McpError InvalidParams msg).
Proof.
  destruct (@declared_tools_are_the_dispatched_ones
              Sim.World Sim.respond
              (Sim.call "get_meeting" no_args) Sim.ready Sim.w_valid
              (Sim.log_of Scenario.lookup_without_id)
              (Sim.result_of Scenario.lookup_without_id)
              (Sim.api_of Scenario.lookup_without_id)
              (Sim.world_of Scenario.lookup_without_id))
    as (_ & Hdeclared).
  - by_running.
  - vm_compute; discriminate.
  - edestruct Hdeclared as (_ & Hmissing & _); [reflexivity |].
    apply Hmissing; exists "meeting_id".
    split; [left; reflexivity | reflexivity].
Defined.

(** X13, on a server started with both variables set. *)
Lemma configured_server_reads_its_credentials :
  exists reply rest,
    Sim.log_of Scenario.configured_call
    = E_ReadCredentials "/data/credentials.json" reply :: rest.
Proof.
  destruct (@server_uses_the_files_of_the_environment
              Sim.World Sim.respond
              (Some "/data/credentials.json") (Some "/data/token.json")
              Scenario.configured_server
              (Sim.call "list_meetings" no_args) Sim.w_valid
              (Sim.log_of Scenario.configured_call)
              (Sim.result_of Scenario.configured_call)
              (Sim.api_of Scenario.configured_call)
              (Sim.world_of Scenario.configured_call))
    as (_ & _ & _ & _ & Hhead & _).
  - reflexivity.
  - by_running.
  - exact Hhead.
Defined.

(** X15, on a working directory without [credentials.json]. *)
Lemma setup_stops_without_credentials :
  snd (Scenario.setup false "4/code") = Setup.Exited 1
  /\ (forall a, In a (fst (Scenario.setup false "4/code")) ->
      after_access a = false).
Proof.
  apply (@setup_without_credentials_file
           Scenario.path_join Scenario.generateAuthUrl Scenario.trim
           (Scenario.env None false "4/code") "ENOENT").
  reflexivity.
Defined.

(** X16, on the script and the server in one environment: the token the
    script saved is at the path the server reads it from. *)
Lemma configured_server_reads_the_saved_token :
  In (Setup.WriteFile "/data/token.json" Sim.stored_token)
     (fst Scenario.configured_setup)
  /\ In (E_ReadToken "/data/token.json" (inr Sim.stored_token))
        (Sim.log_of Scenario.configured_call)
  /\ (forall e file,
        In e (Sim.log_of Scenario.configured_call) ->
        is_credentials_read e = false ->
        accessed_file e = Some file -> file = "/data/token.json").
Proof.
  destruct (@server_reads_what_the_setup_saved
              Scenario.path_join Scenario.generateAuthUrl Scenario.trim
              Sim.World Sim.respond Scenario.configured
              Scenario.configured_server
              (Sim.call "list_meetings" no_args) Sim.w_valid
              (Sim.log_of Scenario.configured_call)
              (Sim.result_of Scenario.configured_call)
              (Sim.api_of Scenario.configured_call)
              (Sim.world_of Scenario.configured_call))
    as (_ & Htoken).
  - reflexivity.
  - by_running.
  - assert (Hsaved : In (Setup.WriteFile "/data/token.json" Sim.stored_token)
                        (fst Scenario.configured_setup))
      by (vm_compute; auto 40).
    split; [exact Hsaved |].
    split; [in_the_log |].
    intros e file; apply (Htoken _ _ e file Hsaved).
Defined.
